(** * One-shot voice agent: the chat, connect and MCP connector flows

    A shallow embedding of the front-end handlers that drive a
    conversation (the two [ChatInterface] components, [VoiceChatPage]) and
    of the MCP connector screens ([MCPCatalog], [MCPConfigForm],
    [MCPTestPanel]), with the properties the specification states about
    them.

    Conventions of the embedding.
    - A React component is a record of its [useState] cells.  An event
      handler is a function from the committed state to the next committed
      state together with the list of effects it performed; React commits
      the updates of a discrete event (click, key press) before the next
      event is dispatched, so every handler reads the state its
      predecessor left.
    - An [async] handler is split at its [await]: the part before it runs
      in the event that called the handler, the part after it runs in the
      event that settles the awaited promise.  What is awaited is recorded
      in the state as a pending continuation.
    - [try]/[catch]/[finally] is an error monad over the state.
    - Values the handlers read from outside (the clock, [Math.random],
      what a promise settles to) are arguments of the event.
    - Strings are sequences of code units below 256.
    - A Number that enters a product is an IEEE 754 binary64 value, with
      the multiplication of the Standard Library's [SpecFloat].
    - An object literal is the finite map of its own properties; a read
      [obj[key]] goes through [Js.get], which continues to
      [Object.prototype]. *)

From Stdlib Require Import ZArith Lia List Bool Ascii.
From Stdlib Require Import Floats.SpecFloat.
From Stdlib Require Import Sorting.Sorted Sorting.Permutation.
From stdpp Require Import base list gmap strings pretty.

(** ** JavaScript built-ins used by the handlers *)

Module Js.

(** [s.includes(sub)]: [sub] occurs as a contiguous run of [s]. *)
Fixpoint includes (s sub : string) : bool :=
  String.prefix sub s ||
  match s with
  | EmptyString => false
  | String _ s' => includes s' sub
  end.

(** The white space and line terminators of JavaScript among the code
    units below 256: tab, line feed, vertical tab, form feed, carriage
    return, space and no-break space. *)
Definition isSpace (c : Ascii.ascii) : bool :=
  let n := Ascii.nat_of_ascii c in
  ((9 <=? n)%nat && (n <=? 13)%nat) || (n =? 32)%nat || (n =? 160)%nat.

(** Leading white space removed. *)
Fixpoint trimStart (s : string) : string :=
  match s with
  | String c s' => if isSpace c then trimStart s' else s
  | EmptyString => EmptyString
  end.

(** [s.trim()] *)
Definition trim (s : string) : string :=
  String.rev (trimStart (String.rev (trimStart s))).

(** A string is truthy when it is not empty. *)
Definition truthy (s : string) : bool :=
  match s with EmptyString => false | String _ _ => true end.

(** [a || b] on strings. *)
Definition or_else (a b : string) : string := if truthy a then a else b.

(** A thrown value: an [Error] carrying a message, a [SyntaxError]
    (an [Error] too), or something that is not an [Error]. *)
Inductive thrown : Type :=
| ErrorObj (message : string)
| SyntaxErrorObj (message : string)
| NotAnError.

Definition instanceofError (e : thrown) : bool :=
  match e with NotAnError => false | _ => true end.

Definition instanceofSyntaxError (e : thrown) : bool :=
  match e with SyntaxErrorObj _ => true | _ => false end.

Definition message (e : thrown) : string :=
  match e with
  | ErrorObj m | SyntaxErrorObj m => m
  | NotAnError => ""
  end.

(** [Array.prototype.sort(cmp)].  The sort is stable, and on a consistent
    comparator every stable sort returns the same array; insertion from
    the right stands for the engine's algorithm.  [x] goes in front of the
    first element it does not compare greater than. *)
Fixpoint insertSorted {A} (cmp : A -> A -> Z) (x : A) (l : list A) : list A :=
  match l with
  | [] => [x]
  | y :: l' => if (cmp x y <=? 0)%Z then x :: l else y :: insertSorted cmp x l'
  end.

Definition sort {A} (cmp : A -> A -> Z) (l : list A) : list A :=
  foldr (insertSorted cmp) [] l.

(** What a comparator handed to [sort] returned: an integer or [NaN]. *)
Inductive compared : Type :=
| Order (z : Z)
| NotANumber.

(** [sort] reads [NaN] from its comparator as [+0]. *)
Definition sortOrder (v : compared) : Z :=
  match v with
  | Order z => z
  | NotANumber => 0%Z
  end.

(** The properties every object inherits from [Object.prototype], by
    name: each is bound to a function of its own, [__proto__] to the
    prototype object. *)
Definition objectPrototype : list string :=
  ["constructor"; "__defineGetter__"; "__defineSetter__"; "hasOwnProperty";
   "__lookupGetter__"; "__lookupSetter__"; "isPrototypeOf";
   "propertyIsEnumerable"; "toString"; "valueOf"; "__proto__";
   "toLocaleString"].

(** What a read [obj[key]] of an object literal gives when its own
    properties hold values of type [A]: such a value, or the member of
    [Object.prototype] of that name. *)
Inductive value (A : Type) : Type :=
| Val (a : A)
| Member (name : string).
Arguments Val {A} a.
Arguments Member {A} name.

#[global] Instance value_eq_dec {A} `{EqDecision A} : EqDecision (value A).
Proof. solve_decision. Defined.

(** [obj[key]] for an object with the own properties [own] whose
    prototype is [Object.prototype]: the own property if there is one,
    else the inherited one, else [undefined] ([None]). *)
Definition get {A} (own : gmap string A) (key : string) : option (value A) :=
  match own !! key with
  | Some a => Some (Val a)
  | None => if bool_decide (key ∈ objectPrototype) then Some (Member key) else None
  end.

(** [a - b] on two such reads of numbers: a function or an object
    converts to [NaN]. *)
Definition minus (a b : value Z) : compared :=
  match a, b with
  | Val x, Val y => Order (x - y)
  | _, _ => NotANumber
  end.

(** Numbers are IEEE 754 binary64 values: [x * y] is the product rounded
    to the nearest value, ties to even. *)
Definition mul (x y : spec_float) : spec_float := SFmul 53 1024 x y.

(** The Number of an integer. *)
Definition ofZ (z : Z) : spec_float := binary_normalize 53 1024 z 0 false.

(** [Math.floor(x)] as an integer; [None] for [NaN] and the
    infinities. *)
Definition floor (x : spec_float) : option Z :=
  match x with
  | S754_zero _ => Some 0%Z
  | S754_finite s m e =>
      let n := if s then Z.neg m else Z.pos m in
      Some (if (0 <=? e)%Z then n * 2 ^ e else n / 2 ^ (- e))%Z
  | _ => None
  end.

(** What [Math.random()] may return: a binary64 value with positive
    sign, at least [+0] and less than 1. *)
Definition isRandom (x : spec_float) : bool :=
  match x with
  | S754_zero s => negb s
  | S754_finite s m e =>
      negb s && bounded 53 1024 m e && (e <? 0)%Z && (Z.pos m <? 2 ^ (- e))%Z
  | _ => false
  end.

End Js.

(** ** Handlers as computations that may throw or wait

    [t S E A] is a handler body over component state [S] performing
    effects of type [E]: it ends with a value, with a thrown value, or
    suspended at an [await] whose promise never settles. *)

Module Exec.

Inductive result (A : Type) : Type :=
| Done (a : A)
| Threw (e : Js.thrown)
| Suspended.
Arguments Done {A} a.
Arguments Threw {A} e.
Arguments Suspended {A}.

(** What an awaited promise does. *)
Inductive settle (A : Type) : Type :=
| Fulfilled (a : A)
| Rejected (e : Js.thrown)
| NeverSettles.
Arguments Fulfilled {A} a.
Arguments Rejected {A} e.
Arguments NeverSettles {A}.

(** [Promise.all] of two promises; [secondFirst] tells which rejection
    came first when both reject. *)
Definition promiseAll {A B} (a : settle A) (b : settle B)
    (secondFirst : bool) : settle (A * B) :=
  match a, b with
  | Fulfilled x, Fulfilled y => Fulfilled (x, y)
  | Rejected e, Rejected e' => Rejected (if secondFirst then e' else e)
  | Rejected e, _ => Rejected e
  | _, Rejected e => Rejected e
  | _, _ => NeverSettles
  end.

Definition t (S E A : Type) : Type := S -> result A * S * list E.

Section Ops.
Context {S E : Type}.

Definition ret {A} (a : A) : t S E A := fun s => (Done a, s, []).

Definition bind {A B} (m : t S E A) (k : A -> t S E B) : t S E B :=
  fun s =>
    match m s with
    | (Done a, s', l) =>
        match k a s' with (r, s'', l') => (r, s'', l ++ l') end
    | (Threw e, s', l) => (Threw e, s', l)
    | (Suspended, s', l) => (Suspended, s', l)
    end.

Definition throw {A} (e : Js.thrown) : t S E A := fun s => (Threw e, s, []).

Definition emit (e : E) : t S E unit := fun s => (Done tt, s, [e]).

Definition get : t S E S := fun s => (Done s, s, []).

Definition modify (f : S -> S) : t S E unit := fun s => (Done tt, f s, []).

Definition await {A} (p : settle A) : t S E A :=
  fun s =>
    match p with
    | Fulfilled a => (Done a, s, [])
    | Rejected e => (Threw e, s, [])
    | NeverSettles => (Suspended, s, [])
    end.

(** [try { body } catch (err) { handler err }] *)
Definition try_catch {A} (body : t S E A) (handler : Js.thrown -> t S E A)
  : t S E A :=
  fun s =>
    match body s with
    | (Threw e, s', l) =>
        match handler e s' with (r, s'', l') => (r, s'', l ++ l') end
    | other => other
    end.

(** [try { body } finally { fin }]: [fin] runs when [body] ends,
    normally or not; its own completion wins only if it is abrupt. *)
Definition finally {A} (body : t S E A) (fin : t S E unit) : t S E A :=
  fun s =>
    match body s with
    | (Suspended, s', l) => (Suspended, s', l)
    | (r, s', l) =>
        match fin s' with
        | (Done _, s'', l') => (r, s'', l ++ l')
        | (Threw e, s'', l') => (Threw e, s'', l ++ l')
        | (Suspended, s'', l') => (Suspended, s'', l ++ l')
        end
    end.

Definition try_catch_finally {A} (body : t S E A)
    (handler : Js.thrown -> t S E A) (fin : t S E unit) : t S E A :=
  finally (try_catch body handler) fin.

(** The three components of a finished run. *)
Definition outcome {A} (x : result A * S * list E) : result A := fst (fst x).
Definition state {A} (x : result A * S * list E) : S := snd (fst x).
Definition effects {A} (x : result A * S * list E) : list E := snd x.

End Ops.

Module Notations.
Notation "'let*' x := m 'in' k" := (bind m (fun x => k))
  (at level 10, x name, m at level 100, k at level 200).
Notation "m ;; k" := (bind m (fun _ => k))
  (at level 100, k at level 200, right associativity).
End Notations.

End Exec.

(** ** MCPConfigForm: secret fields *)

Module MCPConfigForm.

Inductive InputType : Type := text | password.

Section Form.
(** [String.prototype.toLowerCase], left abstract: the form only
    composes it with [includes]. *)
Variable toLowerCase : string -> string.

Definition secretFields : list string :=
  ["password"; "api_key"; "secret"; "token"; "key"].

Definition isSecretField (fieldName : string) : bool :=
  existsb (fun secret => Js.includes (toLowerCase fieldName) secret)
          secretFields.

(** [showSecrets[field]], where a missing key reads [undefined]. *)
Definition shown (showSecrets : gmap string bool) (field : string) : bool :=
  default false (showSecrets !! field).

Definition toggleSecretVisibility (field : string)
    (prev : gmap string bool) : gmap string bool :=
  <[field := negb (shown prev field)]> prev.

Definition showValue (showSecrets : gmap string bool) (field : string) : bool :=
  negb (isSecretField field) || shown showSecrets field.

Definition inputType (showSecrets : gmap string bool) (field : string)
  : InputType :=
  if showValue showSecrets field then text else password.

(** The [type] attribute of every input the form renders. *)
Definition renderedTypes (schema : list string)
    (showSecrets : gmap string bool) : list (string * InputType) :=
  map (fun field => (field, inputType showSecrets field)) schema.

(** The visibility map after the user clicked the eye button of the
    fields [clicks], in that order, on a freshly mounted form. *)
Definition afterToggles (clicks : list string) : gmap string bool :=
  fold_left (fun m f => toggleSecretVisibility f m) clicks ∅.

End Form.

(** Lower-casing of the ASCII letters, for running the form. *)
Definition asciiLower (c : Ascii.ascii) : Ascii.ascii :=
  let n := Ascii.nat_of_ascii c in
  if (65 <=? n)%nat && (n <=? 90)%nat then Ascii.ascii_of_nat (n + 32) else c.

Fixpoint asciiToLowerCase (s : string) : string :=
  match s with
  | EmptyString => EmptyString
  | String c s' => String (asciiLower c) (asciiToLowerCase s')
  end.

End MCPConfigForm.

(** ** ChatInterface (agent API flow)

    The component whose [sendMessage] posts to [/api/v1/agent/invoke]. *)

Module ChatInterface.
Import Exec Exec.Notations.

Inductive Role : Type := user | assistant.

#[global] Instance Role_eq_dec : EqDecision Role.
Proof. solve_decision. Defined.

(** Message ids: [Date.now().toString()], ['welcome'] or ['error']. *)
Inductive MessageId : Type :=
| IdOfTime (ms : Z)
| IdWelcome
| IdError.

Record Message : Type := {
  id : MessageId;
  content : string;
  role : Role;
  timestamp : Z
}.

Record AgentInvokeResponse : Type := {
  success : bool;
  agent_response : option string;
  error : option string
}.

Record Agent : Type := {
  agent_id : string;
  name : string;
  shortDescription : string;
  avatar : option string;
  elevenlabsVoiceId : option string
}.

Record Props : Type := {
  agent : option Agent;
  conversationId : option string
}.

(** [conversationId || `${agent?.id}-${Date.now()}`], kept structured. *)
Inductive SessionId : Type :=
| OfConversation (conversation : string)
| OfAgentAt (agentId : option string) (ms : Z).

Record Traits : Type := {
  t_name : string;
  t_shortDescription : string;
  identity : string;
  mission : string;
  interactionStyle : string;
  creativity : Z;
  empathy : Z;
  assertiveness : Z;
  verbosity : Z;
  formality : Z;
  confidence : Z;
  humor : Z;
  technicality : Z;
  safety : Z
}.

(** The body of the POST. *)
Record InvokeRequest : Type := {
  user_input : string;
  session_id : SessionId;
  tenant_id : string;
  voice_id : option string;
  tts_enabled : bool;
  model : string;
  req_agent_id : string;
  traits : Traits
}.

Inductive Effect : Type :=
| ApiPost (url : string) (body : InvokeRequest)
| ConsoleError
| ToastError (text : string)
| ToastInfo (text : string)
| ToastSuccess (text : string)
| ClipboardWrite (text : string).

(** What the continuation of an accepted [sendMessage] closes over. *)
Record Turn : Type := {
  turn_userMsg : Message;
  turn_agent : Agent
}.

(** The state cells of the component, its [sessionId] ref, and the
    [sendMessage] calls that wait for [api.post]. *)
Record State : Type := {
  messages : list Message;
  inputMessage : string;
  isLoading : bool;
  isListening : bool;
  isSpeaking : bool;
  sessionId : SessionId;
  inflight : list Turn
}.

Definition setMessages (f : list Message -> list Message) (st : State) : State :=
  {| messages := f (messages st); inputMessage := inputMessage st;
     isLoading := isLoading st; isListening := isListening st;
     isSpeaking := isSpeaking st; sessionId := sessionId st;
     inflight := inflight st |}.

Definition setInputMessage (v : string) (st : State) : State :=
  {| messages := messages st; inputMessage := v;
     isLoading := isLoading st; isListening := isListening st;
     isSpeaking := isSpeaking st; sessionId := sessionId st;
     inflight := inflight st |}.

Definition setIsLoading (b : bool) (st : State) : State :=
  {| messages := messages st; inputMessage := inputMessage st;
     isLoading := b; isListening := isListening st;
     isSpeaking := isSpeaking st; sessionId := sessionId st;
     inflight := inflight st |}.

Definition setIsListening (f : bool -> bool) (st : State) : State :=
  {| messages := messages st; inputMessage := inputMessage st;
     isLoading := isLoading st; isListening := f (isListening st);
     isSpeaking := isSpeaking st; sessionId := sessionId st;
     inflight := inflight st |}.

Definition setIsSpeaking (f : bool -> bool) (st : State) : State :=
  {| messages := messages st; inputMessage := inputMessage st;
     isLoading := isLoading st; isListening := isListening st;
     isSpeaking := f (isSpeaking st); sessionId := sessionId st;
     inflight := inflight st |}.

Definition setInflight (f : list Turn -> list Turn) (st : State) : State :=
  {| messages := messages st; inputMessage := inputMessage st;
     isLoading := isLoading st; isListening := isListening st;
     isSpeaking := isSpeaking st; sessionId := sessionId st;
     inflight := f (inflight st) |}.

(** The effect on [agent] and [conversationId]: a new conversation with
    an agent starts from the welcome message. *)
Definition welcomeEffect (p : Props) (now : Z) (st : State) : State :=
  match agent p, conversationId p with
  | Some a, None
  | Some a, Some EmptyString =>
      setMessages (fun _ =>
        [ {| id := IdWelcome;
             content := "Hello! I'm " +:+ name a +:+ ". " +:+ shortDescription a;
             role := assistant; timestamp := now |} ]) st
  | _, _ => st
  end.

(** The state after mounting at time [now]: the [useState] defaults, the
    [sessionId] ref, and the first run of the effect. *)
Definition mount (p : Props) (now : Z) : State :=
  welcomeEffect p now
    {| messages := [];
       inputMessage := "";
       isLoading := false;
       isListening := false;
       isSpeaking := false;
       sessionId :=
         match conversationId p with
         | Some (String c s) => OfConversation (String c s)
         | _ => OfAgentAt (agent_id <$> agent p) now
         end;
       inflight := [] |}.

Definition invokeRequest (st : State) (a : Agent) (userMsg : Message)
  : InvokeRequest :=
  {| user_input := content userMsg;
     session_id := sessionId st;
     tenant_id := "default";
     voice_id := elevenlabsVoiceId a;
     tts_enabled := false;
     model := "gpt-4";
     req_agent_id := agent_id a;
     traits :=
       {| t_name := name a;
          t_shortDescription := shortDescription a;
          identity := "I am an AI assistant";
          mission := "To help users with their questions and tasks";
          interactionStyle := "Friendly and helpful";
          creativity := 75; empathy := 80; assertiveness := 60;
          verbosity := 50; formality := 40; confidence := 70;
          humor := 35; technicality := 65; safety := 90 |} |}.

(** [sendMessage] up to its [await]: the guard, the user message, the
    cleared input, the loading flag, and the call of [api.post]. *)
Definition sendMessage (p : Props) (now : Z) (st : State)
  : State * list Effect :=
  match agent p with
  | Some a =>
      if negb (Js.truthy (Js.trim (inputMessage st))) || isLoading st
      then (st, [])
      else
        let userMsg :=
          {| id := IdOfTime now; content := Js.trim (inputMessage st);
             role := user; timestamp := now |} in
        (setInflight (fun q => q ++ [ {| turn_userMsg := userMsg; turn_agent := a |} ])
           (setIsLoading true
              (setInputMessage ""
                 (setMessages (fun prev => prev ++ [userMsg]) st))),
         [ApiPost "/api/v1/agent/invoke" (invokeRequest st a userMsg)])
  | None => (st, [])
  end.

Definition errorMsg (now : Z) : Message :=
  {| id := IdError; content := "⚠️ Error: Agent unavailable";
     role := assistant; timestamp := now |}.

(** [data?.success && data?.agent_response] *)
Definition replyOf (data : option AgentInvokeResponse) : option string :=
  match data with
  | Some d =>
      if success d then
        match agent_response d with
        | Some r => if Js.truthy r then Some r else None
        | None => None
        end
      else None
  | None => None
  end.

(** [data?.error || 'Agent failed to respond'] *)
Definition failureText (data : option AgentInvokeResponse) : string :=
  match data with
  | Some d => Js.or_else (default "" (error d)) "Agent failed to respond"
  | None => "Agent failed to respond"
  end.

(** [sendMessage] from the point where [api.post] settles: the rest of
    the [try], the [catch] and the [finally]. *)
Definition sendMessage_resume (now : Z)
    (posted : settle (option AgentInvokeResponse))
  : Exec.t State Effect unit :=
  try_catch_finally
    (let* data := await posted in
     match replyOf data with
     | Some r =>
         modify (setMessages (fun prev =>
           prev ++ [ {| id := IdOfTime (now + 1); content := r;
                        role := assistant; timestamp := now |} ]))
     | None => throw (Js.ErrorObj (failureText data))
     end)
    (fun err =>
       emit ConsoleError ;;
       emit (ToastError "Failed to get agent response") ;;
       modify (setMessages (fun prev => prev ++ [errorMsg now])))
    (modify (setIsLoading false)).

Definition toggleListen (st : State) : State * list Effect :=
  (setIsListening negb st,
   [ToastInfo (if isListening st then "Stopped listening" else "Started listening")]).

Definition toggleSpeak (st : State) : State * list Effect :=
  (setIsSpeaking negb st,
   [ToastInfo (if isSpeaking st then "Stopped speaking" else "Started speaking")]).

Definition copyMessage (text : string) (st : State) : State * list Effect :=
  (st, [ClipboardWrite text; ToastSuccess "Copied to clipboard"]).

(** The [disabled] attributes of the input and of the send button. *)
Definition inputDisabled (st : State) : bool := isLoading st.

Definition sendDisabled (st : State) : bool :=
  negb (Js.truthy (Js.trim (inputMessage st))) || isLoading st.

Inductive Event : Type :=
| Change (value : string)
| KeyDownEnter (now : Z)
| ClickSend (now : Z)
| InvokeSettled (i : nat) (now : Z) (r : Js.thrown + option AgentInvokeResponse)
| ClickListen
| ClickSpeak
| ClickCopy (text : string)
| PropsChanged (p' : Props) (now : Z).

Definition settled {A} (r : Js.thrown + A) : settle A :=
  match r with inl e => Rejected e | inr a => Fulfilled a end.

(** The props after an event: the parent may pass another agent or
    conversation. *)
Definition propsAfter (p : Props) (ev : Event) : Props :=
  match ev with
  | PropsChanged p' _ => p'
  | _ => p
  end.

Definition isPropsChanged (ev : Event) : bool :=
  match ev with
  | PropsChanged _ _ => true
  | _ => false
  end.

(** One event of the page under the props [p].  A disabled control
    dispatches nothing; the [i]-th waiting call resumes when its promise
    settles; changed props re-run the effect. *)
Definition step (p : Props) (st : State) (ev : Event) : State * list Effect :=
  match ev with
  | Change v => if inputDisabled st then (st, []) else (setInputMessage v st, [])
  | KeyDownEnter now => if inputDisabled st then (st, []) else sendMessage p now st
  | ClickSend now => if sendDisabled st then (st, []) else sendMessage p now st
  | InvokeSettled i now r =>
      match inflight st !! i with
      | Some _ =>
          match sendMessage_resume now (settled r) (setInflight (delete i) st) with
          | (_, st', effs) => (st', effs)
          end
      | None => (st, [])
      end
  | ClickListen => toggleListen st
  | ClickSpeak => toggleSpeak st
  | ClickCopy text => copyMessage text st
  | PropsChanged p' now => (welcomeEffect p' now st, [])
  end.

Fixpoint run (p : Props) (st : State) (evs : list Event) : State * list Effect :=
  match evs with
  | [] => (st, [])
  | ev :: evs' =>
      match step p st ev with
      | (st', effs) =>
          match run (propsAfter p ev) st' evs' with
          | (st'', effs') => (st'', effs ++ effs')
          end
      end
  end.

(** The state reached from mounting at [now] by the events [evs], and the
    effects performed on the way. *)
Definition reached (p : Props) (now : Z) (evs : list Event) : State :=
  (run p (mount p now) evs).1.

Definition performed (p : Props) (now : Z) (evs : list Event) : list Effect :=
  (run p (mount p now) evs).2.

(** The invariant of the page: a call waits for [api.post] exactly while
    [isLoading] is set, and no two calls wait. *)
Definition chatInv (st : State) : Prop :=
  length (inflight st) = if isLoading st then 1 else 0.

(** The user inputs that were posted to the agent, in posting order. *)
Definition posted (effs : list Effect) : list string :=
  omap (fun e => match e with ApiPost _ body => Some (user_input body) | _ => None end) effs.

(** The user messages of the conversation, in display order. *)
Definition userContents (st : State) : list string :=
  content <$> filter (fun m => role m = user) (messages st).

End ChatInterface.


(** ** ChatInterface (simulated flow)

    The component whose [handleSendMessage] answers from a list of canned
    responses after a timer.  Its effects name the two speech services of
    the platform, speech recognition and speech synthesis, which the voice
    and speaker buttons leave as TODO. *)

Module ChatInterfaceSimulated.
Import Exec Exec.Notations.

Inductive Role : Type := user | assistant.

#[global] Instance SimRole_eq_dec : EqDecision Role.
Proof. solve_decision. Defined.

(** Message ids: [Date.now().toString()], ['welcome'] or ['typing']. *)
Inductive MessageId : Type :=
| IdOfTime (ms : Z)
| IdWelcome
| IdTyping.

#[global] Instance SimMessageId_eq_dec : EqDecision MessageId.
Proof. solve_decision. Defined.

Record Message : Type := {
  id : MessageId;
  content : string;
  role : Role;
  timestamp : Z;
  isTyping : bool
}.

Record Agent : Type := {
  agent_id : string;
  name : string;
  shortDescription : string;
  elevenlabsVoiceId : string
}.

Record Props : Type := {
  agent : option Agent;
  conversationId : option string
}.

Inductive Effect : Type :=
| SetTimeout (ms : Z)
| ConsoleError
| ToastError (text : string)
| ToastInfo (text : string)
| ToastSuccess (text : string)
| ClipboardWrite (text : string)
| SpeechToText
| TextToSpeech (text : string).

(** The state cells and the [handleSendMessage] calls that wait for their
    timer. *)
Record State : Type := {
  messages : list Message;
  inputMessage : string;
  isLoading : bool;
  isListening : bool;
  isSpeaking : bool;
  timers : list Message
}.

Definition setMessages (f : list Message -> list Message) (st : State) : State :=
  {| messages := f (messages st); inputMessage := inputMessage st;
     isLoading := isLoading st; isListening := isListening st;
     isSpeaking := isSpeaking st; timers := timers st |}.

Definition setInputMessage (v : string) (st : State) : State :=
  {| messages := messages st; inputMessage := v;
     isLoading := isLoading st; isListening := isListening st;
     isSpeaking := isSpeaking st; timers := timers st |}.

Definition setIsLoading (b : bool) (st : State) : State :=
  {| messages := messages st; inputMessage := inputMessage st;
     isLoading := b; isListening := isListening st;
     isSpeaking := isSpeaking st; timers := timers st |}.

Definition setIsListening (b : bool) (st : State) : State :=
  {| messages := messages st; inputMessage := inputMessage st;
     isLoading := isLoading st; isListening := b;
     isSpeaking := isSpeaking st; timers := timers st |}.

Definition setIsSpeaking (b : bool) (st : State) : State :=
  {| messages := messages st; inputMessage := inputMessage st;
     isLoading := isLoading st; isListening := isListening st;
     isSpeaking := b; timers := timers st |}.

Definition setTimers (f : list Message -> list Message) (st : State) : State :=
  {| messages := messages st; inputMessage := inputMessage st;
     isLoading := isLoading st; isListening := isListening st;
     isSpeaking := isSpeaking st; timers := f (timers st) |}.

(** The effect on [agent] and [conversationId]: a new conversation with
    an agent starts from the welcome message. *)
Definition welcomeEffect (p : Props) (now : Z) (st : State) : State :=
  match agent p, conversationId p with
  | Some a, None
  | Some a, Some EmptyString =>
      setMessages (fun _ =>
        [ {| id := IdWelcome;
             content := "Hello! I'm " +:+ name a +:+ ". " +:+ shortDescription a
                          +:+ " How can I help you today?";
             role := assistant; timestamp := now; isTyping := false |} ]) st
  | _, _ => st
  end.

Definition mount (p : Props) (now : Z) : State :=
  welcomeEffect p now
    {| messages := [];
       inputMessage := "";
       isLoading := false;
       isListening := false;
       isSpeaking := false;
       timers := [] |}.

Definition responses : list string :=
  [ "Listen, that's actually a really interesting question. Let me break this down for you with some real science...";
    "*burp* Oh great, another one who thinks they understand the universe. Let me explain why you're wrong...";
    "You know what? That's not completely stupid. Here's what you need to understand about quantum mechanics...";
    "Wubba lubba dub dub! But seriously, your question touches on some fundamental principles of...";
    "Look, I've been to 47 different dimensions, and in every single one, the answer is..." ].

(** [Math.floor(Math.random() * responses.length)] on the value [rnd]
    that [Math.random] returned: the binary64 product, then its floor. *)
Definition randomIndex (rnd : spec_float) : option Z :=
  Js.floor (Js.mul rnd (Js.ofZ (Z.of_nat (length responses)))).

(** [responses[i]]; outside the list, and for an index that is not a
    number, the read is [undefined], shown as the empty text. *)
Definition responseAt (i : option Z) : string :=
  match i with
  | Some z => if (0 <=? z)%Z then default "" (responses !! Z.to_nat z) else ""
  | None => ""
  end.

Definition typingMessage (now : Z) : Message :=
  {| id := IdTyping; content := ""; role := assistant; timestamp := now;
     isTyping := true |}.

Definition notTyping (prev : list Message) : list Message :=
  filter (fun m => id m <> IdTyping) prev.

(** [handleSendMessage] up to its [await]. *)
Definition handleSendMessage (p : Props) (now : Z) (st : State)
  : State * list Effect :=
  match agent p with
  | Some a =>
      if negb (Js.truthy (Js.trim (inputMessage st))) || isLoading st
      then (st, [])
      else
        let userMessage :=
          {| id := IdOfTime now; content := Js.trim (inputMessage st);
             role := user; timestamp := now; isTyping := false |} in
        (setTimers (fun q => q ++ [userMessage])
           (setMessages (fun prev => prev ++ [typingMessage now])
              (setIsLoading true
                 (setInputMessage ""
                    (setMessages (fun prev => prev ++ [userMessage]) st)))),
         [SetTimeout 1500])
  | None => (st, [])
  end.

(** [handleSendMessage] from the point where the timer fires. *)
Definition handleSendMessage_resume (now : Z) (rnd : spec_float)
  : Exec.t State Effect unit :=
  try_catch_finally
    (await (Fulfilled tt) ;;
     let assistantMessage :=
       {| id := IdOfTime (now + 1); content := responseAt (randomIndex rnd);
          role := assistant; timestamp := now; isTyping := false |} in
     modify (setMessages (fun prev => notTyping prev ++ [assistantMessage])))
    (fun err =>
       emit ConsoleError ;;
       emit (ToastError "Failed to send message") ;;
       modify (setMessages notTyping))
    (modify (setIsLoading false)).

Definition handleVoiceToggle (st : State) : State * list Effect :=
  (setIsListening (negb (isListening st)) st,
   [ToastInfo (if isListening st then "Stopped listening" else "Started listening")]).

Definition handleSpeakToggle (st : State) : State * list Effect :=
  (setIsSpeaking (negb (isSpeaking st)) st,
   [ToastInfo (if isSpeaking st then "Stopped speaking" else "Started speaking")]).

Definition copyMessage (text : string) (st : State) : State * list Effect :=
  (st, [ClipboardWrite text; ToastSuccess "Message copied to clipboard"]).

Definition inputDisabled (st : State) : bool := isLoading st.

Definition sendDisabled (st : State) : bool :=
  negb (Js.truthy (Js.trim (inputMessage st))) || isLoading st.

Inductive Event : Type :=
| Change (value : string)
| KeyPressEnter (now : Z)
| ClickSend (now : Z)
| TimerFired (i : nat) (now : Z) (rnd : spec_float)
| ClickVoice
| ClickSpeak
| ClickCopy (text : string)
| PropsChanged (p' : Props) (now : Z).

Definition propsAfter (p : Props) (ev : Event) : Props :=
  match ev with
  | PropsChanged p' _ => p'
  | _ => p
  end.

(** One event of the page under the props [p]. *)
Definition step (p : Props) (st : State) (ev : Event) : State * list Effect :=
  match ev with
  | Change v => if inputDisabled st then (st, []) else (setInputMessage v st, [])
  | KeyPressEnter now => if inputDisabled st then (st, []) else handleSendMessage p now st
  | ClickSend now => if sendDisabled st then (st, []) else handleSendMessage p now st
  | TimerFired i now rnd =>
      match timers st !! i with
      | Some _ =>
          match handleSendMessage_resume now rnd (setTimers (delete i) st) with
          | (_, st', effs) => (st', effs)
          end
      | None => (st, [])
      end
  | ClickVoice => handleVoiceToggle st
  | ClickSpeak => handleSpeakToggle st
  | ClickCopy text => copyMessage text st
  | PropsChanged p' now => (welcomeEffect p' now st, [])
  end.

Fixpoint run (p : Props) (st : State) (evs : list Event) : State * list Effect :=
  match evs with
  | [] => (st, [])
  | ev :: evs' =>
      match step p st ev with
      | (st', effs) =>
          match run (propsAfter p ev) st' evs' with
          | (st'', effs') => (st'', effs ++ effs')
          end
      end
  end.

(** The state reached from mounting at [now] by the events [evs], and the
    effects performed on the way. *)
Definition reached (p : Props) (now : Z) (evs : list Event) : State :=
  (run p (mount p now) evs).1.

Definition performed (p : Props) (now : Z) (evs : list Event) : list Effect :=
  (run p (mount p now) evs).2.

(** The invariant of the page: a call waits for its timer exactly while
    [isLoading] is set, and no two calls wait. *)
Definition chatInv (st : State) : Prop :=
  length (timers st) = if isLoading st then 1 else 0.

(** An effect that reaches a speech service. *)
Definition isSpeechService (e : Effect) : bool :=
  match e with
  | SpeechToText | TextToSpeech _ => true
  | _ => false
  end.

End ChatInterfaceSimulated.


(** ** VoiceChatPage: joining a room

    [useLiveKit] supplies [room], [connect] and [disconnect]; the provider
    is outside this development, so what its promises settle to is an
    argument of the handler. *)

Module VoiceChatPage.
Import Exec Exec.Notations.

Record State : Type := {
  roomName : string;
  participantName : string;
  isAudioEnabled : bool;
  isConnecting : bool;
  connectionError : option string
}.

Definition setIsConnecting (b : bool) (st : State) : State :=
  {| roomName := roomName st; participantName := participantName st;
     isAudioEnabled := isAudioEnabled st; isConnecting := b;
     connectionError := connectionError st |}.

Definition setConnectionError (e : option string) (st : State) : State :=
  {| roomName := roomName st; participantName := participantName st;
     isAudioEnabled := isAudioEnabled st; isConnecting := isConnecting st;
     connectionError := e |}.

Definition setIsAudioEnabled (b : bool) (st : State) : State :=
  {| roomName := roomName st; participantName := participantName st;
     isAudioEnabled := b; isConnecting := isConnecting st;
     connectionError := connectionError st |}.

(** The JSON body of the token endpoint. *)
Record TokenData : Type := {
  success : bool;
  detail : option string;
  url : string;
  token : string
}.

Inductive Effect : Type :=
| FetchToken (room identity : string)
| Connect (url token : string)
| SetMicrophoneEnabled (enabled : bool)
| Disconnect
| ConsoleError.

(** What the three awaited promises of [handleConnect] settle to: the
    token request with its [json()], [connect], and
    [setMicrophoneEnabled]. *)
Record Awaited : Type := {
  fetched : settle TokenData;
  joined : settle unit;
  microphone : settle unit
}.

(** [handleConnect]; [room] tells whether the [room] the handler closed
    over is non-null. *)
Definition handleConnect (room : bool) (w : Awaited) : Exec.t State Effect unit :=
  try_catch_finally
    (modify (setIsConnecting true) ;;
     modify (setConnectionError None) ;;
     let* st := get in
     emit (FetchToken (roomName st) (participantName st)) ;;
     let* tokenData := await (fetched w) in
     if negb (success tokenData)
     then throw (Js.ErrorObj (Js.or_else (default "" (detail tokenData)) "Failed to get token"))
     else
       emit (Connect (url tokenData) (token tokenData)) ;;
       await (joined w) ;;
       if room
       then emit (SetMicrophoneEnabled (isAudioEnabled st)) ;; await (microphone w)
       else ret tt)
    (fun err =>
       let message :=
         if Js.instanceofError err then Js.message err else "Connection failed" in
       modify (setConnectionError (Some message)) ;;
       emit ConsoleError)
    (modify (setIsConnecting false)).

Definition handleDisconnect : Exec.t State Effect unit :=
  emit Disconnect ;;
  modify (setConnectionError None).

Definition toggleAudio (room : bool) (set : settle unit) : Exec.t State Effect unit :=
  if room then
    let* st := get in
    let newState := negb (isAudioEnabled st) in
    emit (SetMicrophoneEnabled newState) ;;
    await set ;;
    modify (setIsAudioEnabled newState)
  else ret tt.

(** The connect button is disabled while connecting or when a name is
    empty. *)
Definition connectDisabled (st : State) : bool :=
  isConnecting st || negb (Js.truthy (roomName st))
  || negb (Js.truthy (participantName st)).

Definition isConnect (e : Effect) : bool :=
  match e with Connect _ _ => true | _ => false end.

Definition isMicrophone (e : Effect) : bool :=
  match e with SetMicrophoneEnabled _ => true | _ => false end.

End VoiceChatPage.


(** ** MCPCatalog: the connector list *)

Module MCPCatalog.
Import Exec Exec.Notations.

Record Capabilities : Type := {
  actions : list string;
  tools : list string
}.

Record Health : Type := {
  health_success : bool;
  health_status : string;
  latency_ms : option Z;
  health_error : option string
}.

(** [status] is typed ['enabled' | 'disabled' | 'degraded' |
    'unconfigured'] but arrives as JSON, so it is any string here. *)
Record MCPConnector : Type := {
  id : string;
  name : string;
  version : string;
  description : option string;
  status : string;
  configured : bool;
  required_config : list string;
  capabilities : Capabilities;
  last_health : option Health
}.

Record MCPRegistryItem : Type := {
  item_id : string;
  item_name : string;
  item_version : string;
  item_description : option string;
  item_required_config : list string;
  item_capabilities : Capabilities
}.

Record ConnectorsListResponse : Type := {
  success : bool;
  connectors : list MCPConnector
}.

Record RegistryListResponse : Type := {
  registry_success : bool;
  registry : list MCPRegistryItem
}.

Record State : Type := {
  st_connectors : list MCPConnector;
  st_registry : list MCPRegistryItem;
  selectedConnector : option MCPConnector;
  error : option string
}.

Definition setConnectors (f : list MCPConnector -> list MCPConnector)
    (st : State) : State :=
  {| st_connectors := f (st_connectors st); st_registry := st_registry st;
     selectedConnector := selectedConnector st; error := error st |}.

Definition setRegistry (r : list MCPRegistryItem) (st : State) : State :=
  {| st_connectors := st_connectors st; st_registry := r;
     selectedConnector := selectedConnector st; error := error st |}.

Definition setSelectedConnector (c : option MCPConnector) (st : State) : State :=
  {| st_connectors := st_connectors st; st_registry := st_registry st;
     selectedConnector := c; error := error st |}.

Definition setError (e : option string) (st : State) : State :=
  {| st_connectors := st_connectors st; st_registry := st_registry st;
     selectedConnector := selectedConnector st; error := e |}.

Inductive Effect : Type :=
| FetchCatalog
| FetchRegistry.

(** The own properties of the object literal [{ enabled: 0, degraded: 1,
    disabled: 2, unconfigured: 3 }]; it is read with [Js.get], which
    goes on to [Object.prototype]. *)
Definition statusOrder : gmap string Z :=
  list_to_map
    [("enabled", 0%Z); ("degraded", 1%Z); ("disabled", 2%Z); ("unconfigured", 3%Z)].

(** [statusOrder[c.status] ?? 4]: 4 stands in for [undefined] only; a
    status that names an inherited property reads that property. *)
Definition orderOf (c : MCPConnector) : Js.value Z :=
  default (Js.Val 4%Z) (Js.get statusOrder (status c)).

(** The priority of a status by the own keys of the table, 4 for every
    other status: the number [orderOf] gives unless the status names an
    inherited property. *)
Definition priority (c : MCPConnector) : Z := default 4%Z (statusOrder !! status c).

Section Sorting.
(** [String.prototype.localeCompare] follows the collation of the host
    locale; only its sign matters to the sort. *)
Variable localeCompare : string -> string -> Z.

(** The comparator passed to [sort]. *)
Definition compareConnectors (a b : MCPConnector) : Js.compared :=
  let aOrder := orderOf a in
  let bOrder := orderOf b in
  if decide (aOrder <> bOrder) then Js.minus aOrder bOrder
  else Js.Order (localeCompare (name a) (name b)).

(** [connectors.sort(compareConnectors)].  When a status names an
    inherited property the comparator answers [NaN] against every other
    status; on three connectors or more it may then fail to be
    consistent, and the order of such a list is left to the engine. *)
Definition sortedConnectors (l : list MCPConnector) : list MCPConnector :=
  Js.sort (fun a b => Js.sortOrder (compareConnectors a b)) l.

(** [loadData]: both requests are awaited together; the catalog is shown
    sorted when its response reports success. *)
Definition loadData (catalog : settle ConnectorsListResponse)
    (reg : settle RegistryListResponse) (secondFirst : bool)
  : Exec.t State Effect unit :=
  try_catch
    (modify (setError None) ;;
     emit FetchCatalog ;;
     emit FetchRegistry ;;
     let* both := await (promiseAll catalog reg secondFirst) in
     let catalogResponse := fst both in
     let registryResponse := snd both in
     (if success catalogResponse
      then modify (setConnectors (fun _ => sortedConnectors (connectors catalogResponse)))
      else ret tt) ;;
     (if registry_success registryResponse
      then modify (setRegistry (registry registryResponse))
      else ret tt))
    (fun err =>
       modify (setError (Some (if Js.instanceofError err then Js.message err
                               else "Failed to load MCP data")))).

(** Connector [a] may stand before connector [b] in the displayed list:
    lower status priority first, and by name within one priority. *)
Definition precedes (a b : MCPConnector) : Prop :=
  (priority a < priority b)%Z \/
  (priority a = priority b /\ (localeCompare (name a) (name b) <= 0)%Z).

End Sorting.

Definition handleConnectorSelect (connector : MCPConnector) (st : State) : State :=
  setSelectedConnector (Some connector) st.

Definition handleConnectorSave (updatedConnector : MCPConnector) (st : State) : State :=
  setSelectedConnector (Some updatedConnector)
    (setConnectors
       (map (fun c => if decide (id c = id updatedConnector) then updatedConnector else c))
       st).

Definition handleConnectorDelete (connectorId : string) (st : State) : State :=
  setSelectedConnector None
    (setConnectors (filter (fun c => id c <> connectorId)) st).

(** Comparison by character codes, a collation to run the sort with. *)
Definition codeUnitCompare (a b : string) : Z :=
  match String.compare a b with
  | Lt => (-1)%Z
  | Eq => 0%Z
  | Gt => 1%Z
  end.

End MCPCatalog.


(** ** JSON.parse

    A recursive-descent reader of the JSON grammar.  A number is kept as
    its lexeme and a string as the characters written between its quotes;
    [parse] returns [None] where [JSON.parse] throws a [SyntaxError]. *)

Module JSON.

#[warnings="-register-all"]
Inductive value : Type :=
| Null
| Bool (b : bool)
| Number (lexeme : string)
| Str (chars : string)
| Array (items : list value)
| Object (members : list (string * value)).

Definition isWs (c : Ascii.ascii) : bool :=
  match c with
  | " " | "009" | "010" | "013" => true
  | _ => false
  end%char.

Fixpoint skipWs (s : string) : string :=
  match s with
  | String c r => if isWs c then skipWs r else s
  | EmptyString => EmptyString
  end.

Definition isDigit (c : Ascii.ascii) : bool :=
  let n := Ascii.nat_of_ascii c in (48 <=? n)%nat && (n <=? 57)%nat.

Definition isHex (c : Ascii.ascii) : bool :=
  let n := Ascii.nat_of_ascii c in
  isDigit c || ((65 <=? n)%nat && (n <=? 70)%nat) || ((97 <=? n)%nat && (n <=? 102)%nat).

(** The double quote. *)
Definition quote : Ascii.ascii := Ascii.ascii_of_nat 34.

Definition isEscape (c : Ascii.ascii) : bool :=
  Ascii.eqb c quote ||
  match c with
  | "\" | "/" | "b" | "f" | "n" | "r" | "t" => true
  | _ => false
  end%char.

Definition cons1 (c : Ascii.ascii) (p : string * string) : string * string :=
  (String c (fst p), snd p).

(** The characters of a string literal after its opening quote, and what
    follows the closing quote. *)
Fixpoint stringBody (s : string) : option (string * string) :=
  match s with
  | EmptyString => None
  | String c r =>
      if Ascii.eqb c quote then Some (EmptyString, r)
      else if Ascii.eqb c "\"%char then
        match r with
        | String e r' =>
            if isEscape e then cons1 c <$> (cons1 e <$> stringBody r')
            else if Ascii.eqb e "u"%char then
              match r' with
              | String h1 (String h2 (String h3 (String h4 r''))) =>
                  if isHex h1 && isHex h2 && isHex h3 && isHex h4
                  then cons1 c <$> (cons1 e <$> (cons1 h1 <$> (cons1 h2 <$>
                         (cons1 h3 <$> (cons1 h4 <$> stringBody r'')))))
                  else None
              | _ => None
              end
            else None
        | EmptyString => None
        end
      else if (Ascii.nat_of_ascii c <? 32)%nat then None
      else cons1 c <$> stringBody r
  end.

(** The longest run of digits at the head of [s], and the rest. *)
Fixpoint digits (s : string) : string * string :=
  match s with
  | String c r => if isDigit c then cons1 c (digits r) else (EmptyString, s)
  | EmptyString => (EmptyString, EmptyString)
  end.

(** At least one digit. *)
Definition digits1 (s : string) : option (string * string) :=
  match digits s with
  | (EmptyString, _) => None
  | p => Some p
  end.

(** [int]: a lone zero, or a non-zero digit and more digits. *)
Definition intPart (s : string) : option (string * string) :=
  match s with
  | String c r =>
      if Ascii.eqb c "0"%char then Some (String c EmptyString, r)
      else if isDigit c then Some (cons1 c (digits r))
      else None
  | EmptyString => None
  end.

Definition fracPart (s : string) : option (string * string) :=
  match s with
  | String "."%char r => cons1 "."%char <$> digits1 r
  | _ => Some (EmptyString, s)
  end.

Definition expPart (s : string) : option (string * string) :=
  match s with
  | String c r =>
      if Ascii.eqb c "e"%char || Ascii.eqb c "E"%char then
        match r with
        | String g r' =>
            if Ascii.eqb g "+"%char || Ascii.eqb g "-"%char
            then cons1 c <$> (cons1 g <$> digits1 r')
            else cons1 c <$> digits1 r
        | EmptyString => None
        end
      else Some (EmptyString, s)
  | EmptyString => Some (EmptyString, s)
  end.

Definition number (s : string) : option (string * string) :=
  let signed :=
    match s with
    | String "-"%char r => ("-", r)
    | _ => (EmptyString, s)
    end in
  '(i, r1) ← intPart (snd signed);
  '(f, r2) ← fracPart r1;
  '(e, r3) ← expPart r2;
  Some (fst signed +:+ i +:+ f +:+ e, r3).

(** [s] starts with the word [w]: what follows it. *)
Fixpoint word (w s : string) : option string :=
  match w, s with
  | EmptyString, _ => Some s
  | String a w', String b s' => if Ascii.eqb a b then word w' s' else None
  | String _ _, EmptyString => None
  end.

Fixpoint parseValue (fuel : nat) (s : string) : option (value * string) :=
  match fuel with
  | O => None
  | S fuel' =>
      match skipWs s with
      | EmptyString => None
      | String c r =>
          if Ascii.eqb c "{"%char then
            match skipWs r with
            | String "}"%char r' => Some (Object [], r')
            | r1 => '(ms, r') ← parseMembers fuel' r1; Some (Object ms, r')
            end
          else if Ascii.eqb c "["%char then
            match skipWs r with
            | String "]"%char r' => Some (Array [], r')
            | r1 => '(vs, r') ← parseElements fuel' r1; Some (Array vs, r')
            end
          else if Ascii.eqb c quote then
            '(chars, r') ← stringBody r; Some (Str chars, r')
          else if Ascii.eqb c "t"%char then
            r' ← word "true" (String c r); Some (Bool true, r')
          else if Ascii.eqb c "f"%char then
            r' ← word "false" (String c r); Some (Bool false, r')
          else if Ascii.eqb c "n"%char then
            r' ← word "null" (String c r); Some (Null, r')
          else
            '(lexeme, r') ← number (String c r); Some (Number lexeme, r')
      end
  end
with parseElements (fuel : nat) (s : string) : option (list value * string) :=
  match fuel with
  | O => None
  | S fuel' =>
      '(v, r) ← parseValue fuel' s;
      match skipWs r with
      | String ","%char r' =>
          '(vs, r'') ← parseElements fuel' r'; Some (v :: vs, r'')
      | String "]"%char r' => Some ([v], r')
      | _ => None
      end
  end
with parseMembers (fuel : nat) (s : string)
  : option (list (string * value) * string) :=
  match fuel with
  | O => None
  | S fuel' =>
      match skipWs s with
      | String c r0 =>
          if Ascii.eqb c quote then
            '(key, r1) ← stringBody r0;
            match skipWs r1 with
            | String ":"%char r2 =>
                '(v, r3) ← parseValue fuel' r2;
                match skipWs r3 with
                | String ","%char r4 =>
                    '(ms, r5) ← parseMembers fuel' r4; Some ((key, v) :: ms, r5)
                | String "}"%char r4 => Some ([(key, v)], r4)
                | _ => None
                end
            | _ => None
            end
          else None
      | EmptyString => None
      end
  end.

(** [JSON.parse(text)] *)
Definition parse (text : string) : option value :=
  '(v, r) ← parseValue (2 * String.length text + 2) text;
  match skipWs r with
  | EmptyString => Some v
  | _ => None
  end.

End JSON.


(** ** MCPTestPanel and the useMCP hook *)

Module MCPTestPanel.
Import Exec Exec.Notations.

Record TestResult : Type := {
  success : bool;
  connector_id : string;
  action : string;
  result : option JSON.value;
  result_error : option string;
  execution_time_ms : option Z
}.

(** The state cells of the panel and, from [useMCP], [loading] and the
    hook's own [error]. *)
Record State : Type := {
  selectedAction : string;
  testParams : string;
  testResult : option TestResult;
  error : option string;
  loading : bool;
  hookError : option string
}.

Definition setTestResult (r : option TestResult) (st : State) : State :=
  {| selectedAction := selectedAction st; testParams := testParams st;
     testResult := r; error := error st; loading := loading st;
     hookError := hookError st |}.

Definition setError (e : option string) (st : State) : State :=
  {| selectedAction := selectedAction st; testParams := testParams st;
     testResult := testResult st; error := e; loading := loading st;
     hookError := hookError st |}.

Definition setLoading (b : bool) (st : State) : State :=
  {| selectedAction := selectedAction st; testParams := testParams st;
     testResult := testResult st; error := error st; loading := b;
     hookError := hookError st |}.

Definition setHookError (e : option string) (st : State) : State :=
  {| selectedAction := selectedAction st; testParams := testParams st;
     testResult := testResult st; error := error st; loading := loading st;
     hookError := e |}.

Definition mount : State :=
  {| selectedAction := ""; testParams := "{}"; testResult := None;
     error := None; loading := false; hookError := None |}.

(** The [fetch] response of the test endpoint: [ok], [status] and what
    [json()] settles to. *)
Record Response : Type := {
  ok : bool;
  status : Z;
  json : settle TestResult
}.

Inductive Effect : Type :=
| TestAction (id action : string) (params : JSON.value).

(** [handleApiCall] of the hook, on the response [apiCall] settles to. *)
Definition handleApiCall (apiCall : settle Response) : Exec.t State Effect TestResult :=
  finally
    (modify (setLoading true) ;;
     modify (setHookError None) ;;
     try_catch
       (let* response := await apiCall in
        if negb (ok response)
        then throw (Js.ErrorObj ("HTTP error! status: " +:+ pretty (status response)))
        else await (json response))
       (fun err =>
          modify (setHookError
                    (Some (if Js.instanceofError err then Js.message err
                           else "An unknown error occurred"))) ;;
          throw err))
    (modify (setLoading false)).

(** [testAction(id, action, params)]: the POST is recorded as an effect
    and [handleApiCall] handles its response. *)
Definition testAction (id action : string) (params : JSON.value)
    (apiCall : settle Response) : Exec.t State Effect TestResult :=
  emit (TestAction id action params) ;;
  handleApiCall apiCall.

(** [handleTest] for the connector [connectorId]. *)
Definition handleTest (connectorId : string) (apiCall : settle Response)
  : Exec.t State Effect unit :=
  let* st := get in
  if negb (Js.truthy (selectedAction st))
  then modify (setError (Some "Please select an action to test"))
  else
    modify (setError None) ;;
    modify (setTestResult None) ;;
    try_catch
      (let* params :=
         (if Js.truthy (Js.trim (testParams st))
          then match JSON.parse (testParams st) with
               | Some v => ret v
               | None => throw (Js.SyntaxErrorObj "Unexpected token")
               end
          else ret (JSON.Object [])) in
       let* r := testAction connectorId (selectedAction st) params apiCall in
       modify (setTestResult (Some r)))
      (fun err =>
         if Js.instanceofSyntaxError err
         then modify (setError (Some "Invalid JSON in test parameters"))
         else modify (setError (Some (if Js.instanceofError err then Js.message err
                                      else "Test failed")))).

(** The run button is disabled while loading or without an action. *)
Definition runDisabled (st : State) : bool :=
  loading st || negb (Js.truthy (selectedAction st)).

End MCPTestPanel.


(** ** Session Supervisor: capability health and degradation

    The supervisor of the specification (sections 4.1 and 4.3) has no
    source in the front end; every definition of this module follows the
    specification's text. *)

Module Supervisor.

(** Modelled from the spec: the capabilities that carry a
    CapabilityStatus, "per-capability (STT, TTS, vision, telephony)". *)
Inductive Capability : Type := STT | TTS | Vision | Telephony.

#[global] Instance Capability_eq_dec : EqDecision Capability.
Proof. solve_decision. Defined.

(** Modelled from the spec: CapabilityStatus, "consecutive-failure count,
    last-failure timestamp, enabled flag". *)
Record CapabilityStatus : Type := {
  failures : nat;
  lastFailure : option Z;
  enabled : bool
}.

(** Modelled from the spec: the two variants of VoiceOnly in rule 2 of
    section 4.3. *)
Inductive Variant : Type := TTSDisabled | STTDisabled.

(** Modelled from the spec: DegradationLevel, "None | VoiceOnly(variant) |
    Minimal"; [NoDegradation] is the level the specification calls None. *)
Inductive DegradationLevel : Type :=
| NoDegradation
| VoiceOnly (v : Variant)
| Minimal.

(** Modelled from the spec: the order None < VoiceOnly < Minimal. *)
Definition rank (l : DegradationLevel) : nat :=
  match l with
  | NoDegradation => 0
  | VoiceOnly _ => 1
  | Minimal => 2
  end.

(** Modelled from the spec: the supervisor's part of a Session that the
    degradation policy reads and writes. *)
Record Session : Type := {
  status : Capability -> CapabilityStatus;
  level : DegradationLevel
}.

(** Modelled from the spec: rules 1 to 3 of section 4.3, which decide the
    level from the STT and TTS flags. *)
Definition computeLevel (status : Capability -> CapabilityStatus) : DegradationLevel :=
  match enabled (status STT), enabled (status TTS) with
  | false, false => Minimal
  | true, false => VoiceOnly TTSDisabled
  | false, true => VoiceOnly STTDisabled
  | true, true => NoDegradation
  end.

(** Modelled from the spec: a Session after [start], every capability
    enabled with no failure recorded. *)
Definition start : Session :=
  {| status := fun _ => {| failures := 0; lastFailure := None; enabled := true |};
     level := NoDegradation |}.

(** Modelled from the spec: reportCapabilityFailure, "increments failure
    count; if consecutive failures exceed a threshold (policy constant,
    default 3), disables that capability and recomputes DegradationLevel";
    by scenario C the third consecutive failure disables. *)
Definition reportCapabilityFailure (threshold : nat) (c : Capability) (now : Z)
    (s : Session) : Session :=
  let old := status s c in
  let n := S (failures old) in
  let new :=
    {| failures := n; lastFailure := Some now;
       enabled := if (threshold <=? n)%nat then false else enabled old |} in
  let status' := fun c' => if decide (c' = c) then new else status s c' in
  {| status := status'; level := computeLevel status' |}.

(** Modelled from the spec: recheckCapability, "on success resets the
    failure count and re-enables the capability, recomputing
    DegradationLevel"; a failed check changes nothing. *)
Definition recheckCapability (c : Capability) (healthy : bool) (s : Session)
  : Session :=
  if healthy then
    let new :=
      {| failures := 0; lastFailure := lastFailure (status s c); enabled := true |} in
    let status' := fun c' => if decide (c' = c) then new else status s c' in
    {| status := status'; level := computeLevel status' |}
  else s.

(** Modelled from the spec: the operations that touch CapabilityStatus
    and DegradationLevel. *)
Inductive Op : Type :=
| ReportFailure (c : Capability) (now : Z)
| Recheck (c : Capability) (healthy : bool).

(** Modelled from the spec: one operation of the supervisor. *)
Definition apply (threshold : nat) (s : Session) (op : Op) : Session :=
  match op with
  | ReportFailure c now => reportCapabilityFailure threshold c now s
  | Recheck c healthy => recheckCapability c healthy s
  end.

(** Modelled from the spec: a sequence of operations from [start]. *)
Definition after (threshold : nat) (ops : list Op) : Session :=
  fold_left (apply threshold) ops start.

(** Modelled from the spec: the default failure threshold. *)
Definition defaultThreshold : nat := 3.

End Supervisor.


(** ** Sample data for running the handlers *)

Module Samples.

Definition agent : ChatInterface.Agent :=
  {| ChatInterface.agent_id := "rick"; ChatInterface.name := "Rick";
     ChatInterface.shortDescription := "A scientist.";
     ChatInterface.avatar := None; ChatInterface.elevenlabsVoiceId := None |}.

Definition props : ChatInterface.Props :=
  {| ChatInterface.agent := Some agent; ChatInterface.conversationId := None |}.

(** A successful response of the agent endpoint. *)
Definition replied (text : string)
  : Js.thrown + option ChatInterface.AgentInvokeResponse :=
  inr (Some {| ChatInterface.success := true;
               ChatInterface.agent_response := Some text;
               ChatInterface.error := None |}).

(** The page while the turn of the message "first" is in flight. *)
Definition firstInFlight : ChatInterface.State :=
  (ChatInterface.run props (ChatInterface.mount props 0)
     [ChatInterface.Change "first"; ChatInterface.ClickSend 1]).1.

(** Three messages submitted in a row, and the response to the first. *)
Definition threeSubmissions : list ChatInterface.Event :=
  [ChatInterface.Change "first"; ChatInterface.ClickSend 1;
   ChatInterface.Change "second"; ChatInterface.KeyDownEnter 2;
   ChatInterface.Change "third"; ChatInterface.ClickSend 3;
   ChatInterface.InvokeSettled 0 4 (replied "reply")].

Definition simAgent : ChatInterfaceSimulated.Agent :=
  {| ChatInterfaceSimulated.agent_id := "rick";
     ChatInterfaceSimulated.name := "Rick";
     ChatInterfaceSimulated.shortDescription := "A scientist.";
     ChatInterfaceSimulated.elevenlabsVoiceId := "voice-1" |}.

Definition simProps : ChatInterfaceSimulated.Props :=
  {| ChatInterfaceSimulated.agent := Some simAgent;
     ChatInterfaceSimulated.conversationId := None |}.

(** The simulated page with the text "hello" typed in. *)
Definition simTyped : ChatInterfaceSimulated.State :=
  ChatInterfaceSimulated.setInputMessage "hello"
    (ChatInterfaceSimulated.mount simProps 0).

(** The voice page before connecting. *)
Definition page : VoiceChatPage.State :=
  {| VoiceChatPage.roomName := "voice-chat-1";
     VoiceChatPage.participantName := "User-k3x9qa";
     VoiceChatPage.isAudioEnabled := true;
     VoiceChatPage.isConnecting := false;
     VoiceChatPage.connectionError := None |}.

(** The token endpoint refuses; the provider would accept a join. *)
Definition tokenDenied : VoiceChatPage.Awaited :=
  {| VoiceChatPage.fetched :=
       Exec.Fulfilled {| VoiceChatPage.success := false;
                         VoiceChatPage.detail := Some "LiveKit not configured";
                         VoiceChatPage.url := ""; VoiceChatPage.token := "" |};
     VoiceChatPage.joined := Exec.Fulfilled tt;
     VoiceChatPage.microphone := Exec.Fulfilled tt |}.

(** The token is granted and the join is rejected. *)
Definition joinRejected : VoiceChatPage.Awaited :=
  {| VoiceChatPage.fetched :=
       Exec.Fulfilled {| VoiceChatPage.success := true;
                         VoiceChatPage.detail := None;
                         VoiceChatPage.url := "wss://livekit.example";
                         VoiceChatPage.token := "jwt" |};
     VoiceChatPage.joined := Exec.Rejected (Js.ErrorObj "could not establish signal connection");
     VoiceChatPage.microphone := Exec.Fulfilled tt |}.

(** The test panel with an action selected and a blank parameter text. *)
Definition blankParams : MCPTestPanel.State :=
  {| MCPTestPanel.selectedAction := "web_search";
     MCPTestPanel.testParams := " ";
     MCPTestPanel.testResult := None;
     MCPTestPanel.error := None;
     MCPTestPanel.loading := false;
     MCPTestPanel.hookError := None |}.

(** The test panel with an earlier result shown and a broken parameter
    text. *)
Definition brokenParams : MCPTestPanel.State :=
  {| MCPTestPanel.selectedAction := "web_search";
     MCPTestPanel.testParams := "{query: 1}";
     MCPTestPanel.testResult :=
       Some {| MCPTestPanel.success := true;
               MCPTestPanel.connector_id := "search";
               MCPTestPanel.action := "web_search";
               MCPTestPanel.result := Some JSON.Null;
               MCPTestPanel.result_error := None;
               MCPTestPanel.execution_time_ms := Some 12%Z |};
     MCPTestPanel.error := None;
     MCPTestPanel.loading := false;
     MCPTestPanel.hookError := None |}.

(** A response of the test endpoint. *)
Definition testResponse : MCPTestPanel.Response :=
  {| MCPTestPanel.ok := true; MCPTestPanel.status := 200%Z;
     MCPTestPanel.json :=
       Exec.Fulfilled {| MCPTestPanel.success := true;
                         MCPTestPanel.connector_id := "search";
                         MCPTestPanel.action := "web_search";
                         MCPTestPanel.result := None;
                         MCPTestPanel.result_error := None;
                         MCPTestPanel.execution_time_ms := None |} |}.

Definition connector (name status : string) : MCPCatalog.MCPConnector :=
  {| MCPCatalog.id := name; MCPCatalog.name := name; MCPCatalog.version := "1.0";
     MCPCatalog.description := None; MCPCatalog.status := status;
     MCPCatalog.configured := true; MCPCatalog.required_config := [];
     MCPCatalog.capabilities := {| MCPCatalog.actions := []; MCPCatalog.tools := [] |};
     MCPCatalog.last_health := None |}.

Definition catalog : MCPCatalog.ConnectorsListResponse :=
  {| MCPCatalog.success := true;
     MCPCatalog.connectors :=
       [connector "slack" "unconfigured"; connector "web" "enabled";
        connector "files" "paused"; connector "github" "enabled";
        connector "mail" "degraded"; connector "db" "disabled"] |}.

Definition registryList : MCPCatalog.RegistryListResponse :=
  {| MCPCatalog.registry_success := true; MCPCatalog.registry := [] |}.

Definition emptyCatalog : MCPCatalog.State :=
  {| MCPCatalog.st_connectors := []; MCPCatalog.st_registry := [];
     MCPCatalog.selectedConnector := None; MCPCatalog.error := None |}.

End Samples.


(** ** MCPConfigForm: labels and values *)

Module MCPConfigFormFields.

(** [s.split(sep)] for a separator of one character: the pieces between
    the separators, an empty string giving one empty piece. *)
Fixpoint split (sep : Ascii.ascii) (s : string) : list string :=
  match s with
  | EmptyString => [EmptyString]
  | String c r =>
      if Ascii.eqb c sep then EmptyString :: split sep r
      else match split sep r with
           | w :: ws => String c w :: ws
           | [] => [String c EmptyString]
           end
  end.

(** [pieces.join(sep)] *)
Fixpoint join (sep : string) (pieces : list string) : string :=
  match pieces with
  | [] => EmptyString
  | [w] => w
  | w :: ws => w +:+ sep +:+ join sep ws
  end.

(** [word.charAt(0)] and [word.slice(1)] *)
Definition charAt0 (word : string) : string :=
  match word with
  | EmptyString => EmptyString
  | String c _ => String c EmptyString
  end.

Definition slice1 (word : string) : string :=
  match word with
  | EmptyString => EmptyString
  | String _ r => r
  end.

Section Labels.
(** [String.prototype.toUpperCase], left abstract. *)
Variable toUpperCase : string -> string.

Definition capitalize (word : string) : string :=
  toUpperCase (charAt0 word) +:+ slice1 word.

Definition formatFieldLabel (fieldName : string) : string :=
  join " " (map capitalize (split "_"%char fieldName)).

End Labels.

(** Upper-casing of the ASCII letters, for running the form. *)
Definition asciiUpper (c : Ascii.ascii) : Ascii.ascii :=
  let n := Ascii.nat_of_ascii c in
  if (97 <=? n)%nat && (n <=? 122)%nat then Ascii.ascii_of_nat (n - 32) else c.

Fixpoint asciiToUpperCase (s : string) : string :=
  match s with
  | EmptyString => EmptyString
  | String c s' => String (asciiUpper c) (asciiToUpperCase s')
  end.

(** [handleInputChange]: [{ ...config, [field]: value }] *)
Definition handleInputChange (field value : string) (config : gmap string string)
  : gmap string string :=
  <[field := value]> config.

(** The [value] attribute of an input: [config[field] || ''], where
    [config] holds the typed values as own properties ([{ ...config,
    [field]: value }] defines an own property for every name) and
    inherits from [Object.prototype].  An inherited member is truthy and
    is what the input receives. *)
Definition inputValue (config : gmap string string) (field : string)
  : Js.value string :=
  match Js.get config field with
  | Some (Js.Val v) => Js.Val (Js.or_else v "")
  | Some (Js.Member name) => Js.Member name
  | None => Js.Val ""
  end.

(** The configuration after the inputs [edits], in that order, on a
    freshly mounted form. *)
Definition afterEdits (edits : list (string * string)) : gmap string string :=
  fold_left (fun config e => handleInputChange e.1 e.2 config) edits ∅.

End MCPConfigFormFields.


(** ** MCPCatalog and MCPConnectorEditor: status badges and icons *)

Module StatusViews.

(** The four icons of [getStatusIcon]. *)
Inductive Icon : Type := CheckCircle | WarningTriangle | Banned | CrossCircle.

(** [getStatusBadgeColor] of MCPCatalog. *)
Definition getStatusBadgeColor (status : string) : string :=
  if decide (status = "enabled") then "bg-green-100 text-green-800"
  else if decide (status = "degraded") then "bg-yellow-100 text-yellow-800"
  else if decide (status = "disabled") then "bg-gray-100 text-gray-800"
  else if decide (status = "unconfigured") then "bg-red-100 text-red-800"
  else "bg-gray-100 text-gray-800".

(** [getStatusIcon] of MCPCatalog; [None] is the [null] of the default
    case. *)
Definition getStatusIcon (status : string) : option Icon :=
  if decide (status = "enabled") then Some CheckCircle
  else if decide (status = "degraded") then Some WarningTriangle
  else if decide (status = "disabled") then Some Banned
  else if decide (status = "unconfigured") then Some CrossCircle
  else None.

(** [getStatusBadgeColor] of MCPConnectorEditor. *)
Definition editorBadgeColor (status : string) : string :=
  if decide (status = "enabled") then "bg-green-100 text-green-800"
  else if decide (status = "degraded") then "bg-yellow-100 text-yellow-800"
  else if decide (status = "disabled") then "bg-gray-100 text-gray-800"
  else if decide (status = "unconfigured") then "bg-red-100 text-red-800"
  else "bg-gray-100 text-gray-800".

End StatusViews.


(** ** MCPConnectorEditor

    The editor of one connector, with the three requests of the useMCP
    hook it uses.  The configuration typed into the form reaches the
    editor through [onConfigChange] after every change, so one cell
    stands for both. *)

Module MCPConnectorEditor.
Import Exec Exec.Notations.

Record State : Type := {
  config : gmap string string;
  health : option MCPCatalog.Health;
  isSaving : bool;
  isDeleting : bool;
  isCheckingHealth : bool;
  error : option string;
  success : option string;
  loading : bool;
  hookError : option string
}.

Definition setConfig (c : gmap string string) (st : State) : State :=
  {| config := c; health := health st; isSaving := isSaving st;
     isDeleting := isDeleting st; isCheckingHealth := isCheckingHealth st;
     error := error st; success := success st; loading := loading st;
     hookError := hookError st |}.

Definition setHealth (h : option MCPCatalog.Health) (st : State) : State :=
  {| config := config st; health := h; isSaving := isSaving st;
     isDeleting := isDeleting st; isCheckingHealth := isCheckingHealth st;
     error := error st; success := success st; loading := loading st;
     hookError := hookError st |}.

Definition setIsSaving (b : bool) (st : State) : State :=
  {| config := config st; health := health st; isSaving := b;
     isDeleting := isDeleting st; isCheckingHealth := isCheckingHealth st;
     error := error st; success := success st; loading := loading st;
     hookError := hookError st |}.

Definition setIsDeleting (b : bool) (st : State) : State :=
  {| config := config st; health := health st; isSaving := isSaving st;
     isDeleting := b; isCheckingHealth := isCheckingHealth st;
     error := error st; success := success st; loading := loading st;
     hookError := hookError st |}.

Definition setIsCheckingHealth (b : bool) (st : State) : State :=
  {| config := config st; health := health st; isSaving := isSaving st;
     isDeleting := isDeleting st; isCheckingHealth := b;
     error := error st; success := success st; loading := loading st;
     hookError := hookError st |}.

Definition setError (e : option string) (st : State) : State :=
  {| config := config st; health := health st; isSaving := isSaving st;
     isDeleting := isDeleting st; isCheckingHealth := isCheckingHealth st;
     error := e; success := success st; loading := loading st;
     hookError := hookError st |}.

Definition setSuccess (m : option string) (st : State) : State :=
  {| config := config st; health := health st; isSaving := isSaving st;
     isDeleting := isDeleting st; isCheckingHealth := isCheckingHealth st;
     error := error st; success := m; loading := loading st;
     hookError := hookError st |}.

Definition setLoading (b : bool) (st : State) : State :=
  {| config := config st; health := health st; isSaving := isSaving st;
     isDeleting := isDeleting st; isCheckingHealth := isCheckingHealth st;
     error := error st; success := success st; loading := b;
     hookError := hookError st |}.

Definition setHookError (e : option string) (st : State) : State :=
  {| config := config st; health := health st; isSaving := isSaving st;
     isDeleting := isDeleting st; isCheckingHealth := isCheckingHealth st;
     error := error st; success := success st; loading := loading st;
     hookError := e |}.

(** The editor as mounted for [connector]: the state defaults and the
    effect that shows [connector.last_health || null]. *)
Definition mount (connector : MCPCatalog.MCPConnector) : State :=
  {| config := ∅; health := MCPCatalog.last_health connector;
     isSaving := false; isDeleting := false; isCheckingHealth := false;
     error := None; success := None; loading := false; hookError := None |}.

(** A [fetch] response: [ok], [status] and what [json()] settles to. *)
Record Response (A : Type) : Type := {
  ok : bool;
  status : Z;
  json : settle A
}.
Arguments ok {A} _.
Arguments status {A} _.
Arguments json {A} _.

(** The requests of the hook, [window.confirm], and the callbacks the
    catalog passed in. *)
Inductive Effect : Type :=
| PutConnector (id : string) (config : gmap string string)
| DeleteConnector (id : string)
| PostHealth (id : string)
| Confirm (question : string)
| OnSave (connector : MCPCatalog.MCPConnector)
| OnDelete (connectorId : string).

(** [handleApiCall] of the hook, on the response [apiCall] settles to. *)
Definition handleApiCall {A} (apiCall : settle (Response A)) : Exec.t State Effect A :=
  finally
    (modify (setLoading true) ;;
     modify (setHookError None) ;;
     try_catch
       (let* response := await apiCall in
        if negb (ok response)
        then throw (Js.ErrorObj ("HTTP error! status: " +:+ pretty (status response)))
        else await (json response))
       (fun err =>
          modify (setHookError
                    (Some (if Js.instanceofError err then Js.message err
                           else "An unknown error occurred"))) ;;
          throw err))
    (modify (setLoading false)).

Definition createOrUpdate (id : string) (c : gmap string string)
    (apiCall : settle (Response MCPCatalog.MCPConnector))
  : Exec.t State Effect MCPCatalog.MCPConnector :=
  emit (PutConnector id c) ;; handleApiCall apiCall.

(** The body of the DELETE response. *)
Record Deleted : Type := {
  deleted_success : bool;
  deleted_message : string
}.

Definition deleteConnector (id : string) (apiCall : settle (Response Deleted))
  : Exec.t State Effect Deleted :=
  emit (DeleteConnector id) ;; handleApiCall apiCall.

Definition checkHealth (id : string) (apiCall : settle (Response MCPCatalog.Health))
  : Exec.t State Effect MCPCatalog.Health :=
  emit (PostHealth id) ;; handleApiCall apiCall.

Definition handleSave (connector : MCPCatalog.MCPConnector)
    (apiCall : settle (Response MCPCatalog.MCPConnector))
  : Exec.t State Effect unit :=
  modify (setIsSaving true) ;;
  modify (setError None) ;;
  modify (setSuccess None) ;;
  try_catch_finally
    (let* st := get in
     let* updatedConnector := createOrUpdate (MCPCatalog.id connector) (config st) apiCall in
     modify (setSuccess (Some "Configuration saved successfully")) ;;
     emit (OnSave updatedConnector))
    (fun err =>
       modify (setError (Some (if Js.instanceofError err then Js.message err
                               else "Failed to save configuration"))))
    (modify (setIsSaving false)).

(** The question of [window.confirm]. *)
Definition deleteQuestion (connector : MCPCatalog.MCPConnector) : string :=
  "Are you sure you want to delete the " +:+
  String JSON.quote (MCPCatalog.name connector +:+ String JSON.quote " connector?").

(** [handleDelete]; [confirmed] is the answer of [window.confirm]. *)
Definition handleDelete (connector : MCPCatalog.MCPConnector) (confirmed : bool)
    (apiCall : settle (Response Deleted))
  : Exec.t State Effect unit :=
  emit (Confirm (deleteQuestion connector)) ;;
  if negb confirmed then ret tt
  else
    modify (setIsDeleting true) ;;
    modify (setError None) ;;
    try_catch_finally
      (deleteConnector (MCPCatalog.id connector) apiCall ;;
       emit (OnDelete (MCPCatalog.id connector)))
      (fun err =>
         modify (setError (Some (if Js.instanceofError err then Js.message err
                                 else "Failed to delete connector"))))
      (modify (setIsDeleting false)).

Definition handleHealthCheck (connector : MCPCatalog.MCPConnector)
    (apiCall : settle (Response MCPCatalog.Health))
  : Exec.t State Effect unit :=
  modify (setIsCheckingHealth true) ;;
  modify (setError None) ;;
  try_catch_finally
    (let* healthResult := checkHealth (MCPCatalog.id connector) apiCall in
     modify (setHealth (Some healthResult)))
    (fun err =>
       modify (setError (Some (if Js.instanceofError err then Js.message err
                               else "Failed to check health"))))
    (modify (setIsCheckingHealth false)).

(** The catalog runs the callbacks the editor called: [onSave] is
    [handleConnectorSave], [onDelete] is [handleConnectorDelete]. *)
Definition callback (cat : MCPCatalog.State) (e : Effect) : MCPCatalog.State :=
  match e with
  | OnSave connector => MCPCatalog.handleConnectorSave connector cat
  | OnDelete connectorId => MCPCatalog.handleConnectorDelete connectorId cat
  | _ => cat
  end.

Definition catalogAfter (effs : list Effect) (cat : MCPCatalog.State)
  : MCPCatalog.State :=
  fold_left callback effs cat.

Definition isRequest (e : Effect) : bool :=
  match e with
  | PutConnector _ _ | DeleteConnector _ | PostHealth _ => true
  | _ => false
  end.

End MCPConnectorEditor.


(** ** ChatPage: the page that hosts the chat *)

Module ChatPage.

Record Agent : Type := {
  id : string;
  name : string;
  shortDescription : string;
  elevenlabsVoiceId : string;
  status : string
}.

Record State : Type := {
  selectedAgent : option Agent;
  selectedConversationId : option string;
  sidebarOpen : bool;
  showAgentSelector : bool
}.

Definition mount : State :=
  {| selectedAgent := None; selectedConversationId := None;
     sidebarOpen := false; showAgentSelector := true |}.

(** The body of [GET /api/v1/agents/:id]. *)
Record AgentResponse : Type := {
  success : bool;
  agent : option Agent
}.

Inductive Effect : Type :=
| ConsoleError.

(** [loadAgentById] from the point where [api.get] settles. *)
Definition loadAgentById (r : Js.thrown + AgentResponse) (st : State)
  : State * list Effect :=
  match r with
  | inr response =>
      if success response then
        match agent response with
        | Some a =>
            ({| selectedAgent := Some a;
                selectedConversationId := selectedConversationId st;
                sidebarOpen := true; showAgentSelector := false |}, [])
        | None => (st, [])
        end
      else (st, [])
  | inl _ => (st, [ConsoleError])
  end.

Definition handleAgentSelect (a : Agent) (st : State) : State :=
  {| selectedAgent := Some a; selectedConversationId := None;
     sidebarOpen := true; showAgentSelector := false |}.

Definition handleConversationSelect (conversationId : string) (st : State) : State :=
  {| selectedAgent := selectedAgent st;
     selectedConversationId := Some conversationId;
     sidebarOpen := false; showAgentSelector := showAgentSelector st |}.

Definition handleNewConversation (st : State) : State :=
  {| selectedAgent := selectedAgent st; selectedConversationId := None;
     sidebarOpen := false; showAgentSelector := showAgentSelector st |}.

Definition toggleSidebar (st : State) : State :=
  {| selectedAgent := selectedAgent st;
     selectedConversationId := selectedConversationId st;
     sidebarOpen := negb (sidebarOpen st);
     showAgentSelector := showAgentSelector st |}.

(** What the page renders: the selector, or the sidebar with the chat. *)
Definition selectorShown (st : State) : bool := showAgentSelector st.
Definition chatShown (st : State) : bool := negb (showAgentSelector st).

Inductive Event : Type :=
| AgentLoaded (r : Js.thrown + AgentResponse)
| AgentSelect (a : Agent)
| ConversationSelect (conversationId : string)
| NewConversation
| ToggleSidebar.

(** One event of the page: the selector's callback exists only while the
    selector is shown, the sidebar's callbacks only while the sidebar
    is. *)
Definition step (st : State) (ev : Event) : State :=
  match ev with
  | AgentLoaded r => (loadAgentById r st).1
  | AgentSelect a => if selectorShown st then handleAgentSelect a st else st
  | ConversationSelect c => if chatShown st then handleConversationSelect c st else st
  | NewConversation => if chatShown st then handleNewConversation st else st
  | ToggleSidebar => if chatShown st then toggleSidebar st else st
  end.

Definition reached (evs : list Event) : State := fold_left step evs mount.

End ChatPage.


(** ** ConversationSidebar *)

Module ConversationSidebar.
Import Exec Exec.Notations.

Record Conversation : Type := {
  id : string;
  agentId : string;
  title : string;
  lastMessage : string;
  updatedAt : string;
  messageCount : Z
}.

Record State : Type := {
  conversations : list Conversation;
  loading : bool
}.

Record ConversationsResponse : Type := {
  success : bool;
  response_conversations : list Conversation
}.

Inductive Effect : Type :=
| ApiGet (agentId : string)
| ConsoleError.

(** [loadConversations] for the [agentId] prop. *)
Definition loadConversations (agentId : option string)
    (got : settle ConversationsResponse) : Exec.t State Effect unit :=
  match agentId with
  | Some (String c r) =>
      try_catch_finally
        (modify (fun st => {| conversations := conversations st; loading := true |}) ;;
         emit (ApiGet (String c r)) ;;
         let* response := await got in
         if success response
         then modify (fun st => {| conversations := response_conversations response;
                                   loading := loading st |})
         else modify (fun st => {| conversations := []; loading := loading st |}))
        (fun err => emit ConsoleError)
        (modify (fun st => {| conversations := conversations st; loading := false |}))
  | _ => ret tt
  end.

Section TimeAgo.
(** [date.toLocaleDateString()], which depends on the host locale;
    [None] is the invalid date. *)
Variable toLocaleDateString : option Z -> string.

(** [formatTimeAgo]: [date] is the time value of [new Date(dateString)]
    in milliseconds, [None] when the string does not parse (NaN), and
    [now] the time value of [new Date()]. *)
Definition formatTimeAgo (date : option Z) (now : Z) : string :=
  match date with
  | None => toLocaleDateString None
  | Some d =>
      let diffInHours := ((now - d) / (1000 * 60 * 60))%Z in
      if (diffInHours <? 1)%Z then "Just now"
      else if (diffInHours <? 24)%Z then pretty diffInHours +:+ "h ago"
      else if (diffInHours <? 168)%Z then pretty (diffInHours / 24)%Z +:+ "d ago"
      else toLocaleDateString (Some d)
  end.

End TimeAgo.

End ConversationSidebar.


(** ** The shape of a conversation *)

Module Conversation.

(** Whether a run of roles is a sequence of turns, each a user message
    followed by one assistant message: [Some false] when every turn is
    answered, [Some true] when the last user message is unanswered,
    [None] otherwise. *)
Fixpoint turns (roles : list ChatInterface.Role) : option bool :=
  match roles with
  | [] => Some false
  | ChatInterface.user :: rest =>
      match rest with
      | [] => Some true
      | ChatInterface.assistant :: rest' => turns rest'
      | ChatInterface.user :: _ => None
      end
  | ChatInterface.assistant :: _ => None
  end.

(** The message a settled call appends. *)
Definition answer (now : Z) (r : Js.thrown + option ChatInterface.AgentInvokeResponse)
  : ChatInterface.Message :=
  match r with
  | inr data =>
      match ChatInterface.replyOf data with
      | Some reply =>
          {| ChatInterface.id := ChatInterface.IdOfTime (now + 1);
             ChatInterface.content := reply;
             ChatInterface.role := ChatInterface.assistant;
             ChatInterface.timestamp := now |}
      | None => ChatInterface.errorMsg now
      end
  | inl _ => ChatInterface.errorMsg now
  end.

End Conversation.


(** ** Trimmed text *)

Module Trimmed.

(** A string that does not start with white space. *)
Definition headOk (s : string) : Prop :=
  match s with
  | EmptyString => True
  | String c _ => Js.isSpace c = false
  end.

(** A string that neither starts nor ends with white space. *)
Definition trimmed (s : string) : Prop := headOk s /\ headOk (String.rev s).

End Trimmed.


(** ** More sample data *)

Module MoreSamples.

(** A turn answered with an error, then a second message sent. *)
Definition twoTurns : list ChatInterface.Event :=
  [ChatInterface.Change "  first "; ChatInterface.ClickSend 1;
   ChatInterface.ClickListen;
   ChatInterface.InvokeSettled 0 2 (inl Js.NotAnError);
   ChatInterface.Change "second"; ChatInterface.KeyDownEnter 3].

(** The parent starts a new conversation with another agent. *)
Definition otherAgent : ChatInterface.Agent :=
  {| ChatInterface.agent_id := "morty"; ChatInterface.name := "Morty";
     ChatInterface.shortDescription := "A grandson.";
     ChatInterface.avatar := None; ChatInterface.elevenlabsVoiceId := Some "v2" |}.

Definition otherProps : ChatInterface.Props :=
  {| ChatInterface.agent := Some otherAgent; ChatInterface.conversationId := None |}.

(** A response of the test endpoint whose body is not JSON, as a proxy
    answering with an HTML page gives: [json()] rejects with a
    SyntaxError. *)
Definition garbledBody : MCPTestPanel.Response :=
  {| MCPTestPanel.ok := true; MCPTestPanel.status := 200%Z;
     MCPTestPanel.json :=
       Exec.Rejected (Js.SyntaxErrorObj "Unexpected token < in JSON at position 0") |}.

(** The binary64 values nearest to 0.7 and to 0.6. *)
Definition sevenTenths : spec_float := S754_finite false 6305039478318694 (-53).
Definition sixTenths : spec_float := S754_finite false 5404319552844595 (-53).


End MoreSamples.


(** ** The typing indicator of the simulated chat *)

Module TypingIndicator.

(** The typing indicators among the messages. *)
Definition indicators (msgs : list ChatInterfaceSimulated.Message)
  : list ChatInterfaceSimulated.Message :=
  filter (fun m => ChatInterfaceSimulated.id m = ChatInterfaceSimulated.IdTyping) msgs.

Definition isPropsChanged (ev : ChatInterfaceSimulated.Event) : bool :=
  match ev with
  | ChatInterfaceSimulated.PropsChanged _ _ => true
  | _ => false
  end.

(** What every reachable state keeps about the indicator. *)
Definition typing_inv (st : ChatInterfaceSimulated.State) : Prop :=
  (length (indicators (ChatInterfaceSimulated.messages st))
   <= if ChatInterfaceSimulated.isLoading st then 1 else 0)%nat
  /\ Forall (fun m => ChatInterfaceSimulated.isTyping m = true
                      <-> ChatInterfaceSimulated.id m = ChatInterfaceSimulated.IdTyping)
            (ChatInterfaceSimulated.messages st)
  /\ ChatInterfaceSimulated.chatInv st.

End TypingIndicator.


(** ** A field label, character by character *)

Module LabelChars.

(** A field name relabelled in one pass: every underscore becomes a
    space, and [up] is applied to the first character and to every
    character that follows an underscore.  [start] tells whether the next
    character begins a word. *)
Fixpoint relabel (up : Ascii.ascii -> Ascii.ascii) (start : bool) (s : string)
  : string :=
  match s with
  | EmptyString => EmptyString
  | String c r =>
      if Ascii.eqb c "_"%char then String " "%char (relabel up true r)
      else String (if start then up c else c) (relabel up false r)
  end.

End LabelChars.


(** ** What was typed into a form *)

Module Typed.

(** The values typed into the field [f], oldest first. *)
Definition typedInto (f : string) (edits : list (string * string)) : list string :=
  snd <$> filter (fun e => e.1 = f) edits.

End Typed.


(** * Properties *)

(** ** Strings *)

Lemma prefix_app (sub post : string) : String.prefix sub (sub +:+ post) = true.
Proof.
  induction sub as [|c sub IH]; simpl.
  - by destruct post.
  - destruct (Ascii.ascii_dec c c); [apply IH | done].
Qed.

Lemma prefix_inv (sub s : string) :
  String.prefix sub s = true -> exists post, s = sub +:+ post.
Proof.
  revert s. induction sub as [|c sub IH]; intros s H.
  - by exists s.
  - destruct s as [|d s]; simpl in H; [done|].
    destruct (Ascii.ascii_dec c d) as [->|]; [|done].
    destruct (IH _ H) as [post ->]. by exists post.
Qed.

(** [includes] finds exactly the contiguous occurrences. *)
Lemma includes_spec (s sub : string) :
  Js.includes s sub = true <-> exists pre post, s = pre +:+ sub +:+ post.
Proof.
  split.
  - induction s as [|c s IH]; cbn [Js.includes]; intros H.
    + apply orb_true_iff in H as [H|H]; [|done].
      destruct (prefix_inv _ _ H) as [post ->]. by exists "", post.
    + apply orb_true_iff in H as [H|H].
      * destruct (prefix_inv _ _ H) as [post Hs]. by exists "", post.
      * destruct (IH H) as (pre & post & ->). by exists (String c pre), post.
  - intros (pre & post & ->). induction pre as [|c pre IH].
    + change ("" +:+ sub +:+ post) with (sub +:+ post).
      destruct (sub +:+ post) eqn:E; cbn [Js.includes];
        rewrite <- ?E, prefix_app; done.
    + change (String c pre +:+ sub +:+ post) with (String c (pre +:+ sub +:+ post)).
      cbn [Js.includes]. rewrite IH. apply orb_true_r.
Qed.

(** ** MCPConfigForm *)

Section ConfigFormFacts.
Import MCPConfigForm.
Variable toLowerCase : string -> string.

Lemma isSecretField_spec (field : string) :
  isSecretField toLowerCase field = true <->
  exists secret, In secret secretFields /\
    exists pre post, toLowerCase field = pre +:+ secret +:+ post.
Proof.
  unfold isSecretField. rewrite existsb_exists.
  split; intros (secret & Hin & H); exists secret; split; try done;
    by apply includes_spec.
Qed.

Lemma shown_toggle (m : gmap string bool) (f field : string) :
  shown (toggleSecretVisibility f m) field =
  if decide (f = field) then negb (shown m field) else shown m field.
Proof.
  unfold toggleSecretVisibility, shown.
  case_decide as Hf.
  - subst. by rewrite lookup_insert_eq.
  - by rewrite lookup_insert_ne.
Qed.

Lemma shown_fold (clicks : list string) (m : gmap string bool) (field : string) :
  shown (fold_left (fun m f => toggleSecretVisibility f m) clicks m) field =
  xorb (shown m field) (Nat.odd (count_occ String.string_dec clicks field)).
Proof.
  revert m. induction clicks as [|f clicks IH]; intros m; simpl.
  - by rewrite xorb_false_r.
  - rewrite IH, shown_toggle.
    destruct (String.string_dec f field) as [->|Hne].
    + rewrite decide_True by done. rewrite Nat.odd_succ, <- Nat.negb_odd.
      by destruct (shown m field), (Nat.odd _).
    + by rewrite decide_False.
Qed.

Lemma shown_afterToggles (clicks : list string) (field : string) :
  shown (afterToggles clicks) field = Nat.odd (count_occ String.string_dec clicks field).
Proof.
  unfold afterToggles. rewrite shown_fold. unfold shown.
  by rewrite lookup_empty.
Qed.

End ConfigFormFacts.

(** C9. A field whose lower-cased name contains one of the words
    password, api_key, secret, token, key is rendered as a password input
    as long as its visibility has been toggled an even number of times
    (not at all, or switched back); every other field, and a secret field
    whose visibility is toggled on, is rendered as a text input. *)
Theorem C9_secret_fields_masked :
  forall (toLowerCase : string -> string) (field : string) (clicks : list string),
    (MCPConfigForm.inputType toLowerCase (MCPConfigForm.afterToggles clicks) field
       = MCPConfigForm.password
     <->
     (exists secret,
         In secret ["password"; "api_key"; "secret"; "token"; "key"] /\
         exists pre post, toLowerCase field = pre +:+ secret +:+ post) /\
     Nat.Even (count_occ String.string_dec clicks field))
    /\
    (MCPConfigForm.inputType toLowerCase (MCPConfigForm.afterToggles clicks) field
       = MCPConfigForm.text
     <->
     ~ ((exists secret,
          In secret ["password"; "api_key"; "secret"; "token"; "key"] /\
          exists pre post, toLowerCase field = pre +:+ secret +:+ post) /\
        Nat.Even (count_occ String.string_dec clicks field))).
Proof.
  intros toLowerCase field clicks.
  pose proof (isSecretField_spec toLowerCase field) as Hsec.
  change MCPConfigForm.secretFields
    with ["password"; "api_key"; "secret"; "token"; "key"] in Hsec.
  pose proof (shown_afterToggles clicks field) as Hshown.
  unfold MCPConfigForm.inputType, MCPConfigForm.showValue.
  rewrite Hshown.
  destruct (Nat.Even_or_Odd (count_occ String.string_dec clicks field)) as [Hev|Hodd].
  - assert (Nat.odd (count_occ String.string_dec clicks field) = false) as ->.
    { rewrite <- Nat.negb_even. apply Nat.even_spec in Hev. by rewrite Hev. }
    rewrite orb_false_r.
    destruct (MCPConfigForm.isSecretField toLowerCase field) eqn:E; simpl.
    + assert (Hc := proj1 Hsec eq_refl). split; split; try done. tauto.
    + assert (Hn : ~ exists secret,
                 In secret ["password"; "api_key"; "secret"; "token"; "key"] /\
                 exists pre post, toLowerCase field = pre +:+ secret +:+ post).
      { intros Hc. apply Hsec in Hc. congruence. }
      split; split; try done; tauto.
  - assert (Nat.odd (count_occ String.string_dec clicks field) = true) as ->.
    { by apply Nat.odd_spec. }
    rewrite orb_true_r.
    assert (Hne : ~ Nat.Even (count_occ String.string_dec clicks field)).
    { intros Hev. destruct (Nat.Even_Odd_False _ Hev Hodd). }
    split; split; try done; tauto.
Qed.

Example config_form_renders :
  MCPConfigForm.renderedTypes MCPConfigForm.asciiToLowerCase
    ["API_KEY"; "host"; "monkey_id"; "Auth_Token"]
    (MCPConfigForm.afterToggles ["Auth_Token"])
  = [("API_KEY", MCPConfigForm.password); ("host", MCPConfigForm.text);
     ("monkey_id", MCPConfigForm.password); ("Auth_Token", MCPConfigForm.text)].
Proof. vm_compute. reflexivity. Qed.

(** ** Binary64: rounding a product *)

Section Binary64.
Local Open Scope Z_scope.

Lemma iter_pos_nat {A} (f : A -> A) (p : positive) (x : A) :
  SpecFloat.iter_pos f p x = Nat.iter (Pos.to_nat p) f x.
Proof.
  revert x. induction p as [p IH|p IH|]; intros x; cbn [SpecFloat.iter_pos].
  - rewrite !IH, Pos2Nat.inj_xI.
    replace (S (2 * Pos.to_nat p))%nat with (Pos.to_nat p + S (Pos.to_nat p))%nat by lia.
    rewrite Nat.iter_add. f_equal. by rewrite Nat.iter_succ_r.
  - rewrite !IH, Pos2Nat.inj_xO.
    replace (2 * Pos.to_nat p)%nat with (Pos.to_nat p + Pos.to_nat p)%nat by lia.
    by rewrite Nat.iter_add.
  - done.
Qed.

Lemma shr_1_spec (mrs : shr_record) :
  0 <= shr_m mrs ->
  shr_m (shr_1 mrs) = shr_m mrs / 2 /\ shr_r (shr_1 mrs) = Z.odd (shr_m mrs).
Proof.
  destruct mrs as [[|[p|p|]|p] r s]; cbn; intros H; try lia; split; try done.
  - apply Z.div_unique with 1; lia.
  - apply Z.div_unique with 0; lia.
Qed.

Lemma shr_iter (k : nat) (M : Z) :
  0 <= M ->
  let mrs := Nat.iter k shr_1 {| shr_m := M; shr_r := false; shr_s := false |} in
  shr_m mrs = M / 2 ^ Z.of_nat k
  /\ (shr_r mrs = true -> 2 ^ Z.of_nat k <= 2 * (M mod 2 ^ Z.of_nat k)).
Proof.
  intros HM. induction k as [|k [IHm IHr]]; cbn zeta.
  - cbn. split; [by rewrite Z.div_1_r|done].
  - cbn [Nat.iter]. set (mrs := Nat.iter k shr_1 _) in *. cbn zeta in IHm, IHr.
    assert (Hpos : 0 < 2 ^ Z.of_nat k) by (apply Z.pow_pos_nonneg; lia).
    assert (Hm0 : 0 <= shr_m mrs) by (rewrite IHm; apply Z.div_pos; lia).
    destruct (shr_1_spec mrs Hm0) as [H1 H2].
    rewrite Nat2Z.inj_succ, Z.pow_succ_r by lia.
    change (Nat.iter (S k) shr_1 {| shr_m := M; shr_r := false; shr_s := false |})
      with (shr_1 mrs).
    split.
    + rewrite H1, IHm, Z.div_div by lia. f_equal. lia.
    + rewrite H2, IHm. intros Hodd.
      pose proof (Z.div_mod M (2 ^ Z.of_nat k) ltac:(lia)) as Hdm.
      pose proof (Z.mod_pos_bound M (2 ^ Z.of_nat k) Hpos) as Hb.
      pose proof (Z.div_mod M (2 * 2 ^ Z.of_nat k) ltac:(lia)) as Hdm2.
      pose proof (Z.mod_pos_bound M (2 * 2 ^ Z.of_nat k) ltac:(lia)) as Hb2.
      apply Z.odd_spec in Hodd. destruct Hodd as [j Hj].
      assert (M / (2 * 2 ^ Z.of_nat k) = j) as Hq.
      { rewrite Z.mul_comm, <- Z.div_div by lia. rewrite Hj.
        symmetry. apply Z.div_unique with 1; lia. }
      rewrite Hq in Hdm2. nia.
Qed.

Lemma digits2_pos_spec (p : positive) :
  2 ^ (Z.pos (digits2_pos p) - 1) <= Z.pos p < 2 ^ Z.pos (digits2_pos p).
Proof.
  induction p as [p IH|p IH|]; cbn [digits2_pos]; [| |cbn; lia].
  - rewrite Pos2Z.inj_succ.
    replace (Z.succ (Z.pos (digits2_pos p)) - 1) with (Z.succ (Z.pos (digits2_pos p) - 1)) by lia.
    rewrite !Z.pow_succ_r by lia. lia.
  - rewrite Pos2Z.inj_succ.
    replace (Z.succ (Z.pos (digits2_pos p)) - 1) with (Z.succ (Z.pos (digits2_pos p) - 1)) by lia.
    rewrite !Z.pow_succ_r by lia. lia.
Qed.

Lemma digits2_le (p : positive) (k : Z) :
  0 <= k -> Z.pos p < 2 ^ k -> Z.pos (digits2_pos p) <= k.
Proof.
  intros Hk Hp. destruct (Z.le_gt_cases (Z.pos (digits2_pos p)) k) as [|Hgt]; [done|].
  pose proof (digits2_pos_spec p) as [Hlo _].
  assert (2 ^ k <= 2 ^ (Z.pos (digits2_pos p) - 1)) by (apply Z.pow_le_mono_r; lia).
  lia.
Qed.

(** What [shr] leaves of a mantissa: the quotient, and a round bit that
    is set only when the remainder is at least half. *)
Lemma shr_spec (M E n : Z) :
  0 <= M ->
  let '(mrs, e) := shr {| shr_m := M; shr_r := false; shr_s := false |} E n in
  e = E + Z.max 0 n
  /\ shr_m mrs = M / 2 ^ Z.max 0 n
  /\ (shr_r mrs = true -> 0 < n /\ 2 ^ n <= 2 * (M mod 2 ^ n)).
Proof.
  intros HM. destruct n as [|p|p]; cbn [shr].
  - cbn. split; [lia|]. split; [by rewrite Z.div_1_r|done].
  - rewrite iter_pos_nat. destruct (shr_iter (Pos.to_nat p) M HM) as [H1 H2].
    rewrite positive_nat_Z in *. rewrite Z.max_r by lia.
    split; [done|]. split; [done|]. intros Hr. split; [lia|]. by apply H2.
  - cbn. split; [lia|]. split; [by rewrite Z.div_1_r|done].
Qed.

Lemma round_nearest_even_bound (mrs : shr_record) :
  shr_m mrs <= round_nearest_even (shr_m mrs) (loc_of_shr_record mrs)
  /\ round_nearest_even (shr_m mrs) (loc_of_shr_record mrs)
     <= shr_m mrs + (if shr_r mrs then 1 else 0).
Proof.
  destruct mrs as [m [] []]; cbn; try destruct (Z.even m); lia.
Qed.

(** Rounding a positive mantissa [M] at exponent [E]: the result is zero,
    or has a mantissa [m] at an exponent [e >= E] with
    [m * 2^(e-E)] within half a unit of [M]; it is finite unless [e]
    exceeds the largest exponent. *)
Lemma binary_round_aux_bound (M : positive) (E : Z) :
  let n := fexp 53 1024 (Zdigits2 (Z.pos M) + E) - E in
  binary_round_aux 53 1024 false (Z.pos M) E loc_Exact = S754_zero false
  \/ exists m e,
       binary_round_aux 53 1024 false (Z.pos M) E loc_Exact
       = (if e <=? 1024 - 53 then S754_finite false m e else S754_infinity false)
       /\ E <= e
       /\ 2 * (Z.pos m * 2 ^ (e - E)) <= 2 * Z.pos M + 2 ^ Z.max 0 n.
Proof.
  intros n. unfold binary_round_aux, shr_fexp. fold n.
  cbn [shr_record_of_loc].
  pose proof (shr_spec (Z.pos M) E n ltac:(lia)) as H1.
  destruct (shr _ E n) as [mrs' e'] eqn:E1. destruct H1 as (He' & Hm' & Hr').
  pose proof (round_nearest_even_bound mrs') as [Hlo Hhi].
  set (q := round_nearest_even (shr_m mrs') (loc_of_shr_record mrs')) in *.
  assert (Hq0 : 0 <= q).
  { etrans; [|exact Hlo]. rewrite Hm'. apply Z.div_pos; [lia|].
    apply Z.pow_pos_nonneg; lia. }
  set (n2 := fexp 53 1024 (Zdigits2 q + e') - e').
  pose proof (shr_spec q e' n2 Hq0) as H2.
  destruct (shr _ e' n2) as [mrs'' e''] eqn:E2. destruct H2 as (He'' & Hm'' & _).
  destruct (shr_m mrs'') as [|m|m] eqn:Em; [by left| |].
  2:{ exfalso. assert (0 <= q / 2 ^ Z.max 0 n2); [|lia].
      apply Z.div_pos; [lia|]. apply Z.pow_pos_nonneg; lia. }
  right. exists m, e''. split; [done|]. split; [lia|].
  assert (Hp1 : 0 < 2 ^ Z.max 0 n) by (apply Z.pow_pos_nonneg; lia).
  assert (Hp2 : 0 < 2 ^ Z.max 0 n2) by (apply Z.pow_pos_nonneg; lia).
  replace (e'' - E) with (Z.max 0 n2 + Z.max 0 n) by lia.
  rewrite Z.pow_add_r by lia.
  assert (Hmq : Z.pos m * 2 ^ Z.max 0 n2 <= q).
  { rewrite Hm''. rewrite Z.mul_comm. apply Z.mul_div_le. lia. }
  assert (Hq : 2 * (q * 2 ^ Z.max 0 n) <= 2 * Z.pos M + 2 ^ Z.max 0 n).
  { pose proof (Z.div_mod (Z.pos M) (2 ^ Z.max 0 n) ltac:(lia)) as Hdm.
    pose proof (Z.mod_pos_bound (Z.pos M) (2 ^ Z.max 0 n) Hp1) as Hb.
    destruct (shr_r mrs') eqn:Er.
    - destruct (Hr' eq_refl) as [Hn Hhalf]. rewrite Z.max_r in * by lia. nia.
    - nia. }
  nia.
Qed.


Lemma canonical_bounds (m : positive) (e : Z) :
  bounded 53 1024 m e = true -> -1074 <= e /\ Z.pos m < 2 ^ 53.
Proof.
  unfold bounded, canonical_mantissa, fexp, emin. intros H.
  apply andb_prop in H as [H _]. apply Z.eqb_eq in H.
  pose proof (digits2_pos_spec m) as [_ Hhi].
  assert (Hd : Z.pos (digits2_pos m) <= 53) by lia.
  split; [lia|]. eapply Z.lt_le_trans; [exact Hhi|].
  apply Z.pow_le_mono_r; lia.
Qed.

(** The product of a value of [Math.random] and 5, rounded to binary64,
    stays below 5: its floor is an index from 0 to 4. *)
Lemma random_times_five (rnd : spec_float) :
  Js.isRandom rnd = true ->
  exists i, Js.floor (Js.mul rnd (Js.ofZ 5)) = Some i /\ 0 <= i < 5.
Proof.
  replace (Js.ofZ 5) with (S754_finite false 5629499534213120 (-50))
    by (vm_compute; reflexivity).
  destruct rnd as [[]| | |[] m e]; cbn [Js.isRandom negb andb]; try done.
  { intros _. exists 0. cbn. split; [done|lia]. }
  intros H. apply andb_prop in H as [H Hm]. apply andb_prop in H as [Hb He].
  apply Z.ltb_lt in Hm, He.
  destruct (canonical_bounds m e Hb) as [Hemin Hm53].
  unfold Js.mul, SFmul. cbn [xorb].
  set (M := (m * 5629499534213120)%positive).
  set (E := e + -50).
  assert (HM : Z.pos M = Z.pos m * (5 * 2 ^ 50)) by (subst M; rewrite Pos2Z.inj_mul; lia).
  assert (Hpe : 0 < 2 ^ (- e)) by (apply Z.pow_pos_nonneg; lia).
  assert (HT : 2 ^ (- E) = 2 ^ 50 * 2 ^ (- e)).
  { subst E. replace (- (e + -50)) with (50 + - e) by lia.
    rewrite Z.pow_add_r by lia. done. }
  pose proof (binary_round_aux_bound M E) as Hr. cbn zeta in Hr.
  set (n := fexp 53 1024 (Zdigits2 (Z.pos M) + E) - E) in Hr.
  assert (Hn : Z.max 0 n <= 53).
  { subst n. unfold fexp, emin. cbn [Zdigits2].
    assert (Z.pos (digits2_pos M) <= 106); [|lia].
    apply digits2_le; [lia|]. rewrite HM.
    change (2 ^ 106) with (2 ^ 53 * 2 ^ 53). nia. }
  assert (H2n : 2 ^ Z.max 0 n <= 2 ^ 53) by (apply Z.pow_le_mono_r; lia).
  destruct Hr as [->|(m' & e' & -> & HE & Hbound)].
  { exists 0. cbn. split; [done|lia]. }
  assert (Hpd : 0 < 2 ^ (e' - E)) by (apply Z.pow_pos_nonneg; lia).
  assert (Hlt : Z.pos m' * 2 ^ (e' - E) < 5 * 2 ^ (- E)).
  { rewrite HT. rewrite HM in Hbound. change (2 ^ 53) with (8 * 2 ^ 50) in H2n.
    nia. }
  assert (He3 : e' < 3).
  { assert (2 ^ (e' - E) < 2 ^ (3 - E)); [|apply Z.pow_lt_mono_r_iff in H; lia].
    replace (3 - E) with (3 + - E) by lia. rewrite Z.pow_add_r by lia.
    assert (0 < 2 ^ (- E)) by (apply Z.pow_pos_nonneg; lia).
    change (2 ^ 3) with 8. nia. }
  destruct (Z.leb_spec e' (1024 - 53)); [|lia].
  cbn [Js.floor].
  destruct (Z.leb_spec 0 e') as [Hpos|Hneg].
  - exists (Z.pos m' * 2 ^ e'). split; [done|].
    assert (0 < 2 ^ e') by (apply Z.pow_pos_nonneg; lia).
    assert (0 < 2 ^ (- E)) by (apply Z.pow_pos_nonneg; lia).
    replace (e' - E) with (e' + - E) in Hlt by lia.
    rewrite Z.pow_add_r in Hlt by lia. nia.
  - exists (Z.pos m' / 2 ^ (- e')). split; [done|].
    assert (0 < 2 ^ (- e')) by (apply Z.pow_pos_nonneg; lia).
    split; [apply Z.div_pos; lia|].
    apply Z.div_lt_upper_bound; [lia|].
    replace (- E) with (- e' + (e' - E)) in Hlt by lia.
    rewrite Z.pow_add_r in Hlt by lia. nia.
Qed.

End Binary64.

(** ** Array.prototype.sort *)

Section SortFacts.
Context {A : Type} (cmp : A -> A -> Z) (R : A -> A -> Prop).
Hypothesis cmp_le : forall x y, (cmp x y <= 0)%Z -> R x y.
Hypothesis cmp_gt : forall x y, ~ (cmp x y <= 0)%Z -> R y x.
Hypothesis R_trans : forall x y z, R x y -> R y z -> R x z.

Lemma insertSorted_perm (x : A) (l : list A) :
  Permutation (x :: l) (Js.insertSorted cmp x l).
Proof.
  induction l as [|y l IH]; simpl; [done|].
  destruct (Z.leb_spec (cmp x y) 0); [done|].
  rewrite perm_swap. by constructor.
Qed.


Lemma insertSorted_sorted (x : A) (l : list A) :
  StronglySorted R l -> StronglySorted R (Js.insertSorted cmp x l).
Proof.
  induction 1 as [|y l Hl IH Hy]; simpl.
  - repeat constructor.
  - destruct (Z.leb_spec (cmp x y) 0) as [Hle|Hgt].
    + constructor; [by constructor|].
      constructor; [by apply cmp_le|].
      eapply Forall_impl; [exact Hy|]. intros z Hz.
      eapply R_trans; [apply cmp_le, Hle | exact Hz].
    + constructor; [exact IH|].
      rewrite <- insertSorted_perm. constructor; [|exact Hy].
      apply cmp_gt. lia.
Qed.

Lemma sort_sorted (l : list A) : StronglySorted R (Js.sort cmp l).
Proof.
  unfold Js.sort. induction l as [|x l IH]; simpl.
  - constructor.
  - by apply insertSorted_sorted.
Qed.

End SortFacts.

(** ** MCPCatalog *)

Example catalog_sorted_names :
  MCPCatalog.name <$>
    MCPCatalog.st_connectors
      (Exec.state (MCPCatalog.loadData MCPCatalog.codeUnitCompare
                     (Exec.Fulfilled Samples.catalog)
                     (Exec.Fulfilled Samples.registryList) false
                     Samples.emptyCatalog))
  = ["github"; "web"; "mail"; "db"; "slack"; "files"].
Proof. vm_compute. reflexivity. Qed.

Lemma priority_cases (c : MCPCatalog.MCPConnector) :
  MCPCatalog.priority c =
  if decide (MCPCatalog.status c = "enabled") then 0%Z
  else if decide (MCPCatalog.status c = "degraded") then 1%Z
  else if decide (MCPCatalog.status c = "disabled") then 2%Z
  else if decide (MCPCatalog.status c = "unconfigured") then 3%Z
  else 4%Z.
Proof.
  unfold MCPCatalog.priority, MCPCatalog.statusOrder.
  generalize (MCPCatalog.status c) as s. intros s.
  cbn [list_to_map foldr uncurry fst snd].
  repeat case_decide; subst; try (vm_compute; reflexivity).
  by rewrite !lookup_insert_ne, lookup_empty by done.
Qed.

(** A status that names no inherited property is read by the own keys
    of the table. *)
Lemma orderOf_known (c : MCPCatalog.MCPConnector) :
  MCPCatalog.status c ∉ Js.objectPrototype ->
  MCPCatalog.orderOf c = Js.Val (MCPCatalog.priority c).
Proof.
  intros Hn. unfold MCPCatalog.orderOf, MCPCatalog.priority, Js.get.
  destruct (MCPCatalog.statusOrder !! MCPCatalog.status c); [done|].
  by rewrite bool_decide_false.
Qed.

(** A status that names an inherited property reads that property. *)
Lemma orderOf_inherited (c : MCPCatalog.MCPConnector) :
  MCPCatalog.status c ∈ Js.objectPrototype ->
  MCPCatalog.orderOf c = Js.Member (MCPCatalog.status c)
  /\ MCPCatalog.statusOrder !! MCPCatalog.status c = None.
Proof.
  intros Hin. unfold MCPCatalog.orderOf, Js.get.
  assert (Hnone : MCPCatalog.statusOrder !! MCPCatalog.status c = None).
  { revert Hin. generalize (MCPCatalog.status c) as s. intros s Hin.
    unfold Js.objectPrototype in Hin.
    repeat (apply elem_of_cons in Hin as [->|Hin]; [vm_compute; reflexivity|]).
    by apply elem_of_nil in Hin. }
  rewrite Hnone. by rewrite bool_decide_true.
Qed.

Section SortOn.
Context {A : Type} (cmp : A -> A -> Z) (R : A -> A -> Prop) (P : A -> Prop).
Hypothesis cmp_le : forall x y, P x -> P y -> (cmp x y <= 0)%Z -> R x y.
Hypothesis cmp_gt : forall x y, P x -> P y -> ~ (cmp x y <= 0)%Z -> R y x.
Hypothesis R_trans : forall x y z, R x y -> R y z -> R x z.



End SortOn.


Section CatalogFacts.
Import MCPCatalog.
Variable localeCompare : string -> string -> Z.
Hypothesis lc_total : forall a b, (0 < localeCompare a b)%Z -> (localeCompare b a <= 0)%Z.
Hypothesis lc_trans : forall a b c,
  (localeCompare a b <= 0)%Z -> (localeCompare b c <= 0)%Z -> (localeCompare a c <= 0)%Z.






End CatalogFacts.







(** ** ChatInterface (agent API flow) *)

Section AgentChatFacts.
Import ChatInterface.

(** What [sendMessage] does once [api.post] has settled, case by case. *)
Lemma sendMessage_resume_eq (now : Z) (r : Js.thrown + option AgentInvokeResponse)
    (st : State) :
  sendMessage_resume now (settled r) st =
  match r with
  | inr data =>
      match replyOf data with
      | Some reply =>
          (Exec.Done tt,
           setIsLoading false
             (setMessages (fun prev =>
                prev ++ [ {| id := IdOfTime (now + 1); content := reply;
                             role := assistant; timestamp := now |} ]) st),
           [])
      | None =>
          (Exec.Done tt,
           setIsLoading false (setMessages (fun prev => prev ++ [errorMsg now]) st),
           [ConsoleError; ToastError "Failed to get agent response"])
      end
  | inl _ =>
      (Exec.Done tt,
       setIsLoading false (setMessages (fun prev => prev ++ [errorMsg now]) st),
       [ConsoleError; ToastError "Failed to get agent response"])
  end.
Proof.
  destruct r as [e|data]; unfold sendMessage_resume, Exec.try_catch_finally,
    Exec.finally, Exec.try_catch, Exec.bind, Exec.await, Exec.modify, Exec.emit,
    Exec.throw, settled; simpl; [done|].
  destruct (replyOf data); reflexivity.
Qed.

(** A reply is never the empty text. *)
Lemma replyOf_nonempty (data : option AgentInvokeResponse) (reply : string) :
  replyOf data = Some reply -> reply <> "".
Proof.
  unfold replyOf. destruct data as [d|]; [|done].
  destruct (success d); [|done]. destruct (agent_response d) as [r|]; [|done].
  destruct r; simpl; [done|]. intros [= <-]. done.
Qed.

(** The guard of [sendMessage]. *)
Lemma sendMessage_loading (p : Props) (now : Z) (st : State) :
  isLoading st = true -> sendMessage p now st = (st, []).
Proof.
  intros H. unfold sendMessage. destruct (agent p); [|done].
  by rewrite H, orb_true_r.
Qed.

Lemma sendMessage_accepted (p : Props) (a : Agent) (now : Z) (st : State) :
  agent p = Some a -> sendDisabled st = false ->
  sendMessage p now st =
  let userMsg :=
    {| id := IdOfTime now; content := Js.trim (inputMessage st);
       role := user; timestamp := now |} in
  (setInflight (fun q => q ++ [ {| turn_userMsg := userMsg; turn_agent := a |} ])
     (setIsLoading true
        (setInputMessage "" (setMessages (fun prev => prev ++ [userMsg]) st))),
   [ApiPost "/api/v1/agent/invoke" (invokeRequest st a userMsg)]).
Proof.
  unfold sendDisabled, sendMessage. intros -> ->. reflexivity.
Qed.

Lemma chatInv_welcomeEffect (p : Props) (now : Z) (st : State) :
  chatInv st -> chatInv (welcomeEffect p now st).
Proof.
  unfold welcomeEffect. destruct (agent p); [|done].
  destruct (conversationId p) as [[|]|]; done.
Qed.

Lemma chatInv_mount (p : Props) (now : Z) : chatInv (mount p now).
Proof. by apply chatInv_welcomeEffect. Qed.

Lemma chatInv_sendMessage (p : Props) (now : Z) (st : State) :
  chatInv st -> chatInv (sendMessage p now st).1.
Proof.
  unfold chatInv, sendMessage. intros H.
  destruct (agent p); [|done].
  destruct (negb _ || isLoading st) eqn:E; [done|]. simpl.
  apply orb_false_iff in E as [_ E]. rewrite E in H.
  rewrite length_app, H. reflexivity.
Qed.

Lemma chatInv_step (p : Props) (st : State) (ev : Event) :
  chatInv st -> chatInv (step p st ev).1.
Proof.
  intros H. destruct ev as [v|now|now|i now r| | |text|p' now]; simpl.
  - destruct (inputDisabled st); done.
  - destruct (inputDisabled st); [done|]. by apply chatInv_sendMessage.
  - destruct (sendDisabled st); [done|]. by apply chatInv_sendMessage.
  - destruct (inflight st !! i) eqn:E; [|done].
    rewrite sendMessage_resume_eq.
    assert (Hlen : length (delete i (inflight st)) = 0).
    { rewrite length_delete by eauto. apply lookup_lt_Some in E.
      unfold chatInv in H. destruct (isLoading st); lia. }
    destruct r as [e|data]; [|destruct (replyOf data)]; exact Hlen.
  - exact H.
  - exact H.
  - exact H.
  - by apply chatInv_welcomeEffect.
Qed.

Lemma chatInv_run (p : Props) (evs : list Event) (st : State) :
  chatInv st -> chatInv (run p st evs).1.
Proof.
  revert p st. induction evs as [|ev evs IH]; intros p st H; simpl; [done|].
  pose proof (chatInv_step p st ev H) as H1.
  destruct (step p st ev) as [st1 effs]. specialize (IH (propsAfter p ev) st1 H1).
  destruct (run (propsAfter p ev) st1 evs) as [st2 effs2]. exact IH.
Qed.

(** Under unchanged props every step shows exactly the user messages it
    posts. *)
Lemma posted_step (p : Props) (st : State) (ev : Event) :
  isPropsChanged ev = false ->
  userContents (step p st ev).1 = userContents st ++ posted (step p st ev).2.
Proof.
  intros Hev.
  assert (Hsend : forall now,
    userContents (sendMessage p now st).1
    = userContents st ++ posted (sendMessage p now st).2).
  { intros now. unfold sendMessage. destruct (agent p); [|by rewrite app_nil_r].
    destruct (negb _ || isLoading st); [by rewrite app_nil_r|]. simpl.
    unfold userContents. simpl. by rewrite filter_app, fmap_app. }
  destruct ev as [v|now|now|i now r| | |text|p' now]; simpl; [..|done].
  - destruct (inputDisabled st); by rewrite app_nil_r.
  - destruct (inputDisabled st); [by rewrite app_nil_r | apply Hsend].
  - destruct (sendDisabled st); [by rewrite app_nil_r | apply Hsend].
  - destruct (inflight st !! i); [|by rewrite app_nil_r].
    rewrite sendMessage_resume_eq.
    destruct r as [e|data]; [|destruct (replyOf data)];
      unfold userContents; simpl; rewrite filter_app, fmap_app; reflexivity.
  - by rewrite app_nil_r.
  - by rewrite app_nil_r.
  - by rewrite app_nil_r.
Qed.

Lemma posted_app (l1 l2 : list Effect) : posted (l1 ++ l2) = posted l1 ++ posted l2.
Proof. unfold posted. apply omap_app. Qed.

Lemma posted_run (p : Props) (evs : list Event) (st : State) :
  Forall (fun ev => isPropsChanged ev = false) evs ->
  userContents (run p st evs).1 = userContents st ++ posted (run p st evs).2.
Proof.
  intros Hevs. revert p st.
  induction Hevs as [|ev evs Hev Hevs IH]; intros p st; simpl.
  - by rewrite app_nil_r.
  - pose proof (posted_step p st ev Hev) as H1.
    destruct (step p st ev) as [st1 effs]. specialize (IH (propsAfter p ev) st1).
    destruct (run (propsAfter p ev) st1 evs) as [st2 effs2]. simpl in *.
    by rewrite IH, H1, posted_app, app_assoc.
Qed.

(** Only a click on send or the Enter key posts. *)
Lemma posted_other (p : Props) (st : State) (ev : Event) :
  match ev with
  | KeyDownEnter _ | ClickSend _ => True
  | _ => posted (step p st ev).2 = []
  end.
Proof.
  destruct ev as [v|now|now|i now r| | |text|p' now]; simpl; try done.
  - by destruct (inputDisabled st).
  - destruct (inflight st !! i); [|done]. rewrite sendMessage_resume_eq.
    destruct r as [e|data]; [|destruct (replyOf data)]; done.
Qed.

Lemma userContents_mount (p : Props) (now : Z) : userContents (mount p now) = [].
Proof.
  unfold userContents, mount, welcomeEffect. simpl.
  destruct (agent p); [|done]. destruct (conversationId p) as [[|]|]; done.
Qed.

End AgentChatFacts.

(** ** ChatInterface (simulated flow) *)

Section SimulatedChatFacts.
Import ChatInterfaceSimulated.

Lemma handleSendMessage_resume_eq (now : Z) (rnd : spec_float) (st : State) :
  handleSendMessage_resume now rnd st =
  (Exec.Done tt,
   setIsLoading false
     (setMessages (fun prev =>
        notTyping prev ++
        [ {| id := IdOfTime (now + 1); content := responseAt (randomIndex rnd);
             role := assistant; timestamp := now; isTyping := false |} ]) st),
   []).
Proof. reflexivity. Qed.

Lemma handleSendMessage_loading (p : Props) (now : Z) (st : State) :
  isLoading st = true -> handleSendMessage p now st = (st, []).
Proof.
  intros H. unfold handleSendMessage. destruct (agent p); [|done].
  by rewrite H, orb_true_r.
Qed.

Lemma simInv_handleSendMessage (p : Props) (now : Z) (st : State) :
  chatInv st -> chatInv (handleSendMessage p now st).1.
Proof.
  unfold chatInv, handleSendMessage. intros H.
  destruct (agent p); [|done].
  destruct (negb _ || isLoading st) eqn:E; [done|]. simpl.
  apply orb_false_iff in E as [_ E]. rewrite E in H.
  rewrite length_app, H. reflexivity.
Qed.

Lemma simInv_welcomeEffect (p : Props) (now : Z) (st : State) :
  chatInv st -> chatInv (welcomeEffect p now st).
Proof.
  unfold welcomeEffect. destruct (agent p); [|done].
  destruct (conversationId p) as [[|]|]; done.
Qed.

Lemma simInv_step (p : Props) (st : State) (ev : Event) :
  chatInv st -> chatInv (step p st ev).1.
Proof.
  intros H. destruct ev as [v|now|now|i now rnd| | |text|p' now]; simpl.
  - destruct (inputDisabled st); done.
  - destruct (inputDisabled st); [done|]. by apply simInv_handleSendMessage.
  - destruct (sendDisabled st); [done|]. by apply simInv_handleSendMessage.
  - destruct (timers st !! i) eqn:E; [|done].
    unfold chatInv. simpl. rewrite length_delete by eauto. apply lookup_lt_Some in E.
    unfold chatInv in H. destruct (isLoading st); lia.
  - exact H.
  - exact H.
  - exact H.
  - by apply simInv_welcomeEffect.
Qed.

Lemma simInv_run (p : Props) (evs : list Event) (st : State) :
  chatInv st -> chatInv (run p st evs).1.
Proof.
  revert p st. induction evs as [|ev evs IH]; intros p st H; simpl; [done|].
  pose proof (simInv_step p st ev H) as H1.
  destruct (step p st ev) as [st1 effs]. specialize (IH (propsAfter p ev) st1 H1).
  destruct (run (propsAfter p ev) st1 evs) as [st2 effs2]. exact IH.
Qed.

(** No handler of the page reaches a speech service. *)
Lemma no_speech_step (p : Props) (st : State) (ev : Event) :
  Forall (fun e => isSpeechService e = false) (step p st ev).2.
Proof.
  assert (Hsend : forall now,
    Forall (fun e => isSpeechService e = false) (handleSendMessage p now st).2).
  { intros now. unfold handleSendMessage. destruct (agent p); [|constructor].
    destruct (negb _ || isLoading st); repeat constructor. }
  destruct ev as [v|now|now|i now rnd| | |text|p' now]; simpl.
  - destruct (inputDisabled st); constructor.
  - destruct (inputDisabled st); [constructor | apply Hsend].
  - destruct (sendDisabled st); [constructor | apply Hsend].
  - destruct (timers st !! i); constructor.
  - repeat constructor.
  - repeat constructor.
  - repeat constructor.
  - constructor.
Qed.

Lemma no_speech_run (p : Props) (evs : list Event) (st : State) :
  Forall (fun e => isSpeechService e = false) (run p st evs).2.
Proof.
  revert p st. induction evs as [|ev evs IH]; intros p st; simpl; [constructor|].
  pose proof (no_speech_step p st ev) as H1.
  destruct (step p st ev) as [st1 effs]. specialize (IH (propsAfter p ev) st1).
  destruct (run (propsAfter p ev) st1 evs) as [st2 effs2]. simpl in *.
  by apply Forall_app.
Qed.

(** [Math.random] lies in [0, 1), so the index lies in the list. *)
Lemma randomIndex_lt (rnd : spec_float) :
  Js.isRandom rnd = true ->
  exists i, randomIndex rnd = Some i /\ (0 <= i < Z.of_nat (length responses))%Z.
Proof.
  intros H. unfold randomIndex.
  change (Z.of_nat (length responses)) with 5%Z.
  by apply random_times_five.
Qed.

Lemma responseAt_In (i : Z) :
  (0 <= i < Z.of_nat (length responses))%Z -> In (responseAt (Some i)) responses.
Proof.
  intros H. unfold responseAt.
  destruct (Z.leb_spec 0 i); [|lia].
  destruct (responses !! Z.to_nat i) as [r|] eqn:E.
  - cbn [default]. apply (proj1 (list_elem_of_In _ _)).
    by eapply list_elem_of_lookup_2.
  - apply lookup_ge_None in E. lia.
Qed.

End SimulatedChatFacts.

(** ** The turn discipline of the two chat pages *)

(** C1. On both chat pages at most one turn is in flight: in every state
    reached from mounting - by typing, sending, responses arriving,
    toggles, and the parent changing agent or conversation - at most one
    call of the send handler waits for its response, one waits exactly
    while [isLoading] is set, and while one waits a click on send or the
    Enter key changes nothing and starts no request; the send handler
    itself returns without effect whenever [isLoading] is true. *)
Theorem C1_one_turn_in_flight :
  (forall (p : ChatInterface.Props) (now : Z) (evs : list ChatInterface.Event),
     (length (ChatInterface.inflight (ChatInterface.reached p now evs)) <= 1)%nat
     /\ (ChatInterface.isLoading (ChatInterface.reached p now evs) = true
         <-> length (ChatInterface.inflight (ChatInterface.reached p now evs)) = 1%nat)
     /\ (ChatInterface.inflight (ChatInterface.reached p now evs) <> [] ->
         forall (p' : ChatInterface.Props) (now' : Z),
           ChatInterface.step p' (ChatInterface.reached p now evs)
             (ChatInterface.ClickSend now')
           = (ChatInterface.reached p now evs, [])
           /\ ChatInterface.step p' (ChatInterface.reached p now evs)
                (ChatInterface.KeyDownEnter now')
              = (ChatInterface.reached p now evs, [])))
  /\ (forall (p : ChatInterface.Props) (now : Z) (st : ChatInterface.State),
        ChatInterface.isLoading st = true ->
        ChatInterface.sendMessage p now st = (st, []))
  /\ (forall (p : ChatInterfaceSimulated.Props) (now : Z)
             (evs : list ChatInterfaceSimulated.Event),
        (length (ChatInterfaceSimulated.timers
                   (ChatInterfaceSimulated.reached p now evs)) <= 1)%nat
        /\ (ChatInterfaceSimulated.isLoading
              (ChatInterfaceSimulated.reached p now evs) = true
            <-> length (ChatInterfaceSimulated.timers
                          (ChatInterfaceSimulated.reached p now evs)) = 1%nat))
  /\ (forall (p : ChatInterfaceSimulated.Props) (now : Z)
             (st : ChatInterfaceSimulated.State),
        ChatInterfaceSimulated.isLoading st = true ->
        ChatInterfaceSimulated.handleSendMessage p now st = (st, [])).
Proof.
  split; [|split; [|split]].
  - intros p now evs.
    pose proof (chatInv_run p evs _ (chatInv_mount p now)) as H.
    fold (ChatInterface.reached p now evs) in H.
    set (st := (ChatInterface.reached p now evs)) in *.
    unfold ChatInterface.chatInv in H.
    split; [|split].
    + destruct (ChatInterface.isLoading st); lia.
    + destruct (ChatInterface.isLoading st); split; (done || lia).
    + intros Hne p' now'.
      assert (Hl : ChatInterface.isLoading st = true).
      { destruct (ChatInterface.isLoading st); [done|].
        destruct (ChatInterface.inflight st); [done | simpl in H; lia]. }
      simpl. unfold ChatInterface.sendDisabled, ChatInterface.inputDisabled.
      rewrite Hl, orb_true_r. done.
  - apply sendMessage_loading.
  - intros p now evs.
    assert (H0 : ChatInterfaceSimulated.chatInv (ChatInterfaceSimulated.mount p now))
      by (by apply simInv_welcomeEffect).
    pose proof (simInv_run p evs _ H0) as H.
    fold (ChatInterfaceSimulated.reached p now evs) in H.
    set (st := (ChatInterfaceSimulated.reached p now evs)) in *.
    unfold ChatInterfaceSimulated.chatInv in H.
    destruct (ChatInterfaceSimulated.isLoading st); split; try split; (done || lia).
  - apply handleSendMessage_loading.
Qed.

(** C3, as stated, fails on the page: with the turn of "first" in flight
    the input is disabled, so typing "second" and "third" and pressing
    send or Enter changes nothing; and even with "second" standing in the
    input cell, [sendMessage] and the Enter key leave the state as it is
    and post nothing.  When the first turn has ended only "first" has
    been posted and shown, the input is empty and no call waits: the
    later texts were kept in no queue and are never sent. *)
Lemma C3_later_messages_not_queued :
  ChatInterface.inflight Samples.firstInFlight <> []
  /\ ChatInterface.run Samples.props Samples.firstInFlight
       [ChatInterface.Change "second"; ChatInterface.KeyDownEnter 2;
        ChatInterface.Change "third"; ChatInterface.ClickSend 3]
     = (Samples.firstInFlight, [])
  /\ ChatInterface.sendMessage Samples.props 2
       (ChatInterface.setInputMessage "second" Samples.firstInFlight)
     = (ChatInterface.setInputMessage "second" Samples.firstInFlight, [])
  /\ ChatInterface.posted
       (ChatInterface.performed Samples.props 0 Samples.threeSubmissions)
     = ["first"]
  /\ ChatInterface.userContents
       (ChatInterface.reached Samples.props 0 Samples.threeSubmissions)
     = ["first"]
  /\ ChatInterface.inputMessage
       (ChatInterface.reached Samples.props 0 Samples.threeSubmissions)
     = ""
  /\ ChatInterface.inflight
       (ChatInterface.reached Samples.props 0 Samples.threeSubmissions)
     = [].
Proof. vm_compute. repeat split; done. Qed.

(** C3, amended. While a turn is in flight the input is disabled and the
    send handler returns without effect, so a message submitted then is
    dropped, not queued.  In every reachable state a call of the send
    handler either does nothing, or finds no request waiting, shows the
    trimmed input as a user message and posts exactly that input at
    once; no other event posts, and never more than one request waits.
    So the accepted messages are posted one at a time in the order they
    were accepted: as long as the parent does not change agent or
    conversation, the inputs posted so far are exactly the user messages
    shown, in the same order. *)
Theorem C3_accepted_messages_posted_in_order :
  (forall (p : ChatInterface.Props) (now : Z) (st : ChatInterface.State),
     ChatInterface.isLoading st = true ->
     ChatInterface.sendMessage p now st = (st, [])
     /\ (forall v, ChatInterface.step p st (ChatInterface.Change v) = (st, []))
     /\ (forall now', ChatInterface.step p st (ChatInterface.KeyDownEnter now') = (st, []))
     /\ (forall now', ChatInterface.step p st (ChatInterface.ClickSend now') = (st, [])))
  /\ (forall (p : ChatInterface.Props) (now : Z) (evs : list ChatInterface.Event)
             (p' : ChatInterface.Props) (now' : Z),
        ChatInterface.sendMessage p' now'
          (ChatInterface.reached p now evs)
        = (ChatInterface.reached p now evs, [])
        \/ (ChatInterface.inflight
              (ChatInterface.reached p now evs) = []
            /\ exists body,
                 (ChatInterface.sendMessage p' now'
                    (ChatInterface.reached p now evs)).2
                 = [ChatInterface.ApiPost "/api/v1/agent/invoke" body]
                 /\ ChatInterface.user_input body
                    = Js.trim (ChatInterface.inputMessage
                                 (ChatInterface.reached p now evs))
                 /\ ChatInterface.messages
                      (ChatInterface.sendMessage p' now'
                         (ChatInterface.reached p now evs)).1
                    = ChatInterface.messages
                        (ChatInterface.reached p now evs) ++
                      [ {| ChatInterface.id := ChatInterface.IdOfTime now';
                           ChatInterface.content := ChatInterface.user_input body;
                           ChatInterface.role := ChatInterface.user;
                           ChatInterface.timestamp := now' |} ]))
  /\ (forall (p : ChatInterface.Props) (st : ChatInterface.State)
             (ev : ChatInterface.Event),
        match ev with
        | ChatInterface.KeyDownEnter _ | ChatInterface.ClickSend _ => True
        | _ => ChatInterface.posted (ChatInterface.step p st ev).2 = []
        end)
  /\ (forall (p : ChatInterface.Props) (now : Z) (evs : list ChatInterface.Event),
        (length (ChatInterface.inflight
                   (ChatInterface.reached p now evs))
         <= 1)%nat
        /\ (Forall (fun ev => ChatInterface.isPropsChanged ev = false) evs ->
            ChatInterface.posted
              (ChatInterface.performed p now evs)
            = ChatInterface.userContents
                (ChatInterface.reached p now evs))).
Proof.
  split; [|split; [|split]].
  - intros p now st Hl. split; [by apply sendMessage_loading|].
    simpl. unfold ChatInterface.inputDisabled, ChatInterface.sendDisabled.
    rewrite Hl, orb_true_r. done.
  - intros p now evs p' now'.
    pose proof (chatInv_run p evs _ (chatInv_mount p now)) as H.
    fold (ChatInterface.reached p now evs) in H.
    set (st := (ChatInterface.reached p now evs)) in *.
    unfold ChatInterface.chatInv in H.
    destruct (ChatInterface.agent p') as [a|] eqn:Ha;
      [|left; unfold ChatInterface.sendMessage; by rewrite Ha].
    destruct (ChatInterface.sendDisabled st) eqn:Hd.
    + left. unfold ChatInterface.sendMessage. rewrite Ha.
      unfold ChatInterface.sendDisabled in Hd. by rewrite Hd.
    + right. rewrite (sendMessage_accepted p' a now' st Ha Hd). cbn zeta.
      unfold ChatInterface.sendDisabled in Hd.
      apply orb_false_iff in Hd as [_ Hl]. rewrite Hl in H.
      split; [by destruct (ChatInterface.inflight st)|].
      eexists. split; [reflexivity|]. split; reflexivity.
  - apply posted_other.
  - intros p now evs.
    pose proof (chatInv_run p evs _ (chatInv_mount p now)) as H.
    fold (ChatInterface.reached p now evs) in H.
    unfold ChatInterface.chatInv in H. split.
    + destruct (ChatInterface.isLoading _); lia.
    + intros Hevs.
      pose proof (posted_run p evs (ChatInterface.mount p now) Hevs) as Hp.
      rewrite userContents_mount in Hp. done.
Qed.

(** ** Failures of the agent call *)

(** C4. However the agent call ends - [api.post] rejects, the response is
    missing, reports failure or carries no reply text - the rest of
    [sendMessage] completes normally (nothing is thrown out of the
    handler), [isLoading] is cleared, exactly one assistant message is
    appended to the conversation, which is the reply when there is one
    and the notice "Error: Agent unavailable" together with an error
    toast otherwise, and the page accepts the next message. *)
Theorem C4_agent_errors_contained :
  forall (now : Z) (r : Js.thrown + option ChatInterface.AgentInvokeResponse)
         (st : ChatInterface.State),
    Exec.outcome (ChatInterface.sendMessage_resume now (ChatInterface.settled r) st)
      = Exec.Done tt
    /\ ChatInterface.isLoading
         (Exec.state (ChatInterface.sendMessage_resume now (ChatInterface.settled r) st))
       = false
    /\ ChatInterface.inflight
         (Exec.state (ChatInterface.sendMessage_resume now (ChatInterface.settled r) st))
       = ChatInterface.inflight st
    /\ ChatInterface.messages
         (Exec.state (ChatInterface.sendMessage_resume now (ChatInterface.settled r) st))
       = ChatInterface.messages st ++
         [ match r with
           | inr data =>
               match ChatInterface.replyOf data with
               | Some reply =>
                   {| ChatInterface.id := ChatInterface.IdOfTime (now + 1);
                      ChatInterface.content := reply;
                      ChatInterface.role := ChatInterface.assistant;
                      ChatInterface.timestamp := now |}
               | None => ChatInterface.errorMsg now
               end
           | inl _ => ChatInterface.errorMsg now
           end ]
    /\ Exec.effects (ChatInterface.sendMessage_resume now (ChatInterface.settled r) st)
       = match r with
         | inr data =>
             match ChatInterface.replyOf data with
             | Some _ => []
             | None => [ChatInterface.ConsoleError;
                        ChatInterface.ToastError "Failed to get agent response"]
             end
         | inl _ => [ChatInterface.ConsoleError;
                     ChatInterface.ToastError "Failed to get agent response"]
         end
    /\ ChatInterface.content (ChatInterface.errorMsg now) = "⚠️ Error: Agent unavailable"
    /\ ChatInterface.role (ChatInterface.errorMsg now) = ChatInterface.assistant
    /\ (forall (p : ChatInterface.Props) (a : ChatInterface.Agent)
               (text : string) (now' : Z),
          ChatInterface.agent p = Some a ->
          Js.truthy (Js.trim text) = true ->
          exists body,
            (ChatInterface.step p
               (ChatInterface.setInputMessage text
                  (Exec.state (ChatInterface.sendMessage_resume now
                                 (ChatInterface.settled r) st)))
               (ChatInterface.ClickSend now')).2
            = [ChatInterface.ApiPost "/api/v1/agent/invoke" body]
            /\ ChatInterface.user_input body = Js.trim text).
Proof.
  intros now r st. rewrite sendMessage_resume_eq.
  assert (Hnext : forall st' (p : ChatInterface.Props) (a : ChatInterface.Agent)
                         (text : string) (now' : Z),
            ChatInterface.isLoading st' = false ->
            ChatInterface.agent p = Some a ->
            Js.truthy (Js.trim text) = true ->
            exists body,
              (ChatInterface.step p (ChatInterface.setInputMessage text st')
                 (ChatInterface.ClickSend now')).2
              = [ChatInterface.ApiPost "/api/v1/agent/invoke" body]
              /\ ChatInterface.user_input body = Js.trim text).
  { intros st' p a text now' Hl Ha Ht. simpl.
    unfold ChatInterface.sendDisabled, ChatInterface.sendMessage. simpl.
    rewrite Hl, Ht, Ha. simpl. eexists. split; reflexivity. }
  destruct r as [e|data]; [|destruct (ChatInterface.replyOf data)];
    repeat split; try reflexivity; intros; by eapply Hnext.
Qed.

(** ** Turns without speech synthesis *)

(** C5. Every request of the chat page is sent with [tts_enabled] false.
    When such a turn completes - the response reports success and carries
    a reply - the whole turn appends the user message and then one
    assistant message whose text is the reply, which is not empty; it is
    not the error notice, no error is logged or toasted and nothing else
    is performed (no audio is attached or played: a message carries text
    only), and the turn is over ([isLoading] false, no call waiting). *)
Theorem C5_text_only_turn_completes :
  forall (p : ChatInterface.Props) (a : ChatInterface.Agent)
         (st : ChatInterface.State) (now now' : Z)
         (data : option ChatInterface.AgentInvokeResponse) (reply : string),
    ChatInterface.agent p = Some a ->
    ChatInterface.sendDisabled st = false ->
    ChatInterface.inflight st = [] ->
    ChatInterface.replyOf data = Some reply ->
    exists body,
      (ChatInterface.run p st
         [ChatInterface.ClickSend now; ChatInterface.InvokeSettled 0 now' (inr data)]).2
      = [ChatInterface.ApiPost "/api/v1/agent/invoke" body]
      /\ ChatInterface.tts_enabled body = false
      /\ ChatInterface.user_input body = Js.trim (ChatInterface.inputMessage st)
      /\ ChatInterface.messages
           (ChatInterface.run p st
              [ChatInterface.ClickSend now;
               ChatInterface.InvokeSettled 0 now' (inr data)]).1
         = ChatInterface.messages st ++
           [ {| ChatInterface.id := ChatInterface.IdOfTime now;
                ChatInterface.content := Js.trim (ChatInterface.inputMessage st);
                ChatInterface.role := ChatInterface.user;
                ChatInterface.timestamp := now |};
             {| ChatInterface.id := ChatInterface.IdOfTime (now' + 1);
                ChatInterface.content := reply;
                ChatInterface.role := ChatInterface.assistant;
                ChatInterface.timestamp := now' |} ]
      /\ reply <> ""
      /\ ChatInterface.isLoading
           (ChatInterface.run p st
              [ChatInterface.ClickSend now;
               ChatInterface.InvokeSettled 0 now' (inr data)]).1 = false
      /\ ChatInterface.inflight
           (ChatInterface.run p st
              [ChatInterface.ClickSend now;
               ChatInterface.InvokeSettled 0 now' (inr data)]).1 = [].
Proof.
  intros p a st now now' data reply Ha Hd Hq Hr.
  cbn [ChatInterface.run ChatInterface.step]. rewrite Hd.
  rewrite (sendMessage_accepted p a now st Ha Hd). cbn zeta.
  cbn [ChatInterface.inflight ChatInterface.setInflight ChatInterface.setIsLoading
       ChatInterface.setInputMessage ChatInterface.setMessages].
  rewrite Hq. cbn [app lookup list_lookup].
  rewrite sendMessage_resume_eq, Hr.
  eexists. split; [reflexivity|]. cbn.
  repeat split; try reflexivity.
  - by rewrite <- app_assoc.
  - by eapply replyOf_nonempty.
  - by rewrite Hq.
Qed.

(** A turn on the freshly mounted page: " hi " is sent and answered. *)
Lemma C5_text_only_turn_completes_witness :
  exists body,
    (ChatInterface.run Samples.props
       (ChatInterface.setInputMessage " hi " (ChatInterface.mount Samples.props 0))
       [ChatInterface.ClickSend 1;
        ChatInterface.InvokeSettled 0 2 (Samples.replied "hello")]).2
    = [ChatInterface.ApiPost "/api/v1/agent/invoke" body]
    /\ ChatInterface.tts_enabled body = false.
Proof.
  destruct (C5_text_only_turn_completes Samples.props Samples.agent
              (ChatInterface.setInputMessage " hi " (ChatInterface.mount Samples.props 0))
              1 2
              (Some {| ChatInterface.success := true;
                       ChatInterface.agent_response := Some "hello";
                       ChatInterface.error := None |})
              "hello" eq_refl eq_refl eq_refl eq_refl)
    as (body & H1 & H2 & _).
  exists body. split; [exact H1 | exact H2].
Defined.

(** ** The simulated answers *)

(** C7. On the simulated chat page a sent message starts nothing but a
    timer of 1500 ms; when the timer fires the typing indicator is
    replaced by an assistant message whose text is one of the five canned
    responses (chosen by [Math.random], a binary64 value in [0, 1),
    through the rounded product and its floor); and over
    any sequence of events of the page no handler reaches speech
    recognition or speech synthesis. *)
Theorem C7_simulated_responses :
  forall (p : ChatInterfaceSimulated.Props) (a : ChatInterfaceSimulated.Agent)
         (st : ChatInterfaceSimulated.State) (now now' : Z) (rnd : spec_float),
    ChatInterfaceSimulated.agent p = Some a ->
    ChatInterfaceSimulated.sendDisabled st = false ->
    ChatInterfaceSimulated.timers st = [] ->
    Js.isRandom rnd = true ->
    (ChatInterfaceSimulated.run p st
       [ChatInterfaceSimulated.ClickSend now;
        ChatInterfaceSimulated.TimerFired 0 now' rnd]).2
    = [ChatInterfaceSimulated.SetTimeout 1500]
    /\ (exists reply,
          In reply ChatInterfaceSimulated.responses
          /\ ChatInterfaceSimulated.messages
               (ChatInterfaceSimulated.run p st
                  [ChatInterfaceSimulated.ClickSend now;
                   ChatInterfaceSimulated.TimerFired 0 now' rnd]).1
             = ChatInterfaceSimulated.notTyping (ChatInterfaceSimulated.messages st) ++
               [ {| ChatInterfaceSimulated.id := ChatInterfaceSimulated.IdOfTime now;
                    ChatInterfaceSimulated.content :=
                      Js.trim (ChatInterfaceSimulated.inputMessage st);
                    ChatInterfaceSimulated.role := ChatInterfaceSimulated.user;
                    ChatInterfaceSimulated.timestamp := now;
                    ChatInterfaceSimulated.isTyping := false |};
                 {| ChatInterfaceSimulated.id := ChatInterfaceSimulated.IdOfTime (now' + 1);
                    ChatInterfaceSimulated.content := reply;
                    ChatInterfaceSimulated.role := ChatInterfaceSimulated.assistant;
                    ChatInterfaceSimulated.timestamp := now';
                    ChatInterfaceSimulated.isTyping := false |} ])
    /\ length ChatInterfaceSimulated.responses = 5%nat
    /\ (forall (p0 : ChatInterfaceSimulated.Props) (st0 : ChatInterfaceSimulated.State)
               (evs : list ChatInterfaceSimulated.Event),
          Forall (fun e => ChatInterfaceSimulated.isSpeechService e = false)
                 (ChatInterfaceSimulated.run p0 st0 evs).2).
Proof.
  intros p a st now now' rnd Ha Hd Hq Hrnd.
  cbn [ChatInterfaceSimulated.run ChatInterfaceSimulated.step]. rewrite Hd.
  unfold ChatInterfaceSimulated.handleSendMessage. rewrite Ha.
  unfold ChatInterfaceSimulated.sendDisabled in Hd. rewrite Hd.
  cbn [ChatInterfaceSimulated.timers ChatInterfaceSimulated.setTimers
       ChatInterfaceSimulated.setMessages ChatInterfaceSimulated.setIsLoading
       ChatInterfaceSimulated.setInputMessage].
  rewrite Hq. cbn [app lookup list_lookup].
  split; [reflexivity|].
  split; [|split; [reflexivity | intros; apply no_speech_run]].
  exists (ChatInterfaceSimulated.responseAt (ChatInterfaceSimulated.randomIndex rnd)).
  split; [destruct (randomIndex_lt rnd Hrnd) as (i & -> & Hi); by apply responseAt_In|].
  cbn. unfold ChatInterfaceSimulated.notTyping.
  rewrite !filter_app, <- !app_assoc. reflexivity.
Qed.

(** A simulated turn with [Math.random] returning 0.7. *)
Lemma C7_simulated_responses_witness :
  (ChatInterfaceSimulated.run Samples.simProps Samples.simTyped
     [ChatInterfaceSimulated.ClickSend 1;
      ChatInterfaceSimulated.TimerFired 0 1501 MoreSamples.sevenTenths]).2
  = [ChatInterfaceSimulated.SetTimeout 1500].
Proof.
  destruct (C7_simulated_responses Samples.simProps Samples.simAgent
              Samples.simTyped 1 1501 MoreSamples.sevenTenths
              eq_refl eq_refl eq_refl)
    as (H & _).
  - vm_compute. reflexivity.
  - exact H.
Defined.

Example simulated_turn :
  ChatInterfaceSimulated.content <$>
    ChatInterfaceSimulated.messages
      (ChatInterfaceSimulated.run Samples.simProps Samples.simTyped
         [ChatInterfaceSimulated.ClickSend 1;
          ChatInterfaceSimulated.TimerFired 0 1501 MoreSamples.sevenTenths]).1
  = ["Hello! I'm Rick. A scientist. How can I help you today?"; "hello";
     "Wubba lubba dub dub! But seriously, your question touches on some fundamental principles of..."].
Proof. vm_compute. reflexivity. Qed.

(** The rounding of the product decides the index: the value nearest to
    0.6 lies below 0.6, its product with 5 rounds up to 3, and the fourth
    response is drawn; the value nearest to 0.7 gives 3 as well, the
    largest value below 1 gives 4, and zero gives 0. *)
Example random_indices :
  ChatInterfaceSimulated.randomIndex MoreSamples.sixTenths = Some 3%Z
  /\ ChatInterfaceSimulated.randomIndex MoreSamples.sevenTenths = Some 3%Z
  /\ ChatInterfaceSimulated.randomIndex (S754_finite false 9007199254740991 (-53))
     = Some 4%Z
  /\ ChatInterfaceSimulated.randomIndex (S754_zero false) = Some 0%Z
  /\ Js.isRandom MoreSamples.sixTenths = true
  /\ Js.isRandom (S754_finite false 9007199254740991 (-53)) = true
  /\ Js.isRandom (Js.ofZ 1) = false.
Proof. vm_compute. repeat split; reflexivity. Qed.

(** ** Joining a room *)

Section ConnectFacts.
Import VoiceChatPage.

(** [handleConnect], case by case on what its promises settle to. *)
Lemma handleConnect_eq (room : bool) (w : Awaited) (st : State) :
  handleConnect room w st =
  let connecting := setConnectionError None (setIsConnecting true st) in
  let failed (e : Js.thrown) :=
    setIsConnecting false
      (setConnectionError
         (Some (if Js.instanceofError e then Js.message e else "Connection failed"))
         connecting) in
  let request := FetchToken (roomName st) (participantName st) in
  match fetched w with
  | Exec.NeverSettles => (Exec.Suspended, connecting, [request])
  | Exec.Rejected e => (Exec.Done tt, failed e, [request; ConsoleError])
  | Exec.Fulfilled td =>
      if success td then
        let join := Connect (url td) (token td) in
        match joined w with
        | Exec.NeverSettles => (Exec.Suspended, connecting, [request; join])
        | Exec.Rejected e => (Exec.Done tt, failed e, [request; join; ConsoleError])
        | Exec.Fulfilled _ =>
            if room then
              let mic := SetMicrophoneEnabled (isAudioEnabled st) in
              match microphone w with
              | Exec.NeverSettles => (Exec.Suspended, connecting, [request; join; mic])
              | Exec.Rejected e =>
                  (Exec.Done tt, failed e, [request; join; mic; ConsoleError])
              | Exec.Fulfilled _ =>
                  (Exec.Done tt, setIsConnecting false connecting, [request; join; mic])
              end
            else (Exec.Done tt, setIsConnecting false connecting, [request; join])
        end
      else
        (Exec.Done tt,
         failed (Js.ErrorObj (Js.or_else (default "" (detail td)) "Failed to get token")),
         [request; ConsoleError])
  end.
Proof.
  unfold handleConnect, Exec.try_catch_finally, Exec.finally, Exec.try_catch,
    Exec.bind, Exec.await, Exec.modify, Exec.emit, Exec.throw, Exec.get, Exec.ret.
  cbn zeta.
  destruct (fetched w) as [td|e|]; cbn; [|done..].
  destruct (success td); cbn; [|done].
  destruct (joined w) as [[]|e|]; cbn; [|done..].
  destruct room; cbn; [|done].
  destruct (microphone w) as [[]|e|]; cbn; done.
Qed.

End ConnectFacts.

(** C6, as stated, fails: when the token endpoint answers without
    success, [handleConnect] surfaces the error and ends without having
    called [connect] - no transport join is attempted. *)
Lemma C6_no_join_without_token :
  Exec.effects (VoiceChatPage.handleConnect true Samples.tokenDenied Samples.page)
  = [VoiceChatPage.FetchToken "voice-chat-1" "User-k3x9qa"; VoiceChatPage.ConsoleError]
  /\ existsb VoiceChatPage.isConnect
       (Exec.effects (VoiceChatPage.handleConnect true Samples.tokenDenied Samples.page))
     = false
  /\ VoiceChatPage.connectionError
       (Exec.state (VoiceChatPage.handleConnect true Samples.tokenDenied Samples.page))
     = Some "LiveKit not configured".
Proof. vm_compute. repeat split; reflexivity. Qed.

(** C6, amended. Every attempt first puts the page in the connecting
    state (isConnecting set, the earlier error cleared) and requests a
    token, and stays so while the request is open.  [connect] is called
    exactly when the token response reports success.  If the token
    request fails, the token is refused, or [connect] rejects - which is
    how a join timeout of the provider would arrive - the handler ends
    normally with the error message in [connectionError] and isConnecting
    cleared, and the microphone is not touched.  [handleConnect] arms no
    timeout of its own: while [connect] does not settle the page stays
    connecting, with no error. *)
Theorem C6_connect_attempt :
  forall (room : bool) (w : VoiceChatPage.Awaited) (st : VoiceChatPage.State),
    (VoiceChatPage.fetched w = Exec.NeverSettles ->
     VoiceChatPage.handleConnect room w st
     = (Exec.Suspended,
        {| VoiceChatPage.roomName := VoiceChatPage.roomName st;
           VoiceChatPage.participantName := VoiceChatPage.participantName st;
           VoiceChatPage.isAudioEnabled := VoiceChatPage.isAudioEnabled st;
           VoiceChatPage.isConnecting := true;
           VoiceChatPage.connectionError := None |},
        [VoiceChatPage.FetchToken (VoiceChatPage.roomName st)
                                  (VoiceChatPage.participantName st)]))
    /\ (existsb VoiceChatPage.isConnect
          (Exec.effects (VoiceChatPage.handleConnect room w st)) = true
        <-> exists td, VoiceChatPage.fetched w = Exec.Fulfilled td
                       /\ VoiceChatPage.success td = true)
    /\ (forall e,
          VoiceChatPage.fetched w = Exec.Rejected e
          \/ (exists td, VoiceChatPage.fetched w = Exec.Fulfilled td
                         /\ VoiceChatPage.success td = true
                         /\ VoiceChatPage.joined w = Exec.Rejected e) ->
          Exec.outcome (VoiceChatPage.handleConnect room w st) = Exec.Done tt
          /\ Exec.state (VoiceChatPage.handleConnect room w st)
             = {| VoiceChatPage.roomName := VoiceChatPage.roomName st;
                  VoiceChatPage.participantName := VoiceChatPage.participantName st;
                  VoiceChatPage.isAudioEnabled := VoiceChatPage.isAudioEnabled st;
                  VoiceChatPage.isConnecting := false;
                  VoiceChatPage.connectionError :=
                    Some (if Js.instanceofError e then Js.message e
                          else "Connection failed") |}
          /\ existsb VoiceChatPage.isMicrophone
               (Exec.effects (VoiceChatPage.handleConnect room w st)) = false)
    /\ (forall td,
          VoiceChatPage.fetched w = Exec.Fulfilled td ->
          VoiceChatPage.success td = false ->
          VoiceChatPage.handleConnect room w st
          = (Exec.Done tt,
             {| VoiceChatPage.roomName := VoiceChatPage.roomName st;
                VoiceChatPage.participantName := VoiceChatPage.participantName st;
                VoiceChatPage.isAudioEnabled := VoiceChatPage.isAudioEnabled st;
                VoiceChatPage.isConnecting := false;
                VoiceChatPage.connectionError :=
                  Some (Js.or_else (default "" (VoiceChatPage.detail td))
                                   "Failed to get token") |},
             [VoiceChatPage.FetchToken (VoiceChatPage.roomName st)
                                       (VoiceChatPage.participantName st);
              VoiceChatPage.ConsoleError]))
    /\ (forall td,
          VoiceChatPage.fetched w = Exec.Fulfilled td ->
          VoiceChatPage.success td = true ->
          VoiceChatPage.joined w = Exec.NeverSettles ->
          Exec.outcome (VoiceChatPage.handleConnect room w st) = Exec.Suspended
          /\ VoiceChatPage.isConnecting
               (Exec.state (VoiceChatPage.handleConnect room w st)) = true
          /\ VoiceChatPage.connectionError
               (Exec.state (VoiceChatPage.handleConnect room w st)) = None)
    /\ (Exec.outcome (VoiceChatPage.handleConnect room w st) <> Exec.Suspended ->
        VoiceChatPage.isConnecting
          (Exec.state (VoiceChatPage.handleConnect room w st)) = false).
Proof.
  intros room w st. rewrite handleConnect_eq. cbn zeta.
  split; [|split; [|split; [|split; [|split]]]].
  - by intros ->.
  - split.
    + intros H. destruct (VoiceChatPage.fetched w) as [td|e|]; [|done..].
      exists td. split; [done|]. by destruct (VoiceChatPage.success td).
    + intros (td & -> & ->).
      destruct (VoiceChatPage.joined w) as [[]|e|]; [|done..].
      destruct room; [|done]. by destruct (VoiceChatPage.microphone w) as [[]|e|].
  - intros e [->|(td & -> & -> & ->)]; done.
  - by intros td -> ->.
  - by intros td -> -> ->.
  - destruct (VoiceChatPage.fetched w) as [td|e|]; [|done..].
    destruct (VoiceChatPage.success td); [|done].
    destruct (VoiceChatPage.joined w) as [[]|e|]; [|done..].
    destruct room; [|done]. by destruct (VoiceChatPage.microphone w) as [[]|e|].
Qed.

Example join_rejected :
  Exec.state (VoiceChatPage.handleConnect true Samples.joinRejected Samples.page)
  = VoiceChatPage.setConnectionError
      (Some "could not establish signal connection") Samples.page
  /\ Exec.effects (VoiceChatPage.handleConnect true Samples.joinRejected Samples.page)
     = [VoiceChatPage.FetchToken "voice-chat-1" "User-k3x9qa";
        VoiceChatPage.Connect "wss://livekit.example" "jwt";
        VoiceChatPage.ConsoleError].
Proof. vm_compute. split; reflexivity. Qed.

(** ** The test panel *)

Example parse_samples :
  JSON.parse ("{" +:+ String JSON.quote ("query" +:+ String JSON.quote
                 ": [1, 2.5e-3, true, null]}"))
  = Some (JSON.Object
            [("query", JSON.Array [JSON.Number "1"; JSON.Number "2.5e-3";
                                   JSON.Bool true; JSON.Null])])
  /\ JSON.parse "  [ ]  " = Some (JSON.Array [])
  /\ JSON.parse "{query: 1}" = None
  /\ JSON.parse "[1,]" = None
  /\ JSON.parse "" = None.
Proof. vm_compute. repeat split; reflexivity. Qed.

(** C10, as stated, fails: a parameter text of one blank is not empty and
    is not valid JSON, yet [handleTest] reports no error and invokes the
    action, with the empty object for parameters. *)
Lemma C10_blank_parameters_invoke_action :
  MCPTestPanel.testParams Samples.blankParams <> ""
  /\ JSON.parse (MCPTestPanel.testParams Samples.blankParams) = None
  /\ Exec.effects
       (MCPTestPanel.handleTest "search" (Exec.Fulfilled Samples.testResponse)
          Samples.blankParams)
     = [MCPTestPanel.TestAction "search" "web_search" (JSON.Object [])]
  /\ MCPTestPanel.error
       (Exec.state
          (MCPTestPanel.handleTest "search" (Exec.Fulfilled Samples.testResponse)
             Samples.blankParams))
     = None.
Proof. vm_compute. repeat split; (reflexivity || discriminate). Qed.

(** C10, amended. For every run of a test (an action is selected, as the
    run button requires): if the parameter text, trimmed of surrounding
    white space, is not empty and is not valid JSON, the panel reports
    "Invalid JSON in test parameters", the connector action is not
    invoked, the result shown before is cleared, and nothing else
    changes - the selected action, the parameter text and the hook's
    loading flag and error stay as they were. *)
Theorem C10_invalid_json_rejected :
  forall (connectorId : string) (apiCall : Exec.settle MCPTestPanel.Response)
         (st : MCPTestPanel.State),
    Js.truthy (MCPTestPanel.selectedAction st) = true ->
    Js.truthy (Js.trim (MCPTestPanel.testParams st)) = true ->
    JSON.parse (MCPTestPanel.testParams st) = None ->
    MCPTestPanel.handleTest connectorId apiCall st
    = (Exec.Done tt,
       {| MCPTestPanel.selectedAction := MCPTestPanel.selectedAction st;
          MCPTestPanel.testParams := MCPTestPanel.testParams st;
          MCPTestPanel.testResult := None;
          MCPTestPanel.error := Some "Invalid JSON in test parameters";
          MCPTestPanel.loading := MCPTestPanel.loading st;
          MCPTestPanel.hookError := MCPTestPanel.hookError st |},
       []).
Proof.
  intros connectorId apiCall st Ha Ht Hp.
  unfold MCPTestPanel.handleTest, Exec.bind, Exec.get at 1.
  rewrite Ha. cbn [negb].
  unfold Exec.try_catch, Exec.bind, Exec.modify, Exec.throw.
  rewrite Ht, Hp. reflexivity.
Qed.

(** A run with an unquoted key in the parameter text. *)
Lemma C10_invalid_json_rejected_witness :
  MCPTestPanel.handleTest "search" (Exec.Fulfilled Samples.testResponse)
    Samples.brokenParams
  = (Exec.Done tt,
     {| MCPTestPanel.selectedAction := "web_search";
        MCPTestPanel.testParams := "{query: 1}";
        MCPTestPanel.testResult := None;
        MCPTestPanel.error := Some "Invalid JSON in test parameters";
        MCPTestPanel.loading := false;
        MCPTestPanel.hookError := None |},
     []).
Proof.
  apply (C10_invalid_json_rejected "search" (Exec.Fulfilled Samples.testResponse)
           Samples.brokenParams); vm_compute; reflexivity.
Defined.

(** ** Degradation *)

Section SupervisorFacts.
Import Supervisor.
Variable threshold : nat.

(** The stored level is always the level of the stored flags. *)
Lemma level_computed (ops : list Op) :
  level (after threshold ops) = computeLevel (status (after threshold ops)).
Proof.
  unfold after. generalize start, (eq_refl : level start = computeLevel (status start)).
  induction ops as [|op ops IH]; intros s Hs; simpl; [done|].
  apply IH. destruct op as [c now|c healthy]; simpl.
  - reflexivity.
  - unfold recheckCapability. by destruct healthy.
Qed.

(** The level grows with the set of disabled speech capabilities. *)
Lemma computeLevel_mono (f g : Capability -> CapabilityStatus) :
  (enabled (f STT) = false -> enabled (g STT) = false) ->
  (enabled (f TTS) = false -> enabled (g TTS) = false) ->
  rank (computeLevel f) <= rank (computeLevel g).
Proof.
  unfold computeLevel. intros Hs Ht.
  destruct (enabled (f STT)), (enabled (f TTS)), (enabled (g STT)), (enabled (g TTS));
    simpl; try lia; (specialize (Hs eq_refl) || specialize (Ht eq_refl)); done.
Qed.

(** A failure report never enables a capability. *)
Lemma report_keeps_disabled (c c' : Capability) (now : Z) (s : Session) :
  enabled (status s c') = false ->
  enabled (status (reportCapabilityFailure threshold c now s) c') = false.
Proof.
  intros H. unfold reportCapabilityFailure. simpl.
  case_decide; [subst|done]. simpl. rewrite H. by destruct (_ <=? _).
Qed.

Lemma report_mono (c : Capability) (now : Z) (s : Session) :
  level s = computeLevel (status s) ->
  rank (level s) <= rank (level (reportCapabilityFailure threshold c now s)).
Proof.
  intros ->. change (level (reportCapabilityFailure threshold c now s))
    with (computeLevel (status (reportCapabilityFailure threshold c now s))).
  apply computeLevel_mono; apply report_keeps_disabled.
Qed.

Lemma after_app (ops ops' : list Op) :
  after threshold (ops ++ ops') = fold_left (apply threshold) ops' (after threshold ops).
Proof. unfold after. apply fold_left_app. Qed.

Lemma reports_mono (reports : list (Capability * Z)) (s : Session) :
  level s = computeLevel (status s) ->
  rank (level s) <=
  rank (level (fold_left (apply threshold)
                 (map (fun r => ReportFailure r.1 r.2) reports) s)).
Proof.
  revert s. induction reports as [|[c now] reports IH]; intros s Hs; simpl; [done|].
  etrans; [by apply (report_mono c now)|]. by apply IH.
Qed.

End SupervisorFacts.

(** C2. From a started session, after any history of failure reports and
    health checks: a further failure report never lowers the level (in
    the order None < VoiceOnly < Minimal), so the level is non-decreasing
    along any sequence of failure reports; and an operation that lowers
    the level is a recheckCapability whose health check succeeded. *)
Theorem C2_degradation_monotone :
  forall (threshold : nat) (ops : list Supervisor.Op),
    (forall (c : Supervisor.Capability) (now : Z),
       Supervisor.rank (Supervisor.level (Supervisor.after threshold ops))
       <= Supervisor.rank
            (Supervisor.level
               (Supervisor.reportCapabilityFailure threshold c now
                  (Supervisor.after threshold ops))))
    /\ (forall reports : list (Supervisor.Capability * Z),
          Supervisor.rank (Supervisor.level (Supervisor.after threshold ops))
          <= Supervisor.rank
               (Supervisor.level
                  (Supervisor.after threshold
                     (ops ++ map (fun r => Supervisor.ReportFailure r.1 r.2) reports))))
    /\ (forall op : Supervisor.Op,
          Supervisor.rank
            (Supervisor.level
               (Supervisor.apply threshold (Supervisor.after threshold ops) op))
          < Supervisor.rank (Supervisor.level (Supervisor.after threshold ops)) ->
          exists c, op = Supervisor.Recheck c true).
Proof.
  intros threshold ops.
  pose proof (level_computed threshold ops) as Hl.
  split; [|split].
  - intros c now. by apply report_mono.
  - intros reports. rewrite after_app. by apply reports_mono.
  - intros [c now|c healthy] Hlt.
    + pose proof (report_mono threshold c now _ Hl).
      cbn [Supervisor.apply] in Hlt. lia.
    + destruct healthy; [by exists c|].
      cbn [Supervisor.apply Supervisor.recheckCapability] in Hlt. lia.
Qed.

Example degradation_scenario :
  Supervisor.level
    (Supervisor.after Supervisor.defaultThreshold
       [Supervisor.ReportFailure Supervisor.TTS 1; Supervisor.ReportFailure Supervisor.TTS 2])
  = Supervisor.NoDegradation
  /\ Supervisor.level
       (Supervisor.after Supervisor.defaultThreshold
          [Supervisor.ReportFailure Supervisor.TTS 1; Supervisor.ReportFailure Supervisor.TTS 2;
           Supervisor.ReportFailure Supervisor.TTS 3])
     = Supervisor.VoiceOnly Supervisor.TTSDisabled
  /\ Supervisor.level
       (Supervisor.after 1
          [Supervisor.ReportFailure Supervisor.TTS 1; Supervisor.ReportFailure Supervisor.STT 2])
     = Supervisor.Minimal
  /\ Supervisor.level
       (Supervisor.after 1
          [Supervisor.ReportFailure Supervisor.TTS 1; Supervisor.ReportFailure Supervisor.STT 2;
           Supervisor.Recheck Supervisor.TTS false; Supervisor.Recheck Supervisor.STT true])
     = Supervisor.VoiceOnly Supervisor.TTSDisabled.
Proof. vm_compute. repeat split; reflexivity. Qed.


(** * Further properties of the handlers *)

(** ** Tactics for handlers that await

    A handler is unfolded to the promises it awaits; each way they
    settle is one case. *)

(** Case analysis on what was awaited leaves goals that close by
    discrimination of constructors. *)
Ltac settle_cases :=
  repeat match goal with
         | H : is_Some None |- _ => destruct H as [? [=]]
         | H : _ /\ _ |- _ => destruct H
         | H : _ \/ _ |- _ => destruct H
         | H : ex _ |- _ => destruct H
         | H : False |- _ => destruct H
         | H : ?a = ?a -> _ |- _ => specialize (H eq_refl)
         | H : In _ [] |- _ => destruct H
         | H : In _ (_ :: _) |- _ => destruct H
         | H : _ = _ |- _ => discriminate H
         | H : Exec.Fulfilled _ = Exec.Fulfilled _ |- _ => injection H as <-
         | H : Exec.Rejected _ = Exec.Rejected _ |- _ => injection H as <-
         | H : Some _ = Some _ |- _ => injection H as <-
         | H : Exec.Done _ = Exec.Done _ |- _ => injection H as <-
         | H : Exec.Threw _ = Exec.Threw _ |- _ => injection H as <-
         end;
  try congruence; try done; try (by eexists).

(** The handlers of the connector editor, by what the request settles
    to. *)
Ltac editor_cases apiCall :=
  unfold MCPConnectorEditor.handleSave, MCPConnectorEditor.handleDelete,
    MCPConnectorEditor.handleHealthCheck, MCPConnectorEditor.createOrUpdate,
    MCPConnectorEditor.deleteConnector, MCPConnectorEditor.checkHealth,
    MCPConnectorEditor.handleApiCall, MCPConnectorEditor.catalogAfter,
    Exec.state, Exec.effects, Exec.outcome,
    Exec.try_catch_finally, Exec.finally, Exec.try_catch, Exec.bind,
    Exec.modify, Exec.emit, Exec.await, Exec.throw, Exec.get, Exec.ret;
  let resp := fresh "resp" in
  let e := fresh "e" in
  let r := fresh "r" in
  let Eo := fresh "Eo" in
  let Ej := fresh "Ej" in
  destruct apiCall as [resp|e|];
  [destruct (MCPConnectorEditor.ok resp) eqn:Eo;
   [destruct (MCPConnectorEditor.json resp) as [r|e|] eqn:Ej|]|..];
  cbn -[pretty MCPCatalog.handleConnectorSave MCPCatalog.handleConnectorDelete
        MCPConnectorEditor.deleteQuestion].

(** Introduces what a conjunct assumes and closes the cases that are
    impossible for the way the request settled. *)
Ltac editor_close :=
  intros; try split; intros; unfold is_Some in *; settle_cases;
  simplify_eq; split_and?; try split; intros; settle_cases; simplify_eq;
  repeat match goal with
         | H1 : ?x = _, H2 : ?x = _ |- _ => rewrite H1 in H2; simplify_eq
         end.

(** ** Strings: reversal and trimming *)

Lemma append_nil_r (s : string) : s +:+ "" = s.
Proof. induction s as [|c s IH]; simpl; [done|]. unfold String.app in *. simpl. by rewrite IH. Qed.

Lemma append_assoc (a b c : string) : (a +:+ b) +:+ c = a +:+ (b +:+ c).
Proof.
  induction a as [|x a IH]; [done|].
  change (String x (a +:+ b) +:+ c = String x (a +:+ (b +:+ c))).
  change (String x ((a +:+ b) +:+ c) = String x (a +:+ (b +:+ c))).
  by rewrite IH.
Qed.

Lemma rev_app_spec (s t : string) : String.rev_app s t = String.rev s +:+ t.
Proof.
  unfold String.rev. revert t. induction s as [|c s IH]; intros t; [done|].
  simpl. rewrite (IH (String c t)), (IH (String c "")), append_assoc. done.
Qed.

Lemma rev_cons (c : Ascii.ascii) (s : string) :
  String.rev (String c s) = String.rev s +:+ String c "".
Proof. unfold String.rev at 1. simpl. apply rev_app_spec. Qed.

Lemma rev_append (a b : string) : String.rev (a +:+ b) = String.rev b +:+ String.rev a.
Proof.
  induction a as [|c a IH].
  - change ("" +:+ b) with b. by rewrite append_nil_r.
  - change (String c a +:+ b) with (String c (a +:+ b)).
    by rewrite !rev_cons, IH, append_assoc.
Qed.

Lemma rev_involutive (s : string) : String.rev (String.rev s) = s.
Proof.
  induction s as [|c s IH]; [done|].
  rewrite rev_cons, rev_append, IH. done.
Qed.

Lemma trimStart_headOk (s : string) : Trimmed.headOk (Js.trimStart s).
Proof.
  induction s as [|c s IH]; simpl; [done|].
  destruct (Js.isSpace c) eqn:E; [exact IH | exact E].
Qed.

Lemma trimStart_id (s : string) : Trimmed.headOk s -> Js.trimStart s = s.
Proof. destruct s as [|c s]; simpl; [done|]. by intros ->. Qed.

Lemma trimStart_split (s : string) : exists sp, s = sp +:+ Js.trimStart s.
Proof.
  induction s as [|c s [sp IH]]; simpl.
  - by exists "".
  - destruct (Js.isSpace c).
    + exists (String c sp). change (String c s = String c (sp +:+ Js.trimStart s)).
      by rewrite <- IH.
    + by exists "".
Qed.

Lemma headOk_prefix (t u : string) : Trimmed.headOk (t +:+ u) -> t <> "" -> Trimmed.headOk t.
Proof. destruct t as [|c t]; [done|]. by intros H _. Qed.

(** A trimmed string neither starts nor ends with white space. *)
Lemma trim_headOk (s : string) :
  Trimmed.headOk (Js.trim s) /\ Trimmed.headOk (String.rev (Js.trim s)).
Proof.
  unfold Js.trim.
  set (a := Js.trimStart s).
  set (b := Js.trimStart (String.rev a)).
  assert (Ha : Trimmed.headOk a) by apply trimStart_headOk.
  assert (Hb : Trimmed.headOk b) by apply trimStart_headOk.
  split; [|by rewrite rev_involutive].
  destruct (trimStart_split (String.rev a)) as [sp Hsp]. fold b in Hsp.
  assert (Hrev : a = String.rev b +:+ String.rev sp).
  { rewrite <- (rev_involutive a), Hsp, rev_append. done. }
  destruct (String.rev b) as [|c t] eqn:E; [done|].
  rewrite Hrev in Ha. exact Ha.
Qed.

(** Trimming twice is trimming once. *)
Lemma trim_idempotent (s : string) : Js.trim (Js.trim s) = Js.trim s.
Proof.
  destruct (trim_headOk s) as [H1 H2].
  unfold Js.trim at 1. rewrite (trimStart_id _ H1), (trimStart_id _ H2).
  apply rev_involutive.
Qed.

(** ** ChatInterface (agent API flow): what every run keeps *)

Section AgentChatRuns.
Import ChatInterface.

(** A property of states kept by every step is kept by every run, and a
    property of effects that holds of every step from such states holds
    of every run. *)
Lemma run_invariant (I : State -> Prop) (Q : Effect -> Prop) :
  (forall p st ev, I st -> I (step p st ev).1) ->
  (forall p st ev, I st -> Forall Q (step p st ev).2) ->
  forall evs p st, I st -> I (run p st evs).1 /\ Forall Q (run p st evs).2.
Proof.
  intros HI HQ. induction evs as [|ev evs IH]; intros p st Hst; simpl.
  - split; [done | constructor].
  - pose proof (HI p st ev Hst) as H1. pose proof (HQ p st ev Hst) as H2.
    destruct (step p st ev) as [st1 effs]. simpl in *.
    destruct (IH (propsAfter p ev) st1 H1) as [H4 H5].
    destruct (run (propsAfter p ev) st1 evs) as [st2 effs2]. simpl in *.
    split; [done|]. by apply Forall_app.
Qed.

Lemma sessionId_step (p : Props) (st : State) (ev : Event) :
  sessionId (step p st ev).1 = sessionId st.
Proof.
  destruct ev as [v|now|now|i now r| | |text|p' now]; simpl.
  - by destruct (inputDisabled st).
  - destruct (inputDisabled st); [done|]. unfold sendMessage.
    destruct (agent p); [|done]. by destruct (negb _ || _).
  - destruct (sendDisabled st); [done|]. unfold sendMessage.
    destruct (agent p); [|done]. by destruct (negb _ || _).
  - destruct (inflight st !! i); [|done]. rewrite sendMessage_resume_eq.
    destruct r as [e|data]; [|destruct (replyOf data)]; done.
  - done.
  - done.
  - done.
  - unfold welcomeEffect. destruct (agent p'); [|done].
    by destruct (conversationId p') as [[|]|].
Qed.

Lemma sendMessage_effects (p : Props) (now : Z) (st : State) :
  (sendMessage p now st).2 = [] \/
  exists a, agent p = Some a /\ Js.truthy (Js.trim (inputMessage st)) = true /\
    sendMessage p now st =
    (setInflight (fun q => q ++ [ {| turn_userMsg :=
                                       {| id := IdOfTime now;
                                          content := Js.trim (inputMessage st);
                                          role := user; timestamp := now |};
                                     turn_agent := a |} ])
       (setIsLoading true
          (setInputMessage ""
             (setMessages (fun prev => prev ++
                [ {| id := IdOfTime now; content := Js.trim (inputMessage st);
                     role := user; timestamp := now |} ]) st))),
     [ApiPost "/api/v1/agent/invoke"
        (invokeRequest st a {| id := IdOfTime now;
                               content := Js.trim (inputMessage st);
                               role := user; timestamp := now |})]).
Proof.
  unfold sendMessage. destruct (agent p) as [a|]; [|by left].
  destruct (Js.truthy (Js.trim (inputMessage st))) eqn:Ht; simpl; [|by left].
  destruct (isLoading st); [by left|]. right. by exists a.
Qed.

(** The effects of a step, by cases. *)
Lemma step_effects (p : Props) (st : State) (ev : Event) (e : Effect) :
  In e (step p st ev).2 ->
  match e with
  | ApiPost url body =>
      url = "/api/v1/agent/invoke" /\ session_id body = sessionId st /\
      tts_enabled body = false /\
      user_input body = Js.trim (inputMessage st) /\
      Js.truthy (user_input body) = true
  | _ => True
  end.
Proof.
  assert (Hsend : forall now, In e (sendMessage p now st).2 ->
    match e with
    | ApiPost url body =>
        url = "/api/v1/agent/invoke" /\ session_id body = sessionId st /\
        tts_enabled body = false /\
        user_input body = Js.trim (inputMessage st) /\
        Js.truthy (user_input body) = true
    | _ => True
    end).
  { intros now. destruct (sendMessage_effects p now st) as [->|(a & Ha & Ht & ->)];
      [done|]. intros [<-|[]]. simpl. done. }
  destruct ev as [v|now|now|i now r| | |text|p' now]; simpl.
  - by destruct (inputDisabled st).
  - destruct (inputDisabled st); [done | apply Hsend].
  - destruct (sendDisabled st); [done | apply Hsend].
  - destruct (inflight st !! i); [|done]. rewrite sendMessage_resume_eq.
    destruct r as [err|data]; [|destruct (replyOf data)]; simpl;
      intros H; destruct e; try exact I;
      repeat (destruct H as [H|H]; try discriminate H); done.
  - intros [<-|[]]. done.
  - intros [<-|[]]. done.
  - intros [<-|[<-|[]]]; done.
  - done.
Qed.

End AgentChatRuns.

(** X1. Every request of a chat page, over any sequence of events from
    mounting, goes to the agent endpoint with [tts_enabled] false and
    carries the session id fixed when the page was mounted - also after
    the parent changed agent or conversation. *)
Theorem chat_requests_carry_mount_session :
  forall (p : ChatInterface.Props) (now : Z) (evs : list ChatInterface.Event),
    Forall (fun e =>
              match e with
              | ChatInterface.ApiPost url body =>
                  url = "/api/v1/agent/invoke"
                  /\ ChatInterface.session_id body
                     = ChatInterface.sessionId (ChatInterface.mount p now)
                  /\ ChatInterface.tts_enabled body = false
              | _ => True
              end)
           (ChatInterface.performed p now evs)
    /\ ChatInterface.sessionId (ChatInterface.mount p now)
       = match ChatInterface.conversationId p with
         | Some (String c s) => ChatInterface.OfConversation (String c s)
         | _ => ChatInterface.OfAgentAt
                  (ChatInterface.agent_id <$> ChatInterface.agent p) now
         end.
Proof.
  intros p now evs. split.
  - set (sid := ChatInterface.sessionId (ChatInterface.mount p now)).
    destruct (run_invariant
                (fun st => ChatInterface.sessionId st = sid)
                (fun e => match e with
                          | ChatInterface.ApiPost url body =>
                              url = "/api/v1/agent/invoke"
                              /\ ChatInterface.session_id body = sid
                              /\ ChatInterface.tts_enabled body = false
                          | _ => True
                          end)) with (evs := evs) (p := p)
                                     (st := ChatInterface.mount p now) as [_ H].
    + intros p0 st ev Hs. by rewrite sessionId_step.
    + intros p0 st ev Hs. apply Forall_forall. intros e He.
      apply list_elem_of_In in He.
      pose proof (step_effects p0 st ev e He) as Hy.
      destruct e; try done. rewrite <- Hs. tauto.
    + done.
    + exact H.
  - unfold ChatInterface.mount, ChatInterface.welcomeEffect.
    destruct (ChatInterface.agent p); [|done].
    by destruct (ChatInterface.conversationId p) as [[|]|].
Qed.

Section AgentChatShape.
Import ChatInterface.

Lemma truthy_nonempty (s : string) : Js.truthy s = true -> s <> "".
Proof. by destruct s. Qed.

Lemma user_messages_step (p : Props) (st : State) (ev : Event) :
  Forall (fun m => role m = user ->
            content m <> "" /\ Js.trim (content m) = content m) (messages st) ->
  Forall (fun m => role m = user ->
            content m <> "" /\ Js.trim (content m) = content m)
         (messages (step p st ev).1).
Proof.
  intros H.
  assert (Hsend : forall now,
    Forall (fun m => role m = user ->
              content m <> "" /\ Js.trim (content m) = content m)
           (messages (sendMessage p now st).1)).
  { intros now. destruct (sendMessage_effects p now st) as [He|(a & Ha & Ht & ->)].
    - unfold sendMessage in *. destruct (agent p); [|done].
      by destruct (negb _ || _).
    - simpl. apply Forall_app. split; [done|]. constructor; [|constructor].
      simpl. intros _. split; [by apply truthy_nonempty | apply trim_idempotent]. }
  destruct ev as [v|now|now|i now r| | |text|p' now]; simpl.
  - by destruct (inputDisabled st).
  - destruct (inputDisabled st); [done | apply Hsend].
  - destruct (sendDisabled st); [done | apply Hsend].
  - destruct (inflight st !! i); [|done]. rewrite sendMessage_resume_eq.
    destruct r as [e|data]; [|destruct (replyOf data)]; simpl;
      (apply Forall_app; split; [done|]; constructor; [done | constructor]).
  - done.
  - done.
  - done.
  - unfold welcomeEffect. destruct (agent p'); [|done].
    destruct (conversationId p') as [[|]|]; try done;
      simpl; (constructor; [done | constructor]).
Qed.

Lemma pair_ind {A} (P : list A -> Prop) :
  P [] -> (forall x, P [x]) -> (forall x y l, P l -> P (x :: y :: l)) ->
  forall l, P l.
Proof.
  intros H0 H1 H2.
  assert (H : forall l, P l /\ forall x, P (x :: l)).
  { induction l as [|y l [IH1 IH2]]; [by split|]. split; [apply IH2|].
    intros x. by apply H2. }
  intros l. apply H.
Qed.

Lemma turns_snoc (l : list Role) :
  (Conversation.turns l = Some false -> Conversation.turns (l ++ [user]) = Some true)
  /\ (Conversation.turns l = Some true ->
      Conversation.turns (l ++ [assistant]) = Some false).
Proof.
  induction l as [|x|x y l IH] using pair_ind.
  - by split.
  - destruct x; by split.
  - destruct x; [|by split]. destruct y; [by split|]. exact IH.
Qed.

(** The invariant of a conversation under unchanged props. *)
Lemma turns_step (p : Props) (base : list Message) (st : State) (ev : Event) :
  isPropsChanged ev = false ->
  chatInv st ->
  (exists tail, messages st = base ++ tail
                /\ Conversation.turns (role <$> tail) = Some (isLoading st)) ->
  exists tail, messages (step p st ev).1 = base ++ tail
               /\ Conversation.turns (role <$> tail) = Some (isLoading (step p st ev).1).
Proof.
  intros Hev Hinv (tail & Hm & Ht).
  assert (Hsend : forall now,
    exists tail', messages (sendMessage p now st).1 = base ++ tail'
      /\ Conversation.turns (role <$> tail') = Some (isLoading (sendMessage p now st).1)).
  { intros now. unfold sendMessage. destruct (agent p); [|by exists tail].
    destruct (negb _ || isLoading st) eqn:E; [by exists tail|].
    apply orb_false_iff in E as [_ E]. rewrite E in Ht. simpl.
    exists (tail ++ [ {| id := IdOfTime now; content := Js.trim (inputMessage st);
                         role := user; timestamp := now |} ]).
    split; [by rewrite Hm, app_assoc|].
    rewrite fmap_app. by apply turns_snoc. }
  destruct ev as [v|now|now|i now r| | |text|p' now]; simpl; try done.
  - destruct (inputDisabled st); by exists tail.
  - destruct (inputDisabled st); [by exists tail | apply Hsend].
  - destruct (sendDisabled st); [by exists tail | apply Hsend].
  - destruct (inflight st !! i) eqn:E; [|by exists tail].
    assert (Hl : isLoading st = true).
    { apply lookup_lt_Some in E. unfold chatInv in Hinv.
      destruct (isLoading st); [done | lia]. }
    rewrite Hl in Ht. rewrite sendMessage_resume_eq.
    exists (tail ++ [Conversation.answer now r]).
    assert (Hr : role (Conversation.answer now r) = assistant).
    { unfold Conversation.answer. destruct r as [e|data]; [done|].
      by destruct (replyOf data). }
    split.
    + unfold Conversation.answer.
      destruct r as [e|data]; [|destruct (replyOf data)]; simpl;
        by rewrite Hm, app_assoc.
    + assert (Hgoal : Conversation.turns (role <$> tail ++ [Conversation.answer now r])
                      = Some false).
      { rewrite fmap_app. simpl. rewrite Hr. by apply turns_snoc. }
      rewrite Hgoal. f_equal. symmetry.
      destruct r as [e|data]; [|destruct (replyOf data)]; done.
  - by exists tail.
  - by exists tail.
  - by exists tail.
Qed.

Lemma step_prefix (p : Props) (st : State) (ev : Event) :
  isPropsChanged ev = false ->
  messages st `prefix_of` messages (step p st ev).1.
Proof.
  intros Hev.
  assert (Hsend : forall now, messages st `prefix_of` messages (sendMessage p now st).1).
  { intros now. unfold sendMessage. destruct (agent p); [|done].
    destruct (negb _ || _); [done|]. simpl. by apply prefix_app_r. }
  destruct ev as [v|now|now|i now r| | |text|p' now]; simpl; try done.
  - by destruct (inputDisabled st).
  - destruct (inputDisabled st); [done | apply Hsend].
  - destruct (sendDisabled st); [done | apply Hsend].
  - destruct (inflight st !! i); [|done]. rewrite sendMessage_resume_eq.
    destruct r as [e|data]; [|destruct (replyOf data)]; simpl; by apply prefix_app_r.
Qed.

End AgentChatShape.

(** X2. No blank message is ever sent: over any sequence of events, every
    input posted to the agent and every user message shown is non-empty
    and is its own trim (it neither starts nor ends with white space). *)
Theorem chat_inputs_trimmed :
  forall (p : ChatInterface.Props) (now : Z) (evs : list ChatInterface.Event),
    Forall (fun x => x <> "" /\ Js.trim x = x /\ Trimmed.trimmed x)
           (ChatInterface.posted (ChatInterface.performed p now evs))
    /\ Forall (fun m => ChatInterface.role m = ChatInterface.user ->
                 ChatInterface.content m <> ""
                 /\ Js.trim (ChatInterface.content m) = ChatInterface.content m)
              (ChatInterface.messages (ChatInterface.reached p now evs)).
Proof.
  intros p now evs.
  destruct (run_invariant
              (fun st => Forall (fun m => ChatInterface.role m = ChatInterface.user ->
                                   ChatInterface.content m <> ""
                                   /\ Js.trim (ChatInterface.content m)
                                      = ChatInterface.content m)
                                (ChatInterface.messages st))
              (fun e => match e with
                        | ChatInterface.ApiPost _ body =>
                            ChatInterface.user_input body <> ""
                            /\ Js.trim (ChatInterface.user_input body)
                               = ChatInterface.user_input body
                            /\ Trimmed.trimmed (ChatInterface.user_input body)
                        | _ => True
                        end)) with (evs := evs) (p := p)
                                   (st := ChatInterface.mount p now) as [H1 H2].
  - intros p0 st ev. apply user_messages_step.
  - intros p0 st ev _. apply Forall_forall. intros e He.
    apply list_elem_of_In in He.
    pose proof (step_effects p0 st ev e He) as Hy.
    destruct e; try done. destruct Hy as (_ & _ & _ & Hu & Ht).
    split; [by apply truthy_nonempty|]. rewrite Hu.
    split; [apply trim_idempotent | apply trim_headOk].
  - unfold ChatInterface.mount, ChatInterface.welcomeEffect.
    destruct (ChatInterface.agent p); [|constructor].
    destruct (ChatInterface.conversationId p) as [[|]|]; simpl;
      repeat constructor; done.
  - split; [|exact H1].
    unfold ChatInterface.posted, ChatInterface.performed.
    induction H2 as [|e effs He _ IH]; simpl; [constructor|].
    destruct e; simpl; try exact IH. by constructor.
Qed.

(** X3. Between changes of agent or conversation every accepted message
    gets exactly one answer: the messages after those shown at mounting
    are turns, a user message followed by one assistant message (the
    reply or the error notice), and the last user message is unanswered
    exactly while [isLoading] is set. *)
Theorem chat_every_message_answered_once :
  forall (p : ChatInterface.Props) (now : Z) (evs : list ChatInterface.Event),
    Forall (fun ev => ChatInterface.isPropsChanged ev = false) evs ->
    exists tail,
      ChatInterface.messages (ChatInterface.reached p now evs)
      = ChatInterface.messages (ChatInterface.mount p now) ++ tail
      /\ Conversation.turns (ChatInterface.role <$> tail)
         = Some (ChatInterface.isLoading (ChatInterface.reached p now evs)).
Proof.
  intros p now evs Hevs. unfold ChatInterface.reached.
  set (base := ChatInterface.messages (ChatInterface.mount p now)).
  assert (H : forall p0 st,
    ChatInterface.chatInv st ->
    (exists tail, ChatInterface.messages st = base ++ tail
       /\ Conversation.turns (ChatInterface.role <$> tail)
          = Some (ChatInterface.isLoading st)) ->
    exists tail, ChatInterface.messages (ChatInterface.run p0 st evs).1 = base ++ tail
       /\ Conversation.turns (ChatInterface.role <$> tail)
          = Some (ChatInterface.isLoading (ChatInterface.run p0 st evs).1)).
  { generalize base. intros base0.
    induction Hevs as [|ev evs Hev _ IH]; intros p0 st Hinv Hst; simpl; [done|].
    pose proof (turns_step p0 base0 st ev Hev Hinv Hst) as H1.
    pose proof (chatInv_step p0 st ev Hinv) as H2.
    destruct (ChatInterface.step p0 st ev) as [st1 effs]. simpl in *.
    specialize (IH (ChatInterface.propsAfter p0 ev) st1 H2 H1).
    by destruct (ChatInterface.run (ChatInterface.propsAfter p0 ev) st1 evs). }
  apply H; [apply chatInv_mount|].
  exists []. split; [by rewrite app_nil_r|].
  unfold ChatInterface.mount, ChatInterface.welcomeEffect.
  destruct (ChatInterface.agent p); [|done].
  by destruct (ChatInterface.conversationId p) as [[|]|].
Qed.

(** Two turns on the sample page: an error notice, then a message in
    flight. *)
Lemma chat_every_message_answered_once_witness :
  exists tail,
    ChatInterface.messages (ChatInterface.reached Samples.props 0 MoreSamples.twoTurns)
    = ChatInterface.messages (ChatInterface.mount Samples.props 0) ++ tail
    /\ Conversation.turns (ChatInterface.role <$> tail)
       = Some (ChatInterface.isLoading
                 (ChatInterface.reached Samples.props 0 MoreSamples.twoTurns)).
Proof.
  apply (chat_every_message_answered_once Samples.props 0 MoreSamples.twoTurns).
  repeat constructor.
Defined.

(** X4. The conversation is append-only: no event other than a change of
    agent or conversation removes, alters or reorders a message that is
    shown; the messages before a run are a prefix of those after it. *)
Theorem chat_messages_append_only :
  forall (p : ChatInterface.Props) (st : ChatInterface.State)
         (evs : list ChatInterface.Event),
    Forall (fun ev => ChatInterface.isPropsChanged ev = false) evs ->
    ChatInterface.messages st
      `prefix_of` ChatInterface.messages (ChatInterface.run p st evs).1.
Proof.
  intros p st evs Hevs. revert p st.
  induction Hevs as [|ev evs Hev _ IH]; intros p st; simpl; [done|].
  pose proof (step_prefix p st ev Hev) as H1.
  destruct (ChatInterface.step p st ev) as [st1 effs]. simpl in *.
  specialize (IH (ChatInterface.propsAfter p ev) st1).
  destruct (ChatInterface.run (ChatInterface.propsAfter p ev) st1 evs). simpl in *.
  by etrans.
Qed.

Lemma chat_messages_append_only_witness :
  ChatInterface.messages (ChatInterface.mount Samples.props 0)
    `prefix_of` ChatInterface.messages
                  (ChatInterface.run Samples.props (ChatInterface.mount Samples.props 0)
                     MoreSamples.twoTurns).1.
Proof.
  apply (chat_messages_append_only Samples.props (ChatInterface.mount Samples.props 0)
           MoreSamples.twoTurns).
  repeat constructor.
Defined.

(** X5. An answer outlives its conversation: when the parent starts a new
    conversation with an agent while a call is waiting, the messages are
    replaced by the welcome message, the call keeps waiting with
    [isLoading] set, and when it settles its answer is appended to the
    new conversation, right after the welcome message. *)
Theorem chat_answer_lands_in_new_conversation :
  forall (p p' : ChatInterface.Props) (a' : ChatInterface.Agent)
         (st : ChatInterface.State) (turn : ChatInterface.Turn) (now now' : Z)
         (r : Js.thrown + option ChatInterface.AgentInvokeResponse),
    ChatInterface.agent p' = Some a' ->
    ChatInterface.conversationId p' = None ->
    ChatInterface.inflight st = [turn] ->
    ChatInterface.isLoading st = true ->
    ChatInterface.isLoading
      (ChatInterface.step p st (ChatInterface.PropsChanged p' now)).1 = true
    /\ ChatInterface.inflight
         (ChatInterface.step p st (ChatInterface.PropsChanged p' now)).1 = [turn]
    /\ ChatInterface.messages
         (ChatInterface.run p st
            [ChatInterface.PropsChanged p' now;
             ChatInterface.InvokeSettled 0 now' r]).1
       = [ {| ChatInterface.id := ChatInterface.IdWelcome;
              ChatInterface.content :=
                "Hello! I'm " +:+ ChatInterface.name a' +:+ ". "
                  +:+ ChatInterface.shortDescription a';
              ChatInterface.role := ChatInterface.assistant;
              ChatInterface.timestamp := now |};
           Conversation.answer now' r ]
    /\ ChatInterface.isLoading
         (ChatInterface.run p st
            [ChatInterface.PropsChanged p' now;
             ChatInterface.InvokeSettled 0 now' r]).1 = false.
Proof.
  intros p p' a' st turn now now' r Ha Hc Hq Hl.
  cbn [ChatInterface.run ChatInterface.step ChatInterface.propsAfter].
  unfold ChatInterface.welcomeEffect. rewrite Ha, Hc.
  cbn [ChatInterface.inflight ChatInterface.setMessages ChatInterface.isLoading fst snd].
  rewrite Hq. cbn [lookup list_lookup]. rewrite sendMessage_resume_eq.
  unfold Conversation.answer.
  destruct r as [e|data]; [|destruct (ChatInterface.replyOf data)]; done.
Qed.

Lemma chat_answer_lands_in_new_conversation_witness :
  ChatInterface.content <$>
    ChatInterface.messages
      (ChatInterface.run Samples.props Samples.firstInFlight
         [ChatInterface.PropsChanged MoreSamples.otherProps 5;
          ChatInterface.InvokeSettled 0 6 (Samples.replied "reply to first")]).1
  = ["Hello! I'm Morty. A grandson."; "reply to first"].
Proof.
  destruct (chat_answer_lands_in_new_conversation Samples.props MoreSamples.otherProps
              MoreSamples.otherAgent Samples.firstInFlight
              {| ChatInterface.turn_userMsg :=
                   {| ChatInterface.id := ChatInterface.IdOfTime 1;
                      ChatInterface.content := "first";
                      ChatInterface.role := ChatInterface.user;
                      ChatInterface.timestamp := 1 |};
                 ChatInterface.turn_agent := Samples.agent |}
              5 6 (Samples.replied "reply to first")
              eq_refl eq_refl eq_refl eq_refl) as (_ & _ & H & _).
  rewrite H. reflexivity.
Defined.

(** ** ChatInterface (simulated flow): the typing indicator *)

Section TypingFacts.
Import ChatInterfaceSimulated.

Lemma indicators_app (l1 l2 : list Message) :
  TypingIndicator.indicators (l1 ++ l2)
  = TypingIndicator.indicators l1 ++ TypingIndicator.indicators l2.
Proof. apply filter_app. Qed.

Lemma indicators_notTyping (l : list Message) :
  TypingIndicator.indicators (notTyping l) = [].
Proof.
  unfold TypingIndicator.indicators, notTyping.
  induction l as [|m l IH]; [done|].
  rewrite (filter_cons _ m l). case_decide as Hm; [|exact IH].
  rewrite filter_cons. case_decide; [done | exact IH].
Qed.

Lemma Forall_notTyping (P : Message -> Prop) (l : list Message) :
  Forall P l -> Forall P (notTyping l).
Proof.
  unfold notTyping. rewrite !Forall_forall. intros H m Hm.
  apply list_elem_of_filter in Hm as [_ Hm]. by apply H.
Qed.

Lemma typing_inv_step (p : Props) (st : State) (ev : Event) :
  TypingIndicator.typing_inv st -> TypingIndicator.typing_inv (step p st ev).1.
Proof.
  unfold TypingIndicator.typing_inv. intros (Hn & Hf & Hinv).
  assert (Hsend : forall now, TypingIndicator.typing_inv (handleSendMessage p now st).1).
  { intros now. unfold TypingIndicator.typing_inv. pose proof (simInv_handleSendMessage p now st Hinv) as Hi.
    unfold handleSendMessage in *. destruct (agent p); [|done].
    destruct (negb _ || isLoading st) eqn:E; [done|].
    apply orb_false_iff in E as [_ E]. rewrite E in Hn. simpl in *.
    split; [|split; [|exact Hi]].
    - rewrite !indicators_app.
      destruct (TypingIndicator.indicators (messages st)); [|simpl in Hn; lia].
      reflexivity.
    - rewrite !Forall_app. split; [split; [done|]|]; repeat constructor; done. }
  destruct ev as [v|now|now|i now rnd| | |text|p' now]; simpl.
  - by destruct (inputDisabled st).
  - destruct (inputDisabled st); [done | apply Hsend].
  - destruct (sendDisabled st); [done | apply Hsend].
  - pose proof (simInv_step p st (TimerFired i now rnd) Hinv) as Hi. simpl in Hi.
    destruct (timers st !! i); [|done]. simpl in *.
    split; [|split; [|exact Hi]].
    + rewrite indicators_app, indicators_notTyping. simpl. lia.
    + apply Forall_app. split; [by apply Forall_notTyping|].
      repeat constructor; done.
  - done.
  - done.
  - done.
  - pose proof (simInv_welcomeEffect p' now st Hinv) as Hi.
    unfold welcomeEffect in *. destruct (agent p'); [|done].
    destruct (conversationId p') as [[|]|]; try done; simpl in *;
      (split; [lia|]; split; [|exact Hi]; repeat constructor; done).
Qed.

Lemma typing_inv_run (evs : list Event) (p : Props) (st : State) :
  TypingIndicator.typing_inv st -> TypingIndicator.typing_inv (run p st evs).1.
Proof.
  revert p st. induction evs as [|ev evs IH]; intros p st H; simpl; [done|].
  pose proof (typing_inv_step p st ev H) as H1.
  destruct (step p st ev) as [st1 effs]. specialize (IH (propsAfter p ev) st1 H1).
  by destruct (run (propsAfter p ev) st1 evs).
Qed.

Lemma typing_inv_mount (p : Props) (now : Z) : TypingIndicator.typing_inv (mount p now).
Proof.
  unfold TypingIndicator.typing_inv, mount, welcomeEffect, chatInv.
  destruct (agent p); [|by repeat split].
  destruct (conversationId p) as [[|]|]; simpl; repeat split;
    (lia || done || (repeat constructor; done)).
Qed.

(** Under unchanged props a loading page ends with the indicator. *)
Lemma typing_last_step (p : Props) (st : State) (ev : Event) :
  TypingIndicator.isPropsChanged ev = false ->
  chatInv st ->
  (isLoading st = true -> exists t, last (messages st) = Some (typingMessage t)) ->
  isLoading (step p st ev).1 = true ->
  exists t, last (messages (step p st ev).1) = Some (typingMessage t).
Proof.
  intros Hev Hinv H.
  assert (Hsend : forall now,
    isLoading (handleSendMessage p now st).1 = true ->
    exists t, last (messages (handleSendMessage p now st).1) = Some (typingMessage t)).
  { intros now. unfold handleSendMessage. destruct (agent p); [|done].
    destruct (negb _ || isLoading st) eqn:E; [done|]. simpl. intros _.
    exists now. by rewrite last_snoc. }
  destruct ev as [v|now|now|i now rnd| | |text|p' now]; simpl; try done.
  - by destruct (inputDisabled st).
  - destruct (inputDisabled st); [done | apply Hsend].
  - destruct (sendDisabled st); [done | apply Hsend].
  - destruct (timers st !! i); done.
Qed.

End TypingFacts.

(** X6. The typing indicator of the simulated chat: in every state
    reached from mounting at most one indicator is shown and none is
    shown once the turn has ended; a message is drawn as typing exactly
    when it is the indicator; and as long as the parent does not change
    agent or conversation, a loading page ends with the indicator. *)
Theorem sim_typing_indicator :
  forall (p : ChatInterfaceSimulated.Props) (now : Z)
         (evs : list ChatInterfaceSimulated.Event),
    (length (TypingIndicator.indicators
               (ChatInterfaceSimulated.messages
                  (ChatInterfaceSimulated.reached p now evs))) <= 1)%nat
    /\ (ChatInterfaceSimulated.isLoading (ChatInterfaceSimulated.reached p now evs) = false ->
        TypingIndicator.indicators
          (ChatInterfaceSimulated.messages (ChatInterfaceSimulated.reached p now evs)) = [])
    /\ Forall (fun m => ChatInterfaceSimulated.isTyping m = true
                        <-> ChatInterfaceSimulated.id m = ChatInterfaceSimulated.IdTyping)
              (ChatInterfaceSimulated.messages (ChatInterfaceSimulated.reached p now evs))
    /\ (Forall (fun ev => TypingIndicator.isPropsChanged ev = false) evs ->
        ChatInterfaceSimulated.isLoading (ChatInterfaceSimulated.reached p now evs) = true ->
        exists t,
          last (ChatInterfaceSimulated.messages (ChatInterfaceSimulated.reached p now evs))
          = Some (ChatInterfaceSimulated.typingMessage t)).
Proof.
  intros p now evs. unfold ChatInterfaceSimulated.reached.
  pose proof (typing_inv_run evs p _ (typing_inv_mount p now)) as (Hn & Hf & _).
  split; [|split; [|split; [exact Hf|]]].
  - destruct (ChatInterfaceSimulated.isLoading _); lia.
  - intros Hl. rewrite Hl in Hn.
    destruct (TypingIndicator.indicators _); [done | simpl in Hn; lia].
  - intros Hevs.
    assert (H : forall p0 st,
      ChatInterfaceSimulated.chatInv st ->
      (ChatInterfaceSimulated.isLoading st = true ->
       exists t, last (ChatInterfaceSimulated.messages st)
                 = Some (ChatInterfaceSimulated.typingMessage t)) ->
      ChatInterfaceSimulated.isLoading (ChatInterfaceSimulated.run p0 st evs).1 = true ->
      exists t, last (ChatInterfaceSimulated.messages (ChatInterfaceSimulated.run p0 st evs).1)
                = Some (ChatInterfaceSimulated.typingMessage t)).
    { clear Hn Hf. induction Hevs as [|ev evs Hev _ IH]; intros p0 st Hinv Hst; simpl; [done|].
      pose proof (typing_last_step p0 st ev Hev Hinv Hst) as H1.
      pose proof (simInv_step p0 st ev Hinv) as H2.
      destruct (ChatInterfaceSimulated.step p0 st ev) as [st1 effs]. simpl in *.
      specialize (IH (ChatInterfaceSimulated.propsAfter p0 ev) st1 H2 H1).
      by destruct (ChatInterfaceSimulated.run (ChatInterfaceSimulated.propsAfter p0 ev) st1 evs). }
    apply H.
    + by apply simInv_welcomeEffect.
    + unfold ChatInterfaceSimulated.mount, ChatInterfaceSimulated.welcomeEffect.
      destruct (ChatInterfaceSimulated.agent p); [|done].
      by destruct (ChatInterfaceSimulated.conversationId p) as [[|]|].
Qed.

(** ** VoiceChatPage: the microphone and the error banner *)

(** X7. [toggleAudio] changes the mute flag only after the device
    confirmed: the flag flips exactly when a room is present and
    [setMicrophoneEnabled] fulfils.  Without a room nothing is done; with
    one the device is asked for the opposite of the flag; a rejection is
    not caught - it leaves the handler as thrown, with the state as it
    was. *)
Theorem voice_toggle_audio :
  forall (room : bool) (device : Exec.settle unit) (st : VoiceChatPage.State),
    (VoiceChatPage.isAudioEnabled
       (Exec.state (VoiceChatPage.toggleAudio room device st))
     = negb (VoiceChatPage.isAudioEnabled st)
     <-> room = true /\ device = Exec.Fulfilled tt)
    /\ Exec.effects (VoiceChatPage.toggleAudio room device st)
       = (if room
          then [VoiceChatPage.SetMicrophoneEnabled (negb (VoiceChatPage.isAudioEnabled st))]
          else [])
    /\ (forall e, room = true -> device = Exec.Rejected e ->
          VoiceChatPage.toggleAudio room device st
          = (Exec.Threw e, st,
             [VoiceChatPage.SetMicrophoneEnabled (negb (VoiceChatPage.isAudioEnabled st))]))
    /\ VoiceChatPage.roomName (Exec.state (VoiceChatPage.toggleAudio room device st))
       = VoiceChatPage.roomName st
    /\ VoiceChatPage.connectionError (Exec.state (VoiceChatPage.toggleAudio room device st))
       = VoiceChatPage.connectionError st.
Proof.
  intros room device st.
  unfold VoiceChatPage.toggleAudio, Exec.bind, Exec.await, Exec.modify,
    Exec.emit, Exec.get, Exec.ret, Exec.state, Exec.effects.
  destruct room, device as [[]|e|]; cbn; split_and!; try done;
    try (by intros [=]);
    try (by intros ? _ [=]);
    try (by intros ? _ [= ->]);
    try (by split; [destruct (VoiceChatPage.isAudioEnabled st)|intros [[=] [=]]]).
Qed.

(** X8. After [handleConnect] an error is shown exactly when it was
    logged, and the handler has completed without an error exactly when
    the token was granted, the join fulfilled and - if a room was already
    present - the microphone call fulfilled.  The handler never changes
    the room name, the participant name or the mute flag, and it enables
    the microphone only after [connect], with the page's mute flag. *)
Theorem voice_connect_error_banner :
  forall (room : bool) (w : VoiceChatPage.Awaited) (st : VoiceChatPage.State),
    (is_Some (VoiceChatPage.connectionError
                (Exec.state (VoiceChatPage.handleConnect room w st)))
     <-> In VoiceChatPage.ConsoleError
            (Exec.effects (VoiceChatPage.handleConnect room w st)))
    /\ (Exec.outcome (VoiceChatPage.handleConnect room w st) = Exec.Done tt
        /\ VoiceChatPage.connectionError
             (Exec.state (VoiceChatPage.handleConnect room w st)) = None
        <-> (exists td, VoiceChatPage.fetched w = Exec.Fulfilled td
                        /\ VoiceChatPage.success td = true)
            /\ VoiceChatPage.joined w = Exec.Fulfilled tt
            /\ (room = true -> VoiceChatPage.microphone w = Exec.Fulfilled tt))
    /\ VoiceChatPage.roomName (Exec.state (VoiceChatPage.handleConnect room w st))
       = VoiceChatPage.roomName st
    /\ VoiceChatPage.participantName (Exec.state (VoiceChatPage.handleConnect room w st))
       = VoiceChatPage.participantName st
    /\ VoiceChatPage.isAudioEnabled (Exec.state (VoiceChatPage.handleConnect room w st))
       = VoiceChatPage.isAudioEnabled st
    /\ (forall b, In (VoiceChatPage.SetMicrophoneEnabled b)
                     (Exec.effects (VoiceChatPage.handleConnect room w st)) ->
          b = VoiceChatPage.isAudioEnabled st /\ room = true
          /\ existsb VoiceChatPage.isConnect
               (Exec.effects (VoiceChatPage.handleConnect room w st)) = true).
Proof.
  intros room w st. rewrite handleConnect_eq. cbn zeta.
  destruct (VoiceChatPage.fetched w) as [td|e|] eqn:Ef;
    [destruct (VoiceChatPage.success td) eqn:Es;
     [destruct (VoiceChatPage.joined w) as [[]|e|] eqn:Ej;
      [destruct room;
       [destruct (VoiceChatPage.microphone w) as [[]|e|] eqn:Em|]|..]|]|..];
    cbn; split_and!; try done;
    try (split; intros H); try (intros b H); settle_cases;
    split_and?; settle_cases; try (by auto 6).
Qed.

(** ** MCPCatalog: reloading, saving and deleting *)

Section CatalogEdits.
Import MCPCatalog.
Variable localeCompare : string -> string -> Z.

Lemma sorted_filter {A} (R : A -> A -> Prop) (P : A -> Prop)
    `{!forall x, Decision (P x)} (l : list A) :
  StronglySorted R l -> StronglySorted R (filter P l).
Proof.
  induction 1 as [|x l Hl IH Hx]; [constructor|].
  rewrite filter_cons. case_decide; [|done].
  constructor; [done|].
  apply Forall_forall. intros y Hy. apply list_elem_of_filter in Hy as [_ Hy].
  rewrite Forall_forall in Hx. by apply Hx.
Qed.

Lemma sorted_map_same_keys (f : MCPConnector -> MCPConnector)
    (l : list MCPConnector) :
  Forall (fun c => status (f c) = status c /\ name (f c) = name c) l ->
  StronglySorted (precedes localeCompare) l ->
  StronglySorted (precedes localeCompare) (map f l).
Proof.
  intros Hf Hs. induction Hs as [|x l Hl IH Hx]; [constructor|].
  apply Forall_cons in Hf as [[Hsx Hnx] Hf]. cbn [map].
  constructor; [by apply IH|].
  apply Forall_forall. intros y Hy. apply list_elem_of_In, in_map_iff in Hy
    as (z & <- & Hz).
  apply list_elem_of_In in Hz.
  rewrite Forall_forall in Hx, Hf.
  destruct (Hf z Hz) as [Hsz Hnz]. specialize (Hx z Hz).
  unfold precedes, priority in *. by rewrite Hsx, Hnx, Hsz, Hnz.
Qed.

Lemma save_ids (u : MCPConnector) (l : list MCPConnector) :
  map id (map (fun c => if decide (id c = id u) then u else c) l) = map id l.
Proof.
  induction l as [|c l IH]; [done|]. cbn [map]. rewrite IH.
  by case_decide; [f_equal|].
Qed.

Lemma save_unknown (u : MCPConnector) (l : list MCPConnector) :
  Forall (fun c => id c <> id u) l ->
  map (fun c => if decide (id c = id u) then u else c) l = l.
Proof.
  induction 1 as [|c l Hc Hl IH]; [done|]. cbn [map]. rewrite IH.
  by case_decide.
Qed.

End CatalogEdits.

(** X9. Deleting a connector from the catalog removes every entry with
    that id and nothing else: the entries left are those of the old list
    with another id, in their old order, so a list that was sorted stays
    sorted; the selection is cleared and the registry and the error are
    untouched. *)
Theorem catalog_delete_keeps_order :
  forall (localeCompare : string -> string -> Z) (connectorId : string)
         (st : MCPCatalog.State),
    (forall c, c ∈ MCPCatalog.st_connectors
                     (MCPCatalog.handleConnectorDelete connectorId st)
               <-> c ∈ MCPCatalog.st_connectors st
                   /\ MCPCatalog.id c <> connectorId)
    /\ MCPCatalog.st_connectors (MCPCatalog.handleConnectorDelete connectorId st)
         `sublist_of` MCPCatalog.st_connectors st
    /\ (StronglySorted (MCPCatalog.precedes localeCompare)
          (MCPCatalog.st_connectors st) ->
        StronglySorted (MCPCatalog.precedes localeCompare)
          (MCPCatalog.st_connectors
             (MCPCatalog.handleConnectorDelete connectorId st)))
    /\ (Forall (fun c => MCPCatalog.id c <> connectorId)
          (MCPCatalog.st_connectors st) ->
        MCPCatalog.st_connectors (MCPCatalog.handleConnectorDelete connectorId st)
        = MCPCatalog.st_connectors st)
    /\ MCPCatalog.selectedConnector
         (MCPCatalog.handleConnectorDelete connectorId st) = None
    /\ MCPCatalog.st_registry (MCPCatalog.handleConnectorDelete connectorId st)
       = MCPCatalog.st_registry st
    /\ MCPCatalog.error (MCPCatalog.handleConnectorDelete connectorId st)
       = MCPCatalog.error st.
Proof.
  intros lc cid st. cbn. split_and!; try done.
  - intros c. rewrite list_elem_of_filter. tauto.
  - apply sublist_filter.
  - apply sorted_filter.
  - intros H. induction H as [|c l Hc Hl IH]; [done|].
    rewrite filter_cons. case_decide; [by rewrite IH|done].
Qed.

(** X10. Saving a connector replaces the entries with its id in place:
    the list keeps its length and the id at every position, and is left
    as it was when no entry has that id - the saved connector is then
    selected without being listed.  The list is not sorted again: it
    stays sorted when the saved connector has the status and the name of
    the entries it replaces. *)
Theorem catalog_save_in_place :
  forall (localeCompare : string -> string -> Z)
         (updatedConnector : MCPCatalog.MCPConnector) (st : MCPCatalog.State),
    map MCPCatalog.id
        (MCPCatalog.st_connectors
           (MCPCatalog.handleConnectorSave updatedConnector st))
    = map MCPCatalog.id (MCPCatalog.st_connectors st)
    /\ (forall c, c ∈ MCPCatalog.st_connectors
                        (MCPCatalog.handleConnectorSave updatedConnector st) ->
          MCPCatalog.id c = MCPCatalog.id updatedConnector ->
          c = updatedConnector)
    /\ (Forall (fun c => MCPCatalog.id c <> MCPCatalog.id updatedConnector)
          (MCPCatalog.st_connectors st) ->
        MCPCatalog.st_connectors
          (MCPCatalog.handleConnectorSave updatedConnector st)
        = MCPCatalog.st_connectors st)
    /\ MCPCatalog.selectedConnector
         (MCPCatalog.handleConnectorSave updatedConnector st)
       = Some updatedConnector
    /\ (Forall (fun c => MCPCatalog.id c = MCPCatalog.id updatedConnector ->
                         MCPCatalog.status updatedConnector = MCPCatalog.status c
                         /\ MCPCatalog.name updatedConnector = MCPCatalog.name c)
          (MCPCatalog.st_connectors st) ->
        StronglySorted (MCPCatalog.precedes localeCompare)
          (MCPCatalog.st_connectors st) ->
        StronglySorted (MCPCatalog.precedes localeCompare)
          (MCPCatalog.st_connectors
             (MCPCatalog.handleConnectorSave updatedConnector st))).
Proof.
  intros lc u st. cbn. split_and!; try done.
  - apply save_ids.
  - intros c Hc Hid. apply list_elem_of_In, in_map_iff in Hc as (z & <- & _).
    by case_decide.
  - apply save_unknown.
  - intros Hf. apply sorted_map_same_keys.
    eapply Forall_impl; [exact Hf|]. intros c Hc. cbn beta.
    case_decide; [by apply Hc|done].
Qed.


(** ** MCPTestPanel: a test run *)

(** X12. A test run never throws and sends at most one request.  The
    action is invoked exactly when an action is selected and the
    parameter text is blank or parses; the request then carries the
    selected action with the parsed value, or the empty object for a
    blank text.  Without an action only the error is set.  With one, a
    finished run shows either a result or an error, never both, and a
    result is shown exactly when the request was sent, answered [ok] and
    its body arrived.  The selected action and the parameter text are
    never changed. *)
Theorem test_panel_run :
  forall (connectorId : string) (apiCall : Exec.settle MCPTestPanel.Response)
         (st : MCPTestPanel.State),
    (forall e, Exec.outcome (MCPTestPanel.handleTest connectorId apiCall st)
               <> Exec.Threw e)
    /\ (length (Exec.effects (MCPTestPanel.handleTest connectorId apiCall st)) <= 1)%nat
    /\ (Exec.effects (MCPTestPanel.handleTest connectorId apiCall st) <> []
        <-> Js.truthy (MCPTestPanel.selectedAction st) = true
            /\ (Js.truthy (Js.trim (MCPTestPanel.testParams st)) = false
                \/ is_Some (JSON.parse (MCPTestPanel.testParams st))))
    /\ (forall ef,
          In ef (Exec.effects (MCPTestPanel.handleTest connectorId apiCall st)) ->
          exists params,
            ef = MCPTestPanel.TestAction connectorId
                   (MCPTestPanel.selectedAction st) params
            /\ if Js.truthy (Js.trim (MCPTestPanel.testParams st))
               then JSON.parse (MCPTestPanel.testParams st) = Some params
               else params = JSON.Object [])
    /\ (Js.truthy (MCPTestPanel.selectedAction st) = false ->
        MCPTestPanel.handleTest connectorId apiCall st
        = (Exec.Done tt,
           MCPTestPanel.setError (Some "Please select an action to test") st, []))
    /\ (Js.truthy (MCPTestPanel.selectedAction st) = true ->
        Exec.outcome (MCPTestPanel.handleTest connectorId apiCall st) = Exec.Done tt ->
        (is_Some (MCPTestPanel.testResult
                    (Exec.state (MCPTestPanel.handleTest connectorId apiCall st)))
         <-> MCPTestPanel.error
               (Exec.state (MCPTestPanel.handleTest connectorId apiCall st)) = None))
    /\ (Js.truthy (MCPTestPanel.selectedAction st) = true ->
        forall r,
          MCPTestPanel.testResult
            (Exec.state (MCPTestPanel.handleTest connectorId apiCall st)) = Some r
          <-> Exec.effects (MCPTestPanel.handleTest connectorId apiCall st) <> []
              /\ exists resp, apiCall = Exec.Fulfilled resp
                              /\ MCPTestPanel.ok resp = true
                              /\ MCPTestPanel.json resp = Exec.Fulfilled r)
    /\ MCPTestPanel.selectedAction
         (Exec.state (MCPTestPanel.handleTest connectorId apiCall st))
       = MCPTestPanel.selectedAction st
    /\ MCPTestPanel.testParams
         (Exec.state (MCPTestPanel.handleTest connectorId apiCall st))
       = MCPTestPanel.testParams st.
Proof.
  intros cid apiCall st.
  unfold MCPTestPanel.handleTest, MCPTestPanel.testAction,
    MCPTestPanel.handleApiCall, Exec.state, Exec.effects, Exec.outcome,
    Exec.finally, Exec.try_catch, Exec.bind, Exec.modify, Exec.emit,
    Exec.await, Exec.throw, Exec.get, Exec.ret.
  generalize (JSON.parse (MCPTestPanel.testParams st)) as parsed.
  generalize (Js.truthy (Js.trim (MCPTestPanel.testParams st))) as nonblank.
  generalize (Js.truthy (MCPTestPanel.selectedAction st)) as selected.
  intros [] [] [v|]; cbn -[pretty];
    try (destruct apiCall as [resp|e|];
         [destruct (MCPTestPanel.ok resp) eqn:Eo;
          [destruct (MCPTestPanel.json resp) as [r0|e|] eqn:Ej|]|..];
         cbn -[pretty];
         try destruct (Js.instanceofSyntaxError e));
    split_and!; try done; try lia;
    try (intros _ _); try (intros _ r); try (intros ef H; cbn in H);
    try (split; intros H); unfold is_Some in *; settle_cases;
    split_and?; settle_cases; subst;
    try (by eauto); try (by right; eauto); try (by left).
Qed.

(** X13. The panel blames the parameters for a body that is not JSON:
    when an action is selected, the parameter text is blank or valid,
    the request is answered [ok] and [response.json()] rejects with a
    SyntaxError, the action has been invoked and yet the panel reports
    "Invalid JSON in test parameters"; the hook's own error holds the
    message of the SyntaxError. *)
Theorem test_panel_blames_parameters :
  forall (connectorId : string) (resp : MCPTestPanel.Response) (m : string)
         (st : MCPTestPanel.State),
    Js.truthy (MCPTestPanel.selectedAction st) = true ->
    Js.truthy (Js.trim (MCPTestPanel.testParams st)) = false
    \/ is_Some (JSON.parse (MCPTestPanel.testParams st)) ->
    MCPTestPanel.ok resp = true ->
    MCPTestPanel.json resp = Exec.Rejected (Js.SyntaxErrorObj m) ->
    Exec.outcome (MCPTestPanel.handleTest connectorId (Exec.Fulfilled resp) st)
    = Exec.Done tt
    /\ MCPTestPanel.error
         (Exec.state (MCPTestPanel.handleTest connectorId (Exec.Fulfilled resp) st))
       = Some "Invalid JSON in test parameters"
    /\ MCPTestPanel.hookError
         (Exec.state (MCPTestPanel.handleTest connectorId (Exec.Fulfilled resp) st))
       = Some m
    /\ MCPTestPanel.testResult
         (Exec.state (MCPTestPanel.handleTest connectorId (Exec.Fulfilled resp) st))
       = None
    /\ MCPTestPanel.loading
         (Exec.state (MCPTestPanel.handleTest connectorId (Exec.Fulfilled resp) st))
       = false
    /\ exists params,
         Exec.effects (MCPTestPanel.handleTest connectorId (Exec.Fulfilled resp) st)
         = [MCPTestPanel.TestAction connectorId
              (MCPTestPanel.selectedAction st) params].
Proof.
  intros cid resp m st Ha Hp Ho Hj.
  unfold MCPTestPanel.handleTest, MCPTestPanel.testAction,
    MCPTestPanel.handleApiCall, Exec.state, Exec.effects, Exec.outcome,
    Exec.finally, Exec.try_catch, Exec.bind, Exec.modify, Exec.emit,
    Exec.await, Exec.throw, Exec.get, Exec.ret.
  rewrite Ha. cbn [negb].
  destruct (Js.truthy (Js.trim (MCPTestPanel.testParams st))) eqn:Et.
  - destruct Hp as [[=]|[v Hv]]. rewrite Hv, Ho, Hj. cbn. split_and!; eauto.
  - rewrite Ho, Hj. cbn. split_and!; eauto.
Qed.

(** A run with a blank parameter text against a server that answers with
    a page that is not JSON. *)
Lemma test_panel_blames_parameters_witness :
  MCPTestPanel.error
    (Exec.state (MCPTestPanel.handleTest "search"
                   (Exec.Fulfilled MoreSamples.garbledBody) Samples.blankParams))
  = Some "Invalid JSON in test parameters"
  /\ Exec.effects (MCPTestPanel.handleTest "search"
                     (Exec.Fulfilled MoreSamples.garbledBody) Samples.blankParams)
     = [MCPTestPanel.TestAction "search" "web_search" (JSON.Object [])].
Proof.
  destruct (test_panel_blames_parameters "search" MoreSamples.garbledBody
              "Unexpected token < in JSON at position 0" Samples.blankParams)
    as (_ & He & _ & _ & _ & _).
  - vm_compute. reflexivity.
  - left. vm_compute. reflexivity.
  - reflexivity.
  - reflexivity.
  - split; [exact He|]. vm_compute. reflexivity.
Defined.

(** ** The useMCP hook *)

(** X14. [handleApiCall] returns the body exactly when the request
    fulfilled, was answered [ok] and its body arrived; otherwise it
    throws - the rejection itself, or for a response that is not [ok] an
    [Error] naming the HTTP status - unless a promise never settles.
    Whenever it completes, [loading] is false again, and the hook's
    error is empty exactly when it returned.  It performs no effect of
    its own and leaves the editor's cells alone. *)
Theorem hook_api_call :
  forall (A : Type) (apiCall : Exec.settle (MCPConnectorEditor.Response A))
         (st : MCPConnectorEditor.State),
    (forall a, Exec.outcome (MCPConnectorEditor.handleApiCall apiCall st) = Exec.Done a
               <-> exists resp, apiCall = Exec.Fulfilled resp
                                /\ MCPConnectorEditor.ok resp = true
                                /\ MCPConnectorEditor.json resp = Exec.Fulfilled a)
    /\ (forall e, Exec.outcome (MCPConnectorEditor.handleApiCall apiCall st) = Exec.Threw e
                  <-> apiCall = Exec.Rejected e
                      \/ exists resp,
                           apiCall = Exec.Fulfilled resp
                           /\ if MCPConnectorEditor.ok resp
                              then MCPConnectorEditor.json resp = Exec.Rejected e
                              else e = Js.ErrorObj
                                         ("HTTP error! status: "
                                            +:+ pretty (MCPConnectorEditor.status resp)))
    /\ (Exec.outcome (MCPConnectorEditor.handleApiCall apiCall st) <> Exec.Suspended ->
        MCPConnectorEditor.loading
          (Exec.state (MCPConnectorEditor.handleApiCall apiCall st)) = false)
    /\ (Exec.outcome (MCPConnectorEditor.handleApiCall apiCall st) = Exec.Suspended ->
        MCPConnectorEditor.loading
          (Exec.state (MCPConnectorEditor.handleApiCall apiCall st)) = true
        /\ MCPConnectorEditor.hookError
             (Exec.state (MCPConnectorEditor.handleApiCall apiCall st)) = None)
    /\ (MCPConnectorEditor.hookError
          (Exec.state (MCPConnectorEditor.handleApiCall apiCall st)) = None
        <-> forall e, Exec.outcome (MCPConnectorEditor.handleApiCall apiCall st)
                      <> Exec.Threw e)
    /\ Exec.effects (MCPConnectorEditor.handleApiCall apiCall st) = []
    /\ MCPConnectorEditor.setHookError (MCPConnectorEditor.hookError st)
         (MCPConnectorEditor.setLoading (MCPConnectorEditor.loading st)
            (Exec.state (MCPConnectorEditor.handleApiCall apiCall st)))
       = st.
Proof.
  intros A apiCall st.
  unfold MCPConnectorEditor.handleApiCall, Exec.state, Exec.effects,
    Exec.outcome, Exec.finally, Exec.try_catch, Exec.bind, Exec.modify,
    Exec.emit, Exec.await, Exec.throw, Exec.get, Exec.ret.
  destruct apiCall as [resp|e0|];
    [destruct (MCPConnectorEditor.ok resp) eqn:Eo;
     [destruct (MCPConnectorEditor.json resp) as [r0|e0|] eqn:Ej|]|..];
    cbn -[pretty]; split_and!; try done;
    try (by destruct st);
    try (intros a); try (intros _);
    try (split; intros H); settle_cases;
    try (by eauto 6); try (by left);
    try (by right; eexists; split; [done|]; rewrite Eo);
    try (by rewrite Eo in *; congruence);
    try (by intros e' [=]);
    try (by exfalso; eapply H).
Qed.

(** ** MCPConnectorEditor: saving, deleting and checking a connector *)

(** X15. [handleSave] never throws and sends one request, a PUT of the
    configuration held when the button was pressed.  [onSave] is called
    exactly when the request fulfilled, was answered [ok] and its body
    arrived, and it is called with the connector of the body; the
    catalog then replaces that connector and otherwise stays as it was.
    A finished save has cleared [isSaving] and shows either the success
    banner or an error, never both; the configuration typed in is
    kept. *)
Theorem editor_save :
  forall (connector : MCPCatalog.MCPConnector)
         (apiCall : Exec.settle (MCPConnectorEditor.Response MCPCatalog.MCPConnector))
         (st : MCPConnectorEditor.State) (cat : MCPCatalog.State),
    (forall e, Exec.outcome (MCPConnectorEditor.handleSave connector apiCall st)
               <> Exec.Threw e)
    /\ (exists rest,
          Exec.effects (MCPConnectorEditor.handleSave connector apiCall st)
          = MCPConnectorEditor.PutConnector (MCPCatalog.id connector)
              (MCPConnectorEditor.config st) :: rest
          /\ Forall (fun e => MCPConnectorEditor.isRequest e = false) rest)
    /\ (forall u,
          In (MCPConnectorEditor.OnSave u)
             (Exec.effects (MCPConnectorEditor.handleSave connector apiCall st))
          <-> exists resp, apiCall = Exec.Fulfilled resp
                           /\ MCPConnectorEditor.ok resp = true
                           /\ MCPConnectorEditor.json resp = Exec.Fulfilled u)
    /\ (forall u,
          In (MCPConnectorEditor.OnSave u)
             (Exec.effects (MCPConnectorEditor.handleSave connector apiCall st)) ->
          MCPConnectorEditor.catalogAfter
            (Exec.effects (MCPConnectorEditor.handleSave connector apiCall st)) cat
          = MCPCatalog.handleConnectorSave u cat)
    /\ ((forall u,
           ~ In (MCPConnectorEditor.OnSave u)
                (Exec.effects (MCPConnectorEditor.handleSave connector apiCall st))) ->
        MCPConnectorEditor.catalogAfter
          (Exec.effects (MCPConnectorEditor.handleSave connector apiCall st)) cat
        = cat)
    /\ (Exec.outcome (MCPConnectorEditor.handleSave connector apiCall st) = Exec.Done tt ->
        MCPConnectorEditor.isSaving
          (Exec.state (MCPConnectorEditor.handleSave connector apiCall st)) = false
        /\ MCPConnectorEditor.loading
             (Exec.state (MCPConnectorEditor.handleSave connector apiCall st)) = false
        /\ (is_Some (MCPConnectorEditor.error
                       (Exec.state (MCPConnectorEditor.handleSave connector apiCall st)))
            <-> MCPConnectorEditor.success
                  (Exec.state (MCPConnectorEditor.handleSave connector apiCall st))
                = None)
        /\ (MCPConnectorEditor.success
              (Exec.state (MCPConnectorEditor.handleSave connector apiCall st))
            = Some "Configuration saved successfully"
            <-> exists u,
                  In (MCPConnectorEditor.OnSave u)
                     (Exec.effects (MCPConnectorEditor.handleSave connector apiCall st))))
    /\ (Exec.outcome (MCPConnectorEditor.handleSave connector apiCall st) = Exec.Suspended ->
        MCPConnectorEditor.isSaving
          (Exec.state (MCPConnectorEditor.handleSave connector apiCall st)) = true
        /\ MCPConnectorEditor.error
             (Exec.state (MCPConnectorEditor.handleSave connector apiCall st)) = None
        /\ MCPConnectorEditor.success
             (Exec.state (MCPConnectorEditor.handleSave connector apiCall st)) = None)
    /\ MCPConnectorEditor.config
         (Exec.state (MCPConnectorEditor.handleSave connector apiCall st))
       = MCPConnectorEditor.config st
    /\ MCPConnectorEditor.health
         (Exec.state (MCPConnectorEditor.handleSave connector apiCall st))
       = MCPConnectorEditor.health st.
Proof.
  intros connector apiCall st cat.
  editor_cases apiCall; split_and!; try done;
    try (by eexists; split; [reflexivity|repeat constructor]);
    intros; try split; intros; unfold is_Some in *; settle_cases;
    simplify_eq; split_and?; try split; intros; settle_cases; simplify_eq;
    repeat match goal with
           | H1 : ?x = _, H2 : ?x = _ |- _ => rewrite H1 in H2; simplify_eq
           end;
    try (by eauto 6);
    try (by exfalso; eapply H; right; left).
Qed.

(** X16. [handleDelete] asks first: when the question is declined it
    does nothing else - no request, no state change.  When it is
    confirmed one DELETE request for the connector is sent, and
    [onDelete] is called exactly when that request fulfilled, was
    answered [ok] and its body arrived, whatever [success] flag the body
    carries; the catalog then drops the connector and clears the
    selection, and otherwise stays as it was.  The handler never throws;
    a finished confirmed delete has cleared [isDeleting] and shows an
    error exactly when [onDelete] was not called. *)
Theorem editor_delete :
  forall (connector : MCPCatalog.MCPConnector) (confirmed : bool)
         (apiCall : Exec.settle (MCPConnectorEditor.Response MCPConnectorEditor.Deleted))
         (st : MCPConnectorEditor.State) (cat : MCPCatalog.State),
    (forall e, Exec.outcome (MCPConnectorEditor.handleDelete connector confirmed apiCall st)
               <> Exec.Threw e)
    /\ (confirmed = false ->
        MCPConnectorEditor.handleDelete connector confirmed apiCall st
        = (Exec.Done tt, st,
           [MCPConnectorEditor.Confirm (MCPConnectorEditor.deleteQuestion connector)]))
    /\ (confirmed = true ->
        exists rest,
          Exec.effects (MCPConnectorEditor.handleDelete connector confirmed apiCall st)
          = MCPConnectorEditor.Confirm (MCPConnectorEditor.deleteQuestion connector)
            :: MCPConnectorEditor.DeleteConnector (MCPCatalog.id connector) :: rest
          /\ Forall (fun e => MCPConnectorEditor.isRequest e = false) rest)
    /\ (forall i,
          In (MCPConnectorEditor.OnDelete i)
             (Exec.effects (MCPConnectorEditor.handleDelete connector confirmed apiCall st))
          <-> i = MCPCatalog.id connector /\ confirmed = true
              /\ exists resp d, apiCall = Exec.Fulfilled resp
                                /\ MCPConnectorEditor.ok resp = true
                                /\ MCPConnectorEditor.json resp = Exec.Fulfilled d)
    /\ (In (MCPConnectorEditor.OnDelete (MCPCatalog.id connector))
           (Exec.effects (MCPConnectorEditor.handleDelete connector confirmed apiCall st)) ->
        MCPConnectorEditor.catalogAfter
          (Exec.effects (MCPConnectorEditor.handleDelete connector confirmed apiCall st)) cat
        = MCPCatalog.handleConnectorDelete (MCPCatalog.id connector) cat)
    /\ (~ In (MCPConnectorEditor.OnDelete (MCPCatalog.id connector))
             (Exec.effects (MCPConnectorEditor.handleDelete connector confirmed apiCall st)) ->
        MCPConnectorEditor.catalogAfter
          (Exec.effects (MCPConnectorEditor.handleDelete connector confirmed apiCall st)) cat
        = cat)
    /\ (confirmed = true ->
        Exec.outcome (MCPConnectorEditor.handleDelete connector confirmed apiCall st)
        = Exec.Done tt ->
        MCPConnectorEditor.isDeleting
          (Exec.state (MCPConnectorEditor.handleDelete connector confirmed apiCall st))
        = false
        /\ (is_Some (MCPConnectorEditor.error
                       (Exec.state
                          (MCPConnectorEditor.handleDelete connector confirmed apiCall st)))
            <-> ~ In (MCPConnectorEditor.OnDelete (MCPCatalog.id connector))
                     (Exec.effects
                        (MCPConnectorEditor.handleDelete connector confirmed apiCall st))))
    /\ MCPConnectorEditor.success
         (Exec.state (MCPConnectorEditor.handleDelete connector confirmed apiCall st))
       = MCPConnectorEditor.success st
    /\ MCPConnectorEditor.config
         (Exec.state (MCPConnectorEditor.handleDelete connector confirmed apiCall st))
       = MCPConnectorEditor.config st.
Proof.
  intros connector confirmed apiCall st cat.
  destruct confirmed; editor_cases apiCall; split_and!; try done;
    try (by eexists; split; [reflexivity|repeat constructor]);
    editor_close;
    try (by eauto 8);
    try (by exfalso; eauto 6);
    try (by exfalso; eapply H; right; right; left);
    try (by intros H; settle_cases).
Qed.

(** X17. [handleHealthCheck] never throws and sends one health request
    for the connector.  The health shown is replaced exactly when the
    request fulfilled, was answered [ok] and its body arrived - by that
    body; a failed check keeps the health shown before and reports an
    error.  A finished check has cleared [isCheckingHealth]; the success
    banner of an earlier save and the configuration stay as they
    were. *)
Theorem editor_health_check :
  forall (connector : MCPCatalog.MCPConnector)
         (apiCall : Exec.settle (MCPConnectorEditor.Response MCPCatalog.Health))
         (st : MCPConnectorEditor.State),
    (forall e, Exec.outcome (MCPConnectorEditor.handleHealthCheck connector apiCall st)
               <> Exec.Threw e)
    /\ Exec.effects (MCPConnectorEditor.handleHealthCheck connector apiCall st)
       = [MCPConnectorEditor.PostHealth (MCPCatalog.id connector)]
    /\ (forall resp h,
          apiCall = Exec.Fulfilled resp -> MCPConnectorEditor.ok resp = true ->
          MCPConnectorEditor.json resp = Exec.Fulfilled h ->
          MCPConnectorEditor.health
            (Exec.state (MCPConnectorEditor.handleHealthCheck connector apiCall st))
          = Some h
          /\ MCPConnectorEditor.error
               (Exec.state (MCPConnectorEditor.handleHealthCheck connector apiCall st))
             = None)
    /\ ((forall resp h,
           apiCall = Exec.Fulfilled resp -> MCPConnectorEditor.ok resp = true ->
           MCPConnectorEditor.json resp <> Exec.Fulfilled h) ->
        MCPConnectorEditor.health
          (Exec.state (MCPConnectorEditor.handleHealthCheck connector apiCall st))
        = MCPConnectorEditor.health st
        /\ (Exec.outcome (MCPConnectorEditor.handleHealthCheck connector apiCall st)
            = Exec.Done tt ->
            is_Some (MCPConnectorEditor.error
                       (Exec.state
                          (MCPConnectorEditor.handleHealthCheck connector apiCall st)))))
    /\ (Exec.outcome (MCPConnectorEditor.handleHealthCheck connector apiCall st)
        = Exec.Done tt ->
        MCPConnectorEditor.isCheckingHealth
          (Exec.state (MCPConnectorEditor.handleHealthCheck connector apiCall st))
        = false)
    /\ MCPConnectorEditor.success
         (Exec.state (MCPConnectorEditor.handleHealthCheck connector apiCall st))
       = MCPConnectorEditor.success st
    /\ MCPConnectorEditor.config
         (Exec.state (MCPConnectorEditor.handleHealthCheck connector apiCall st))
       = MCPConnectorEditor.config st.
Proof.
  intros connector apiCall st.
  editor_cases apiCall; split_and!; try done;
    editor_close;
    try (by eauto 8);
    try (by exfalso; eapply H).
Qed.

(** ** MCPConfigForm: labels and values *)

Section FieldLabels.
Import MCPConfigFormFields.
Variable toUpperCase : string -> string.
Variable up : Ascii.ascii -> Ascii.ascii.
Hypothesis upper_char : forall c, toUpperCase (String c "") = String (up c) "".
Hypothesis upper_empty : toUpperCase "" = "".

Lemma split_nonempty (sep : Ascii.ascii) (s : string) : split sep s <> [].
Proof.
  destruct s as [|c r]; cbn; [done|].
  destruct (Ascii.eqb c sep); [done|]. by destruct (split sep r).
Qed.

Lemma join_cons_char (sep : string) (x : Ascii.ascii) (w : string) (ws : list string) :
  join sep (String x w :: ws) = String x (join sep (w :: ws)).
Proof. by destruct ws. Qed.

Lemma capitalize_cons (c : Ascii.ascii) (w : string) :
  capitalize toUpperCase (String c w) = String (up c) w.
Proof. unfold capitalize. cbn. by rewrite upper_char. Qed.

Lemma capitalize_empty : capitalize toUpperCase "" = "".
Proof. unfold capitalize. cbn. by rewrite upper_empty. Qed.

Lemma relabel_pieces (start : bool) (s : string) :
  join " "
    match split "_"%char s with
    | w :: ws => (if start then capitalize toUpperCase w else w)
                   :: map (capitalize toUpperCase) ws
    | [] => []
    end
  = LabelChars.relabel up start s.
Proof.
  revert start. induction s as [|c r IH]; intros start.
  - cbn. destruct start; [apply capitalize_empty|done].
  - cbn [split LabelChars.relabel]. destruct (Ascii.eqb c "_") eqn:Ec.
    + specialize (IH true). pose proof (split_nonempty "_"%char r) as Hne.
      destruct (split "_"%char r) as [|w ws]; [done|].
      replace (if start then capitalize toUpperCase "" else "") with ""
        by (destruct start; [by rewrite capitalize_empty|done]).
      change (join " " ("" :: map (capitalize toUpperCase) (w :: ws)))
        with ("" +:+ " " +:+
              join " " (capitalize toUpperCase w :: map (capitalize toUpperCase) ws)).
      by rewrite IH.
    + specialize (IH false). pose proof (split_nonempty "_"%char r) as Hne.
      destruct (split "_"%char r) as [|w ws]; [done|].
      replace (if start then capitalize toUpperCase (String c w) else String c w)
        with (String (if start then up c else c) w)
        by (destruct start; [by rewrite capitalize_cons|done]).
      by rewrite join_cons_char, IH.
Qed.

Lemma relabel_length (start : bool) (s : string) :
  String.length (LabelChars.relabel up start s) = String.length s.
Proof.
  revert start. induction s as [|c r IH]; intros start; [done|].
  cbn. destruct (Ascii.eqb c "_"); cbn; by rewrite IH.
Qed.

End FieldLabels.

Lemma split_join (sep : Ascii.ascii) (s : string) :
  MCPConfigFormFields.join (String sep "") (MCPConfigFormFields.split sep s) = s.
Proof.
  induction s as [|c r IH]; [done|]. cbn [MCPConfigFormFields.split].
  destruct (Ascii.eqb_spec c sep) as [->|Hne].
  - pose proof (split_nonempty sep r) as Hn.
    destruct (MCPConfigFormFields.split sep r) as [|w ws]; [done|].
    cbn [MCPConfigFormFields.join]. cbn. by rewrite <- IH.
  - pose proof (split_nonempty sep r) as Hn.
    destruct (MCPConfigFormFields.split sep r) as [|w ws]; [done|].
    by rewrite join_cons_char, IH.
Qed.

(** X18. For an upper-casing that maps one character to one character
    (and the empty string to itself), the label of a field is its name
    relabelled character by character: every underscore becomes a space,
    the first character and every character after an underscore is
    upper-cased, and nothing else changes; so the label is as long as
    the name.  Whatever the upper-casing, splitting a name at the
    underscores loses nothing: joined with underscores the pieces give
    the name back. *)
Theorem field_label_by_characters :
  forall (toUpperCase : string -> string) (up : Ascii.ascii -> Ascii.ascii),
    (forall c, toUpperCase (String c "") = String (up c) "") ->
    toUpperCase "" = "" ->
    forall fieldName : string,
      MCPConfigFormFields.formatFieldLabel toUpperCase fieldName
      = LabelChars.relabel up true fieldName
      /\ String.length (MCPConfigFormFields.formatFieldLabel toUpperCase fieldName)
         = String.length fieldName
      /\ MCPConfigFormFields.join "_" (MCPConfigFormFields.split "_"%char fieldName)
         = fieldName.
Proof.
  intros toUpperCase up Hc He fieldName.
  assert (Heq : MCPConfigFormFields.formatFieldLabel toUpperCase fieldName
                = LabelChars.relabel up true fieldName).
  { rewrite <- (relabel_pieces toUpperCase up Hc He true fieldName).
    unfold MCPConfigFormFields.formatFieldLabel.
    pose proof (split_nonempty "_"%char fieldName) as Hn.
    by destruct (MCPConfigFormFields.split "_"%char fieldName). }
  split_and!; [done| |apply split_join].
  rewrite Heq. apply relabel_length.
Qed.

(** The label of a field with an empty word, under the upper-casing of
    the ASCII letters. *)
Lemma field_label_by_characters_witness :
  MCPConfigFormFields.formatFieldLabel MCPConfigFormFields.asciiToUpperCase
    "api__key_2"
  = "Api  Key 2".
Proof.
  destruct (field_label_by_characters MCPConfigFormFields.asciiToUpperCase
              MCPConfigFormFields.asciiUpper
              (fun c => eq_refl) eq_refl "api__key_2") as (H & _ & _).
  rewrite H. vm_compute. reflexivity.
Defined.

Lemma afterEdits_snoc (edits : list (string * string)) (f v : string) :
  MCPConfigFormFields.afterEdits (edits ++ [(f, v)])
  = MCPConfigFormFields.handleInputChange f v (MCPConfigFormFields.afterEdits edits).
Proof. unfold MCPConfigFormFields.afterEdits. by rewrite fold_left_app. Qed.

Lemma or_else_empty (v : string) : Js.or_else v "" = v.
Proof. by destruct v. Qed.

(** X19. The form keeps, for every field, the value typed last: after
    any sequence of inputs on a fresh form the configuration maps a
    field to the last value typed into it - the empty string if it was
    cleared - and has no entry for a field never typed into.  The input
    of a field receives the value typed last; for a field never typed
    into it receives the empty text, unless the field is named like a
    property inherited from [Object.prototype]: then it receives that
    member.  An input changes its own field only. *)
Theorem config_form_keeps_last_value :
  forall (edits : list (string * string)) (field : string),
    MCPConfigFormFields.afterEdits edits !! field
    = last (Typed.typedInto field edits)
    /\ MCPConfigFormFields.inputValue (MCPConfigFormFields.afterEdits edits) field
       = match last (Typed.typedInto field edits) with
         | Some v => Js.Val v
         | None => if bool_decide (field ∈ Js.objectPrototype)
                   then Js.Member field else Js.Val ""
         end
    /\ (forall other value,
          other <> field ->
          MCPConfigFormFields.inputValue
            (MCPConfigFormFields.afterEdits (edits ++ [(other, value)])) field
          = MCPConfigFormFields.inputValue
              (MCPConfigFormFields.afterEdits edits) field)
    /\ (forall value,
          MCPConfigFormFields.afterEdits (edits ++ [(field, value)]) !! field
          = Some value).
Proof.
  intros edits field.
  assert (Hl : forall es, MCPConfigFormFields.afterEdits es !! field
                          = last (Typed.typedInto field es)).
  { intros es. induction es as [|[f v] es IH] using rev_ind; [done|].
    rewrite afterEdits_snoc. unfold MCPConfigFormFields.handleInputChange,
      Typed.typedInto. rewrite filter_app, fmap_app.
    rewrite filter_cons, filter_nil. cbn [fst]. case_decide as Hf.
    - subst f. cbn. by rewrite lookup_insert_eq, last_snoc.
    - cbn. rewrite app_nil_r. by rewrite lookup_insert_ne. }
  split_and!.
  - apply Hl.
  - unfold MCPConfigFormFields.inputValue, Js.get. rewrite Hl.
    destruct (last (Typed.typedInto field edits)) as [v|];
      [by rewrite or_else_empty|].
    by case_bool_decide.
  - intros other value Hne. unfold MCPConfigFormFields.inputValue, Js.get.
    rewrite afterEdits_snoc. unfold MCPConfigFormFields.handleInputChange.
    by rewrite lookup_insert_ne.
  - intros value. rewrite afterEdits_snoc.
    unfold MCPConfigFormFields.handleInputChange. by rewrite lookup_insert_eq.
Qed.

(** A fresh form: the field "api_key" shows nothing and the field
    "__proto__" is handed the prototype object; once typed into, both
    show what was typed. *)
Example config_form_inherited_names :
  MCPConfigFormFields.inputValue (MCPConfigFormFields.afterEdits []) "api_key"
  = Js.Val ""
  /\ MCPConfigFormFields.inputValue (MCPConfigFormFields.afterEdits []) "__proto__"
     = Js.Member "__proto__"
  /\ MCPConfigFormFields.inputValue
       (MCPConfigFormFields.afterEdits [("__proto__", "x"); ("api_key", "k")])
       "__proto__"
     = Js.Val "x".
Proof. vm_compute. repeat split; reflexivity. Qed.

(** ** ChatPage *)

Lemma chat_page_step_inv (st : ChatPage.State) (ev : ChatPage.Event) :
  (ChatPage.showAgentSelector st = true <-> ChatPage.selectedAgent st = None) ->
  (ChatPage.showAgentSelector (ChatPage.step st ev) = true
   <-> ChatPage.selectedAgent (ChatPage.step st ev) = None)
  /\ (ChatPage.showAgentSelector st = false ->
      ChatPage.showAgentSelector (ChatPage.step st ev) = false)
  /\ (ChatPage.selectedAgent (ChatPage.step st ev) = None ->
      ChatPage.selectedConversationId (ChatPage.step st ev)
      = ChatPage.selectedConversationId st
      /\ ChatPage.sidebarOpen (ChatPage.step st ev) = ChatPage.sidebarOpen st).
Proof.
  intros Hinv. destruct ev as [[e|[[] [a|]]]|a|c| |]; cbn;
    unfold ChatPage.selectorShown, ChatPage.chatShown;
    destruct (ChatPage.showAgentSelector st) eqn:Es; cbn; rewrite ?Es;
    split_and!; try done; try tauto;
    try (by split; intros [=]);
    try (by intros [=]);
    try (by intros Hn; apply Hinv in Hn).
Qed.

Lemma chat_page_reached_snoc (evs : list ChatPage.Event) (ev : ChatPage.Event) :
  ChatPage.reached (evs ++ [ev]) = ChatPage.step (ChatPage.reached evs) ev.
Proof. unfold ChatPage.reached. by rewrite fold_left_app. Qed.

Lemma chat_page_inv (evs : list ChatPage.Event) :
  (ChatPage.showAgentSelector (ChatPage.reached evs) = true
   <-> ChatPage.selectedAgent (ChatPage.reached evs) = None)
  /\ (ChatPage.selectedAgent (ChatPage.reached evs) = None ->
      ChatPage.selectedConversationId (ChatPage.reached evs) = None
      /\ ChatPage.sidebarOpen (ChatPage.reached evs) = false).
Proof.
  induction evs as [|ev evs [IH1 IH2]] using rev_ind; [done|].
  rewrite chat_page_reached_snoc.
  destruct (chat_page_step_inv (ChatPage.reached evs) ev IH1) as (H1 & H2 & H3).
  split; [done|]. intros Hn. destruct (H3 Hn) as [-> ->].
  apply IH2. apply IH1.
  destruct (ChatPage.showAgentSelector (ChatPage.reached evs)) eqn:Es; [done|].
  specialize (H2 eq_refl). apply H1 in Hn. congruence.
Qed.

(** X20. The chat page shows the agent selector exactly as long as no
    agent is selected: over any sequence of events the chat and the
    sidebar are rendered only with an agent, and as long as none is
    selected no conversation is selected and the sidebar is closed.
    Once an agent is selected the page does not return to the selector:
    no later event shows it again or clears the agent. *)
Theorem chat_page_selector_until_agent :
  forall (evs later : list ChatPage.Event),
    (ChatPage.selectorShown (ChatPage.reached evs) = true
     <-> ChatPage.selectedAgent (ChatPage.reached evs) = None)
    /\ (ChatPage.chatShown (ChatPage.reached evs) = true
        <-> is_Some (ChatPage.selectedAgent (ChatPage.reached evs)))
    /\ (ChatPage.selectedAgent (ChatPage.reached evs) = None ->
        ChatPage.selectedConversationId (ChatPage.reached evs) = None
        /\ ChatPage.sidebarOpen (ChatPage.reached evs) = false)
    /\ (ChatPage.chatShown (ChatPage.reached evs) = true ->
        ChatPage.chatShown (ChatPage.reached (evs ++ later)) = true
        /\ is_Some (ChatPage.selectedAgent (ChatPage.reached (evs ++ later)))).
Proof.
  intros evs later.
  destruct (chat_page_inv evs) as [H1 H2].
  assert (Hchat : forall es,
            ChatPage.chatShown (ChatPage.reached es) = true
            <-> is_Some (ChatPage.selectedAgent (ChatPage.reached es))).
  { intros es. destruct (chat_page_inv es) as [G1 _].
    unfold ChatPage.chatShown.
    destruct (ChatPage.showAgentSelector (ChatPage.reached es)),
      (ChatPage.selectedAgent (ChatPage.reached es)) eqn:Ea; cbn;
      split; intros H; try done; try (by eexists).
    - by pose proof (proj1 G1 eq_refl).
    - by pose proof (proj2 G1 eq_refl). }
  split_and!; [done|apply Hchat|done|].
  intros Hc.
  assert (Hl : ChatPage.chatShown (ChatPage.reached (evs ++ later)) = true).
  { induction later as [|ev later IH] using rev_ind; [by rewrite app_nil_r|].
    rewrite app_assoc, chat_page_reached_snoc.
    destruct (chat_page_inv (evs ++ later)) as [G1 _].
    destruct (chat_page_step_inv (ChatPage.reached (evs ++ later)) ev G1)
      as (_ & G2 & _).
    unfold ChatPage.chatShown in *. rewrite G2; [done|].
    by destruct (ChatPage.showAgentSelector (ChatPage.reached (evs ++ later))). }
  split; [done|]. by apply Hchat.
Qed.

(** ** ConversationSidebar *)

(** X21. [formatTimeAgo] by the milliseconds elapsed: less than an hour,
    or a date in the future, reads "Just now"; from one hour to less
    than a day the whole hours elapsed, a number from 1 to 23; from one
    day to less than a week the whole days elapsed, a number from 1 to
    6; a week or more, and a date that does not parse, give the date as
    the locale writes it. *)
Theorem sidebar_time_ago :
  forall (toLocaleDateString : option Z -> string) (date now : Z),
    ((now - date < 3600000)%Z ->
     ConversationSidebar.formatTimeAgo toLocaleDateString (Some date) now
     = "Just now")
    /\ ((3600000 <= now - date < 86400000)%Z ->
        ConversationSidebar.formatTimeAgo toLocaleDateString (Some date) now
        = pretty ((now - date) / 3600000)%Z +:+ "h ago"
        /\ (1 <= (now - date) / 3600000 <= 23)%Z)
    /\ ((86400000 <= now - date < 604800000)%Z ->
        ConversationSidebar.formatTimeAgo toLocaleDateString (Some date) now
        = pretty ((now - date) / 86400000)%Z +:+ "d ago"
        /\ (1 <= (now - date) / 86400000 <= 6)%Z)
    /\ ((604800000 <= now - date)%Z ->
        ConversationSidebar.formatTimeAgo toLocaleDateString (Some date) now
        = toLocaleDateString (Some date))
    /\ ConversationSidebar.formatTimeAgo toLocaleDateString None now
       = toLocaleDateString None.
Proof.
  intros tl date now. unfold ConversationSidebar.formatTimeAgo.
  change (1000 * 60 * 60)%Z with 3600000%Z.
  set (d := (now - date)%Z).
  assert (Hdays : ((d / 3600000) / 24 = d / 86400000)%Z).
  { rewrite Z.div_div by lia. done. }
  split_and!; [| | | |done].
  - intros H. assert ((d / 3600000 < 1)%Z) by (apply Z.div_lt_upper_bound; lia).
    by destruct (Z.ltb_spec (d / 3600000) 1); [|lia].
  - intros [Hlo Hhi].
    assert ((1 <= d / 3600000)%Z) by (apply Z.div_le_lower_bound; lia).
    assert ((d / 3600000 < 24)%Z) by (apply Z.div_lt_upper_bound; lia).
    destruct (Z.ltb_spec (d / 3600000) 1); [lia|].
    destruct (Z.ltb_spec (d / 3600000) 24); [|lia].
    split; [done|lia].
  - intros [Hlo Hhi].
    assert ((24 <= d / 3600000)%Z) by (apply Z.div_le_lower_bound; lia).
    assert ((d / 3600000 < 168)%Z) by (apply Z.div_lt_upper_bound; lia).
    assert ((1 <= d / 86400000)%Z) by (apply Z.div_le_lower_bound; lia).
    assert ((d / 86400000 < 7)%Z) by (apply Z.div_lt_upper_bound; lia).
    destruct (Z.ltb_spec (d / 3600000) 1); [lia|].
    destruct (Z.ltb_spec (d / 3600000) 24); [lia|].
    destruct (Z.ltb_spec (d / 3600000) 168); [|lia].
    rewrite Hdays. split; [done|lia].
  - intros Hlo.
    assert ((168 <= d / 3600000)%Z) by (apply Z.div_le_lower_bound; lia).
    destruct (Z.ltb_spec (d / 3600000) 1); [lia|].
    destruct (Z.ltb_spec (d / 3600000) 24); [lia|].
    by destruct (Z.ltb_spec (d / 3600000) 168); [lia|].
Qed.

(** X22. [loadConversations] asks the server only for a non-empty agent
    id; without one it does nothing.  It never throws.  A response that
    reports success replaces the list, a response that does not empties
    it, and a rejected request is logged and keeps the list shown
    before; whenever the handler completes, [loading] is false. *)
Theorem sidebar_load_conversations :
  forall (agentId : option string)
         (got : Exec.settle ConversationSidebar.ConversationsResponse)
         (st : ConversationSidebar.State),
    (forall e, Exec.outcome (ConversationSidebar.loadConversations agentId got st)
               <> Exec.Threw e)
    /\ (Js.truthy (default "" agentId) = false ->
        ConversationSidebar.loadConversations agentId got st = (Exec.Done tt, st, []))
    /\ (forall i, In (ConversationSidebar.ApiGet i)
                     (Exec.effects (ConversationSidebar.loadConversations agentId got st))
                  <-> agentId = Some i /\ Js.truthy i = true)
    /\ (Js.truthy (default "" agentId) = true ->
        ConversationSidebar.conversations
          (Exec.state (ConversationSidebar.loadConversations agentId got st))
        = match got with
          | Exec.Fulfilled response =>
              if ConversationSidebar.success response
              then ConversationSidebar.response_conversations response
              else []
          | _ => ConversationSidebar.conversations st
          end)
    /\ (In ConversationSidebar.ConsoleError
           (Exec.effects (ConversationSidebar.loadConversations agentId got st))
        <-> Js.truthy (default "" agentId) = true /\ exists e, got = Exec.Rejected e)
    /\ (Js.truthy (default "" agentId) = true ->
        Exec.outcome (ConversationSidebar.loadConversations agentId got st) = Exec.Done tt ->
        ConversationSidebar.loading
          (Exec.state (ConversationSidebar.loadConversations agentId got st)) = false).
Proof.
  intros agentId got st.
  unfold ConversationSidebar.loadConversations, Exec.state, Exec.effects,
    Exec.outcome, Exec.try_catch_finally, Exec.finally, Exec.try_catch,
    Exec.bind, Exec.modify, Exec.emit, Exec.await, Exec.throw, Exec.get, Exec.ret.
  destruct agentId as [[|c r]|]; cbn;
    try (destruct got as [response|e0|];
         [destruct (ConversationSidebar.success response) eqn:Es|..]; cbn);
    split_and!; try done;
    intros; try split; intros; settle_cases; simplify_eq;
    split_and?; try done; try (by eauto).
Qed.

(** ** Status icons and badges *)

(** X23. The icon of a connector goes with the table the sort reads: a
    connector gets an icon exactly when its status is one of the four
    own keys of the table, and a connector with an icon has the icon of
    another connector exactly when the sort reads the same priority for
    both.  A status without an icon reads priority 4, unless it names a
    property inherited from [Object.prototype]: then the sort reads that
    property, not 4.  The catalog and the editor colour the badge of
    every status alike, and a status without an icon is coloured like
    "disabled". *)
Theorem status_icon_follows_priority :
  forall (a b : MCPCatalog.MCPConnector),
    (StatusViews.getStatusIcon (MCPCatalog.status a) = None
     <-> MCPCatalog.statusOrder !! MCPCatalog.status a = None)
    /\ (is_Some (StatusViews.getStatusIcon (MCPCatalog.status a)) ->
        (StatusViews.getStatusIcon (MCPCatalog.status a)
         = StatusViews.getStatusIcon (MCPCatalog.status b)
         <-> MCPCatalog.orderOf a = MCPCatalog.orderOf b))
    /\ (StatusViews.getStatusIcon (MCPCatalog.status a) = None ->
        MCPCatalog.orderOf a
        = if bool_decide (MCPCatalog.status a ∈ Js.objectPrototype)
          then Js.Member (MCPCatalog.status a) else Js.Val 4%Z)
    /\ StatusViews.getStatusBadgeColor (MCPCatalog.status a)
       = StatusViews.editorBadgeColor (MCPCatalog.status a)
    /\ (StatusViews.getStatusIcon (MCPCatalog.status a) = None ->
        StatusViews.getStatusBadgeColor (MCPCatalog.status a)
        = StatusViews.getStatusBadgeColor "disabled").
Proof.
  intros a b.
  assert (Hval : forall c,
            MCPCatalog.orderOf c
            = if bool_decide (MCPCatalog.status c ∈ Js.objectPrototype)
              then Js.Member (MCPCatalog.status c)
              else Js.Val (MCPCatalog.priority c)).
  { intros c. case_bool_decide as Hc.
    - by destruct (orderOf_inherited c Hc).
    - by apply orderOf_known. }
  assert (Hicon : forall c,
            StatusViews.getStatusIcon (MCPCatalog.status c) = None
            <-> MCPCatalog.statusOrder !! MCPCatalog.status c = None).
  { intros c. unfold StatusViews.getStatusIcon, MCPCatalog.statusOrder.
    generalize (MCPCatalog.status c) as s. intros s.
    cbn [list_to_map foldr uncurry fst snd].
    repeat case_decide; subst; try (by vm_compute; split).
    split; [intros _|done]. by rewrite !lookup_insert_ne, lookup_empty by done. }
  assert (Hprio : forall c,
            MCPCatalog.statusOrder !! MCPCatalog.status c = None ->
            MCPCatalog.priority c = 4%Z).
  { intros c Hc. unfold MCPCatalog.priority. by rewrite Hc. }
  assert (Hown : forall c,
            is_Some (StatusViews.getStatusIcon (MCPCatalog.status c)) ->
            MCPCatalog.status c ∉ Js.objectPrototype).
  { intros c [i Hi] Hin. destruct (orderOf_inherited c Hin) as [_ Hn].
    apply Hicon in Hn. congruence. }
  split_and!.
  - apply Hicon.
  - intros Ha. rewrite (orderOf_known a (Hown a Ha)).
    destruct (StatusViews.getStatusIcon (MCPCatalog.status b)) as [ib|] eqn:Eb.
    + rewrite (orderOf_known b (Hown b ltac:(by eexists))).
      rewrite !priority_cases. revert Ha Eb.
      unfold StatusViews.getStatusIcon.
      generalize (MCPCatalog.status a) as s. generalize (MCPCatalog.status b) as t.
      intros t s Ha Eb. repeat case_decide; subst; try done;
        try (by destruct Ha); split; intros [=]; congruence.
    + destruct Ha as [ia Ha]. rewrite Ha. rewrite (Hval b).
      apply Hicon in Eb. rewrite (Hprio b Eb).
      assert (MCPCatalog.priority a <> 4%Z).
      { rewrite priority_cases. revert Ha. unfold StatusViews.getStatusIcon.
        repeat case_decide; try done. }
      case_bool_decide; split; intros [=]; congruence.
  - intros Ha. rewrite (Hval a). apply Hicon in Ha.
    by rewrite (Hprio a Ha).
  - unfold StatusViews.getStatusBadgeColor, StatusViews.editorBadgeColor. done.
  - unfold StatusViews.getStatusIcon, StatusViews.getStatusBadgeColor.
    generalize (MCPCatalog.status a) as s. intros s.
    repeat case_decide; subst; try done.
Qed.
